(** * Session, gateway and SSO-callback logic of the react-admin front end

    A shallow embedding of
      - [frontend/react-admin/src/auth.jsx]
          (decodeTokenPayload in both revisions, login, refreshAccessToken,
           logout, fetchUserProfile, apiClient.request),
      - [frontend/react-admin/src/utils/apiClient.js] (ApiClient.request),
      - [frontend/react-admin/src/pages/SSOCallbackPage.jsx] (handleCallback),
      - the AcceptInvitationPage revision that base64-encodes the redirect
        state (handleSsoLogin),
    together with the part of the JavaScript platform these functions call
    (string helpers, atob/btoa, decodeURIComponent/encodeURIComponent,
    JSON.parse/JSON.stringify, localStorage, fetch).

    Conventions of the model:
      - a JavaScript string is represented by its UTF-8 encoding, so ASCII
        text is represented by itself;
      - an exception is a value of [exn]; code that may throw returns a
        [Result] (synchronous code) or is a [Proc] (asynchronous code);
      - an [async] function suspends at its [fetch]es only: the body of a
        response is read together with the response;
      - a call the sources start without [await] ([logout()],
        [fetchUserProfile(...).catch(...)]) is sequenced where it is
        started;
      - [console] output is left out. *)

From Stdlib Require Import ZArith NArith Lia Ascii String List Bool.
From stdpp Require Import base option strings gmap list pretty.

Local Open Scope Z_scope.
#[local] Set Warnings "-register-all".

(* ====================================================================== *)
(** ** The JavaScript platform *)
(* ====================================================================== *)

Module JS.

(** JavaScript values as the sources see them: what [JSON.parse] produces,
    plus [undefined] and the one built-in method a property read of the
    sources can hit ([String.prototype.sub]).  A number [VNum m e] stands
    for the decimal [m * 10^e]; the sources never compute with numbers,
    they only test them for truthiness and convert them to strings. *)
Inductive value : Type :=
| VUndefined
| VNull
| VBool (b : bool)
| VNum (m e : Z)
| VStr (s : string)
| VArr (xs : list value)
| VObj (fields : list (string * value))
| VNative (name : string).

(** ToBoolean. *)
Definition truthy (v : value) : bool :=
  match v with
  | VUndefined | VNull => false
  | VBool b => b
  | VNum m _ => negb (m =? 0)
  | VStr s => negb (String.eqb s "")
  | VArr _ | VObj _ | VNative _ => true
  end.

(** [a || b]. *)
Definition or_else (a b : value) : value := if truthy a then a else b.

(** Own property of an object; keys are distinct. *)
Fixpoint lookup_field (k : string) (fs : list (string * value)) : option value :=
  match fs with
  | [] => None
  | (k', v) :: rest => if String.eqb k k' then Some v else lookup_field k rest
  end.

(** [v.k]: [None] is the TypeError of reading a property of [null] or
    [undefined].  Of the property names the sources read, only [sub]
    exists on a prototype (of strings). *)
Definition get (v : value) (k : string) : option value :=
  match v with
  | VUndefined | VNull => None
  | VObj fs => Some (default VUndefined (lookup_field k fs))
  | VStr _ => Some (if String.eqb k "sub" then VNative "sub" else VUndefined)
  | _ => Some VUndefined
  end.

(** [v?.k]. *)
Definition opt_get (v : value) (k : string) : value :=
  match v with
  | VUndefined | VNull => VUndefined
  | _ => default VUndefined (get v k)
  end.

(** *** Characters and small string helpers *)

(** The double quote, char code 34. *)
Abbreviation DQ := (Ascii false true false false false true false false) (only parsing).

Definition code (c : ascii) : N := N_of_ascii c.
Definition chr (n : N) : ascii := ascii_of_N n.

Definition codes (s : string) : list N := map code (list_ascii_of_string s).
Definition of_codes (l : list N) : string := string_of_list_ascii (map chr l).

Definition join (sep : string) (l : list string) : string :=
  match l with
  | [] => ""
  | x :: rest => fold_left (fun acc y => acc +:+ sep +:+ y) rest x
  end.

(** [s.split(sep)] for a one-character separator. *)
Fixpoint split_on (sep : ascii) (s : string) : list string :=
  match s with
  | EmptyString => [""]
  | String c rest =>
      if Ascii.eqb c sep then "" :: split_on sep rest
      else match split_on sep rest with
           | [] => [String c ""]
           | x :: xs => String c x :: xs
           end
  end.

(** [s.replace(/a/g, b)] for single characters. *)
Fixpoint replace_all (a b : ascii) (s : string) : string :=
  match s with
  | EmptyString => EmptyString
  | String c rest => String (if Ascii.eqb c a then b else c) (replace_all a b rest)
  end.

(** [s.startsWith(p)]. *)
Definition starts_with (p s : string) : bool := String.prefix p s.

Definition hex_digit (upper : bool) (n : N) : ascii :=
  chr (if (n <? 10)%N then 48 + n
       else if upper then 55 + n else 87 + n)%N.

(** [n.toString(16)]. *)
Definition to_hex (n : N) : string :=
  if (n <? 16)%N then String (hex_digit false n) ""
  else if (n <? 256)%N then
    String (hex_digit false (n / 16)) (String (hex_digit false (n mod 16)) "")
  else
    String (hex_digit false (n / 4096 mod 16))
      (String (hex_digit false (n / 256 mod 16))
         (String (hex_digit false (n / 16 mod 16))
            (String (hex_digit false (n mod 16)) ""))).

(** [s.slice(-2)]. *)
Definition slice_last2 (s : string) : string :=
  let n := String.length s in String.substring (n - 2) 2 s.

Definition hex_val (c : ascii) : option N :=
  let n := code c in
  if ((48 <=? n) && (n <=? 57))%N then Some (n - 48)%N
  else if ((65 <=? n) && (n <=? 70))%N then Some (n - 55)%N
  else if ((97 <=? n) && (n <=? 102))%N then Some (n - 87)%N
  else None.

(** *** Base64: [atob] and [btoa] *)

Definition b64_val (c : ascii) : option N :=
  let n := code c in
  if ((65 <=? n) && (n <=? 90))%N then Some (n - 65)%N
  else if ((97 <=? n) && (n <=? 122))%N then Some (n - 71)%N
  else if ((48 <=? n) && (n <=? 57))%N then Some (n + 4)%N
  else if (n =? 43)%N then Some 62%N
  else if (n =? 47)%N then Some 63%N
  else None.

Definition b64_chr (n : N) : ascii :=
  chr (if (n <? 26)%N then n + 65
       else if (n <? 52)%N then n + 71
       else if (n <? 62)%N then n - 4
       else if (n =? 62)%N then 43 else 47)%N.

Definition is_b64_space (c : ascii) : bool :=
  let n := code c in
  ((n =? 9) || (n =? 10) || (n =? 12) || (n =? 13) || (n =? 32))%N.

(** Up to two trailing [=] are dropped when the length is a multiple of 4. *)
Definition strip_padding (cs : list ascii) : list ascii :=
  if (List.length cs mod 4 =? 0)%nat then
    match rev cs with
    | "="%char :: "="%char :: r => rev r
    | "="%char :: r => rev r
    | _ => cs
    end
  else cs.

Fixpoint b64_groups (vs : list N) : option (list N) :=
  match vs with
  | [] => Some []
  | [_] => None
  | [a; b] => Some [(a * 4 + b / 16) mod 256]%N
  | [a; b; c] => Some [(a * 4 + b / 16) mod 256; (b * 16 + c / 4) mod 256]%N
  | a :: b :: c :: d :: rest =>
      match b64_groups rest with
      | Some out =>
          Some ((a * 4 + b / 16) mod 256 :: (b * 16 + c / 4) mod 256
                  :: (c * 64 + d) mod 256 :: out)%N
      | None => None
      end
  end.

(** [atob(s)]: the char codes (each below 256) of the decoded binary
    string; [None] is the InvalidCharacterError. *)
Definition atob (s : string) : option (list N) :=
  let cs := strip_padding (List.filter (fun c => negb (is_b64_space c))
                                  (list_ascii_of_string s)) in
  match mapM b64_val cs with
  | Some vs => b64_groups vs
  | None => None
  end.

Fixpoint b64_encode (bs : list N) : list ascii :=
  match bs with
  | [] => []
  | [a] => [b64_chr (a / 4); b64_chr (a mod 4 * 16); "="%char; "="%char]%N
  | [a; b] => [b64_chr (a / 4); b64_chr (a mod 4 * 16 + b / 16);
               b64_chr (b mod 16 * 4); "="%char]%N
  | a :: b :: c :: rest =>
      (b64_chr (a / 4) :: b64_chr (a mod 4 * 16 + b / 16)
         :: b64_chr (b mod 16 * 4 + c / 64) :: b64_chr (c mod 64)
         :: b64_encode rest)%N
  end.

(** *** UTF-8 *)

(** The UTF-8 encoding of a code point. *)
Definition utf8_encode (cp : N) : list N :=
  (if cp <? 128 then [cp]
   else if cp <? 2048 then [192 + cp / 64; 128 + cp mod 64]
   else if cp <? 65536 then
     [224 + cp / 4096; 128 + cp / 64 mod 64; 128 + cp mod 64]
   else [240 + cp / 262144; 128 + cp / 4096 mod 64;
         128 + cp / 64 mod 64; 128 + cp mod 64])%N.

(** A string given by its char codes, all below 256 (a binary string). *)
Definition of_latin1 (l : list N) : string := of_codes (concat (map utf8_encode l)).

(** The char codes of a string whose chars are all below 256; [None] when
    some char is not. *)
Fixpoint to_latin1 (bs : list N) : option (list N) :=
  match bs with
  | [] => Some []
  | b :: rest =>
      if (b <? 128)%N then option_map (cons b) (to_latin1 rest)
      else match rest with
           | b2 :: rest' =>
               if ((b =? 194) || (b =? 195))%N
               then option_map (cons ((b - 192) * 64 + (b2 - 128))%N) (to_latin1 rest')
               else None
           | [] => None
           end
  end.

(** [btoa(s)]; [None] is the InvalidCharacterError for a char above 255. *)
Definition btoa (s : string) : option string :=
  option_map (fun bs => string_of_list_ascii (b64_encode bs)) (to_latin1 (codes s)).

(** Well-formed UTF-8, as the Decode operation of [decodeURIComponent]
    checks it: [need] continuation bytes are pending for the code point
    [acc], which must reach [lo]. *)
Fixpoint utf8_ok (need : nat) (acc lo : N) (bs : list N) : bool :=
  match bs with
  | [] => match need with O => true | _ => false end
  | b :: rest =>
      match need with
      | O =>
          (if b <? 128 then utf8_ok 0 0 0 rest
           else if b <? 192 then false
           else if b <? 224 then utf8_ok 1 (b - 192) 128 rest
           else if b <? 240 then utf8_ok 2 (b - 224) 2048 rest
           else if b <? 248 then utf8_ok 3 (b - 240) 65536 rest
           else false)%N
      | S n =>
          if ((128 <=? b) && (b <? 192))%N then
            let acc' := (acc * 64 + (b - 128))%N in
            match n with
            | O =>
                (lo <=? acc')%N && (acc' <? 1114112)%N
                && negb ((55296 <=? acc') && (acc' <? 57344))%N
                && utf8_ok 0 0 0 rest
            | _ => utf8_ok n acc' lo rest
            end
          else false
      end
  end.

(** The escapes of a percent-encoded string; a literal char stands for
    itself.  [None]: a [%] not followed by two hex digits. *)
Fixpoint unescape (cs : list ascii) : option (list N) :=
  match cs with
  | [] => Some []
  | "%"%char :: h1 :: h2 :: rest =>
      match hex_val h1, hex_val h2, unescape rest with
      | Some a, Some b, Some out => Some ((a * 16 + b)%N :: out)
      | _, _, _ => None
      end
  | "%"%char :: _ => None
  | c :: rest => option_map (cons (code c)) (unescape rest)
  end.

(** [decodeURIComponent(s)]; [None] is the URIError. *)
Definition decodeURIComponent (s : string) : option string :=
  match unescape (list_ascii_of_string s) with
  | Some bs => if utf8_ok 0 0 0 bs then Some (of_codes bs) else None
  | None => None
  end.

Definition uri_unreserved (n : N) : bool :=
  ((65 <=? n) && (n <=? 90) || (97 <=? n) && (n <=? 122)
   || (48 <=? n) && (n <=? 57)
   || (n =? 45) || (n =? 95) || (n =? 46) || (n =? 33) || (n =? 126)
   || (n =? 42) || (n =? 39) || (n =? 40) || (n =? 41))%N.

(** [encodeURIComponent(s)]. *)
Definition encodeURIComponent (s : string) : string :=
  string_of_list_ascii
    (concat (map (fun n => if uri_unreserved n then [chr n]
                           else ["%"%char; hex_digit true (n / 16);
                                 hex_digit true (n mod 16)]%N)
                 (codes s))).

(** *** Numbers as text *)

Fixpoint strip_zeros (fuel : nat) (m e : Z) : Z * Z :=
  match fuel with
  | O => (m, e)
  | S f => if (e <? 0) && (m mod 10 =? 0) then strip_zeros f (m / 10) (e + 1)
           else (m, e)
  end.

(** Number to string, for the decimals that print without an exponent. *)
Definition num_to_string (m e : Z) : string :=
  if m =? 0 then "0"
  else
    let '(m', e') := strip_zeros (Z.to_nat (- e)) m e in
    if 0 <=? e' then pretty (m' * 10 ^ e')
    else
      let ds := pretty (Z.abs m') in
      let k := Z.to_nat (- e') in
      let n := String.length ds in
      (if m' <? 0 then "-" else "")
        +:+ (if (k <? n)%nat
             then String.substring 0 (n - k) ds +:+ "." +:+ String.substring (n - k) k ds
             else "0." +:+ string_of_list_ascii (repeat "0"%char (k - n)) +:+ ds).

(** *** [String(v)], as [localStorage.setItem] and template literals
    apply it *)
Fixpoint to_string (v : value) : string :=
  match v with
  | VUndefined => "undefined"
  | VNull => "null"
  | VBool true => "true"
  | VBool false => "false"
  | VNum m e => num_to_string m e
  | VStr s => s
  | VArr xs =>
      join "," (map (fun x => match x with
                              | VUndefined | VNull => ""
                              | _ => to_string x
                              end) xs)
  | VObj _ => "[object Object]"
  | VNative name => "function " +:+ name +:+ "() { [native code] }"
  end.

(** *** JSON *)

Definition quote_char (n : N) : list ascii :=
  (if n =? 34 then ["\"%char; DQ]
   else if n =? 92 then ["\"%char; "\"%char]
   else if n =? 8 then ["\"%char; "b"%char]
   else if n =? 12 then ["\"%char; "f"%char]
   else if n =? 10 then ["\"%char; "n"%char]
   else if n =? 13 then ["\"%char; "r"%char]
   else if n =? 9 then ["\"%char; "t"%char]
   else if n <? 32 then
     ["\"%char; "u"%char; "0"%char; "0"%char;
      hex_digit false (n / 16); hex_digit false (n mod 16)]
   else [chr n])%N.

Definition quote (s : string) : string :=
  string_of_list_ascii
    ((DQ :: concat (map quote_char (codes s))) ++ [DQ]).

(** [JSON.stringify(v)]; [None] is the result [undefined].  Properties
    keep their insertion order. *)
Fixpoint JSON_stringify (v : value) : option string :=
  match v with
  | VUndefined | VNative _ => None
  | VNull => Some "null"
  | VBool true => Some "true"
  | VBool false => Some "false"
  | VNum m e => Some (num_to_string m e)
  | VStr s => Some (quote s)
  | VArr xs =>
      Some ("[" +:+ join "," (map (fun x => default "null" (JSON_stringify x)) xs)
                +:+ "]")
  | VObj fs =>
      Some ("{" +:+ join ","
              ((fix members (l : list (string * value)) : list string :=
                  match l with
                  | [] => []
                  | (k, x) :: rest =>
                      match JSON_stringify x with
                      | Some t => (quote k +:+ ":" +:+ t) :: members rest
                      | None => members rest
                      end
                  end) fs)
                +:+ "}")
  end.

Definition is_ws (c : ascii) : bool :=
  let n := code c in ((n =? 32) || (n =? 9) || (n =? 10) || (n =? 13))%N.

Fixpoint skip_ws (cs : list ascii) : list ascii :=
  match cs with
  | c :: rest => if is_ws c then skip_ws rest else cs
  | [] => []
  end.

Definition is_digit (c : ascii) : bool :=
  let n := code c in ((48 <=? n) && (n <=? 57))%N.

Fixpoint span_digits (cs : list ascii) : list ascii * list ascii :=
  match cs with
  | c :: rest =>
      if is_digit c then let '(ds, r) := span_digits rest in (c :: ds, r)
      else ([], cs)
  | [] => ([], [])
  end.

Definition digits_val (ds : list ascii) : Z :=
  fold_left (fun a c => a * 10 + (Z.of_N (code c) - 48)) ds 0.

(** number = -? int frac? exp? *)
Definition parse_number (cs : list ascii) : option (value * list ascii) :=
  let '(neg, cs1) := match cs with
                     | "-"%char :: r => (true, r)
                     | _ => (false, cs)
                     end in
  let '(int, cs2) := span_digits cs1 in
  match int with
  | [] => None
  | "0"%char :: _ :: _ => None
  | _ =>
      let frac := match cs2 with
                  | "."%char :: r => let '(f, r') := span_digits r in Some (f, r')
                  | _ => None
                  end in
      match frac with
      | Some ([], _) => None
      | _ =>
          let '(fd, cs3) := default ([], cs2) frac in
          let m := digits_val (int ++ fd) in
          let m := if neg then - m else m in
          let shift := - Z.of_nat (List.length fd) in
          let is_e c := (Ascii.eqb c "e" || Ascii.eqb c "E")%char in
          match cs3 with
          | c :: r =>
              if is_e c then
                let '(sgn, r1) := match r with
                                  | "-"%char :: r' => (-1, r')
                                  | "+"%char :: r' => (1, r')
                                  | _ => (1, r)
                                  end in
                let '(ed, r2) := span_digits r1 in
                match ed with
                | [] => None
                | _ => Some (VNum m (shift + sgn * digits_val ed), r2)
                end
              else Some (VNum m shift, cs3)
          | [] => Some (VNum m shift, cs3)
          end
      end
  end.

Definition hex4 (a b c d : ascii) : option N :=
  match hex_val a, hex_val b, hex_val c, hex_val d with
  | Some x, Some y, Some z, Some w => Some (((x * 16 + y) * 16 + z) * 16 + w)%N
  | _, _, _, _ => None
  end.

Definition flush (hi : option N) : list N :=
  match hi with Some h => utf8_encode h | None => [] end.

Definition simple_escape (c : ascii) : option N :=
  let n := code c in
  (if n =? 34 then Some 34 else if n =? 92 then Some 92
   else if n =? 47 then Some 47 else if n =? 98 then Some 8
   else if n =? 102 then Some 12 else if n =? 110 then Some 10
   else if n =? 114 then Some 13 else if n =? 116 then Some 9
   else None)%N.

(** The body of a string literal, after its opening quote.  [hi] is a
    pending high surrogate of a [\uXXXX] escape. *)
Fixpoint parse_str (cs : list ascii) (hi : option N) (out : list N)
  : option (string * list ascii) :=
  match cs with
  | [] => None
  | DQ :: rest => Some (of_codes (out ++ flush hi), rest)
  | "\"%char :: "u"%char :: a :: b :: c :: d :: rest =>
      match hex4 a b c d with
      | Some u =>
          match hi with
          | Some h =>
              if ((56320 <=? u) && (u <? 57344))%N
              then parse_str rest None
                     (out ++ utf8_encode (65536 + (h - 55296) * 1024 + (u - 56320))%N)
              else if ((55296 <=? u) && (u <? 56320))%N
                   then parse_str rest (Some u) (out ++ utf8_encode h)
                   else parse_str rest None (out ++ utf8_encode h ++ utf8_encode u)
          | None =>
              if ((55296 <=? u) && (u <? 56320))%N
              then parse_str rest (Some u) out
              else parse_str rest None (out ++ utf8_encode u)
          end
      | None => None
      end
  | "\"%char :: e :: rest =>
      match simple_escape e with
      | Some b => parse_str rest None (out ++ flush hi ++ [b])
      | None => None
      end
  | c :: rest =>
      if (code c <? 32)%N then None
      else parse_str rest None (out ++ flush hi ++ [code c])
  end.

(** A parsed object holds one property per key: a repeated key keeps its
    place and takes the later value. *)
Fixpoint set_field (k : string) (v : value) (fs : list (string * value))
  : list (string * value) :=
  match fs with
  | [] => [(k, v)]
  | (k', v') :: rest =>
      if String.eqb k k' then (k', v) :: rest else (k', v') :: set_field k v rest
  end.

Fixpoint parse_value (fuel : nat) (cs : list ascii) {struct fuel}
  : option (value * list ascii) :=
  match fuel with
  | O => None
  | S f =>
      match skip_ws cs with
      | "{"%char :: r =>
          match skip_ws r with
          | "}"%char :: r' => Some (VObj [], r')
          | r' => parse_members f r' []
          end
      | "["%char :: r =>
          match skip_ws r with
          | "]"%char :: r' => Some (VArr [], r')
          | r' => parse_elems f r' []
          end
      | DQ :: r =>
          match parse_str r None [] with
          | Some (s, r') => Some (VStr s, r')
          | None => None
          end
      | "t"%char :: "r"%char :: "u"%char :: "e"%char :: r => Some (VBool true, r)
      | "f"%char :: "a"%char :: "l"%char :: "s"%char :: "e"%char :: r =>
          Some (VBool false, r)
      | "n"%char :: "u"%char :: "l"%char :: "l"%char :: r => Some (VNull, r)
      | cs' => parse_number cs'
      end
  end
with parse_elems (fuel : nat) (cs : list ascii) (acc : list value) {struct fuel}
  : option (value * list ascii) :=
  match fuel with
  | O => None
  | S f =>
      match parse_value f cs with
      | Some (v, r) =>
          match skip_ws r with
          | ","%char :: r' => parse_elems f r' (acc ++ [v])
          | "]"%char :: r' => Some (VArr (acc ++ [v]), r')
          | _ => None
          end
      | None => None
      end
  end
with parse_members (fuel : nat) (cs : list ascii) (acc : list (string * value))
       {struct fuel} : option (value * list ascii) :=
  match fuel with
  | O => None
  | S f =>
      match skip_ws cs with
      | DQ :: r =>
          match parse_str r None [] with
          | Some (k, r1) =>
              match skip_ws r1 with
              | ":"%char :: r2 =>
                  match parse_value f r2 with
                  | Some (v, r3) =>
                      match skip_ws r3 with
                      | ","%char :: r4 => parse_members f r4 (set_field k v acc)
                      | "}"%char :: r4 => Some (VObj (set_field k v acc), r4)
                      | _ => None
                      end
                  | None => None
                  end
              | _ => None
              end
          | None => None
          end
      | _ => None
      end
  end.

(** [JSON.parse(s)]; [None] is the SyntaxError.  Every step of the parser
    consumes input, so twice the length is fuel enough. *)
Definition JSON_parse (s : string) : option value :=
  let cs := list_ascii_of_string s in
  match parse_value (2 * List.length cs + 2) cs with
  | Some (v, r) => match skip_ws r with [] => Some v | _ => None end
  | None => None
  end.

End JS.

Import JS.

(* ====================================================================== *)
(** ** Exceptions, results and effects *)
(* ====================================================================== *)

(** What a [throw] carries: [new Error(msg)] of the sources, or a fault
    raised by the platform. *)
Inductive native : Type :=
| TypeError          (* property of null/undefined, call of a non-function *)
| InvalidCharacter   (* atob, btoa *)
| URIError           (* decodeURIComponent *)
| SyntaxError        (* JSON.parse, response.json() *)
| NetworkFailure.    (* fetch rejected *)

Inductive exn : Type :=
| Error (msg : string)
| Native (k : native).

(** [err.message]; the platform's own messages are not empty. *)
Definition message (e : exn) : string :=
  match e with
  | Error msg => msg
  | Native TypeError => "TypeError"
  | Native InvalidCharacter => "InvalidCharacterError"
  | Native URIError => "URIError"
  | Native SyntaxError => "SyntaxError"
  | Native NetworkFailure => "Failed to fetch"
  end.

(** Pure code that may throw. *)
Inductive Result (A : Type) : Type :=
| Returned (a : A)
| Raised (e : exn).
Arguments Returned {A} a.
Arguments Raised {A} e.

Definition rbind {A B} (r : Result A) (f : A -> Result B) : Result B :=
  match r with
  | Returned a => f a
  | Raised e => Raised e
  end.

(** [try { body } catch (e) { handler }]. *)
Definition rtry {A} (body : Result A) (handler : exn -> Result A) : Result A :=
  match body with
  | Returned a => Returned a
  | Raised e => handler e
  end.

Definition or_raise {A} (k : native) (o : option A) : Result A :=
  match o with
  | Some a => Returned a
  | None => Raised (Native k)
  end.

Declare Scope result_scope.
Delimit Scope result_scope with result.
Notation "'let!' x ':=' c 'in' k" := (rbind c (fun x => k))
  (at level 10, x name, c at level 100, k at level 200) : result_scope.

(** *** Requests and responses *)

Definition headers := list (string * string).

(** [h[k] = v] on a headers object. *)
Fixpoint set_header (k v : string) (h : headers) : headers :=
  match h with
  | [] => [(k, v)]
  | (k', v') :: rest =>
      if String.eqb k k' then (k', v) :: rest else (k', v') :: set_header k v rest
  end.

(** [{...a, ...b}]. *)
Definition spread (a b : headers) : headers :=
  fold_left (fun acc kv => set_header kv.1 kv.2 acc) b a.

Fixpoint header (k : string) (h : headers) : option string :=
  match h with
  | [] => None
  | (k', v) :: rest => if String.eqb k k' then Some v else header k rest
  end.

(** The [options] argument of a gateway call. *)
Record Options : Type := mkOptions {
  opt_method : option string;
  opt_headers : headers;
  opt_body : option string
}.

Definition no_options : Options := mkOptions None [] None.

Record Request : Type := mkRequest {
  req_url : string;
  req_method : option string;
  req_headers : headers;
  req_body : option string
}.

(** What the network answers to one [fetch]: a response with its status
    and its body as [response.json()] reads it ([None]: not JSON), or a
    rejection. *)
Inductive Response : Type :=
| Resp (status : Z) (body : option value)
| Rejected.

Definition ok (status : Z) : bool := (200 <=? status) && (status <=? 299).

(** *** The client's state *)

Record World : Type := mkWorld {
  storage : gmap string string;          (* localStorage *)
  location : option string;              (* last window.location.href = ... *)
  user : value;                          (* AuthProvider state *)
  token : value;
  refreshToken : value;
  loading : bool;
  page_status : string;                  (* SSOCallbackPage state *)
  page_error : value;
  navigations : list (string * value);   (* navigate(path, {state}) *)
  sent : list Request                    (* every fetch, oldest first *)
}.

Inductive action : Type :=
| SetItem (k v : string)
| RemoveItem (k : string)
| SetLocation (url : string)
| SetUser (v : value)
| SetToken (v : value)
| SetRefreshToken (v : value)
| SetLoading (b : bool)
| SetStatus (s : string)
| SetError (v : value)
| Navigate (path : string) (state : value).

Definition apply (a : action) (w : World) : World :=
  match a with
  | SetItem k v =>
      mkWorld (<[k := v]> (storage w)) (location w) (user w) (token w)
        (refreshToken w) (loading w) (page_status w) (page_error w)
        (navigations w) (sent w)
  | RemoveItem k =>
      mkWorld (delete k (storage w)) (location w) (user w) (token w)
        (refreshToken w) (loading w) (page_status w) (page_error w)
        (navigations w) (sent w)
  | SetLocation url =>
      mkWorld (storage w) (Some url) (user w) (token w)
        (refreshToken w) (loading w) (page_status w) (page_error w)
        (navigations w) (sent w)
  | SetUser v =>
      mkWorld (storage w) (location w) v (token w)
        (refreshToken w) (loading w) (page_status w) (page_error w)
        (navigations w) (sent w)
  | SetToken v =>
      mkWorld (storage w) (location w) (user w) v
        (refreshToken w) (loading w) (page_status w) (page_error w)
        (navigations w) (sent w)
  | SetRefreshToken v =>
      mkWorld (storage w) (location w) (user w) (token w)
        v (loading w) (page_status w) (page_error w)
        (navigations w) (sent w)
  | SetLoading b =>
      mkWorld (storage w) (location w) (user w) (token w)
        (refreshToken w) b (page_status w) (page_error w)
        (navigations w) (sent w)
  | SetStatus s =>
      mkWorld (storage w) (location w) (user w) (token w)
        (refreshToken w) (loading w) s (page_error w)
        (navigations w) (sent w)
  | SetError v =>
      mkWorld (storage w) (location w) (user w) (token w)
        (refreshToken w) (loading w) (page_status w) v
        (navigations w) (sent w)
  | Navigate path st =>
      mkWorld (storage w) (location w) (user w) (token w)
        (refreshToken w) (loading w) (page_status w) (page_error w)
        (navigations w ++ [(path, st)]) (sent w)
  end.

Definition dispatch (r : Request) (w : World) : World :=
  mkWorld (storage w) (location w) (user w) (token w)
    (refreshToken w) (loading w) (page_status w) (page_error w)
    (navigations w) (sent w ++ [r]).

Definition fresh (st : gmap string string) : World :=
  mkWorld st None VNull VNull VNull true "Processing authentication..." VNull [] [].

(** *** Asynchronous code

    An [async] function is a tree of its effects.  Reads and writes of the
    client's state happen at once; a [fetch] suspends the function until
    the network answers (the body of the response comes with it). *)
Inductive Proc (A : Type) : Type :=
| Ret (a : A)
| Throw (e : exn)
| GetItem (k : string) (cont : option string -> Proc A)
| Do (a : action) (next : Proc A)
| Fetch (r : Request) (cont : Response -> Proc A).
Arguments Ret {A} a.
Arguments Throw {A} e.
Arguments GetItem {A} k cont.
Arguments Do {A} a next.
Arguments Fetch {A} r cont.

Fixpoint bind {A B} (p : Proc A) (f : A -> Proc B) : Proc B :=
  match p with
  | Ret a => f a
  | Throw e => Throw e
  | GetItem k c => GetItem k (fun v => bind (c v) f)
  | Do a n => Do a (bind n f)
  | Fetch r c => Fetch r (fun x => bind (c x) f)
  end.

(** [try { p } catch (e) { h e }]. *)
Fixpoint try_catch {A} (p : Proc A) (h : exn -> Proc A) : Proc A :=
  match p with
  | Ret a => Ret a
  | Throw e => h e
  | GetItem k c => GetItem k (fun v => try_catch (c v) h)
  | Do a n => Do a (try_catch n h)
  | Fetch r c => Fetch r (fun x => try_catch (c x) h)
  end.

(** [try { p } finally { fin }], for a [fin] that completes normally. *)
Fixpoint finally {A} (p : Proc A) (fin : Proc unit) : Proc A :=
  match p with
  | Ret a => bind fin (fun _ => Ret a)
  | Throw e => bind fin (fun _ => Throw e)
  | GetItem k c => GetItem k (fun v => finally (c v) fin)
  | Do a n => Do a (finally n fin)
  | Fetch r c => Fetch r (fun x => finally (c x) fin)
  end.

Declare Scope proc_scope.
Delimit Scope proc_scope with proc.
Notation "x <- c ;; k" := (bind c (fun x => k))
  (at level 100, c at next level, right associativity) : proc_scope.
Notation "c ;; k" := (bind c (fun _ => k))
  (at level 100, right associativity) : proc_scope.

Definition act (a : action) : Proc unit := Do a (Ret tt).
Definition getItem (k : string) : Proc (option string) := GetItem k Ret.
Definition setItem (k v : string) : Proc unit := act (SetItem k v).
Definition removeItem (k : string) : Proc unit := act (RemoveItem k).

(** What [await] makes of the network's answer: the response, or the
    rejection thrown. *)
Definition answer (x : Response) : Proc (Z * option value) :=
  match x with
  | Resp status body => Ret (status, body)
  | Rejected => Throw (Native NetworkFailure)
  end.

(** [await fetch(url, init)]. *)
Definition fetch (r : Request) : Proc (Z * option value) := Fetch r answer.

(** [await response.json()]. *)
Definition json (body : option value) : Proc value :=
  match body with
  | Some v => Ret v
  | None => Throw (Native SyntaxError)
  end.

Definition lift {A} (r : Result A) : Proc A :=
  match r with
  | Returned a => Ret a
  | Raised e => Throw e
  end.

(** *** Running asynchronous code *)

Inductive Status (A : Type) : Type :=
| Done (r : Result A)
| Waiting (cont : Response -> Proc A).
Arguments Done {A} r.
Arguments Waiting {A} cont.

(** Run up to the next suspension. *)
Fixpoint advance {A} (p : Proc A) (w : World) : World * Status A :=
  match p with
  | Ret a => (w, Done (Returned a))
  | Throw e => (w, Done (Raised e))
  | GetItem k c => advance (c (storage w !! k)) w
  | Do a n => advance n (apply a w)
  | Fetch r c => (dispatch r w, Waiting c)
  end.

(** The network answers the pending [fetch]. *)
Definition resume {A} (ws : World * Status A) (x : Response) : World * Status A :=
  match ws.2 with
  | Waiting c => advance (c x) ws.1
  | Done _ => ws
  end.

(** One call on its own: the answers arrive in order. *)
Definition run {A} (p : Proc A) (answers : list Response) (w : World)
  : World * Status A :=
  fold_left resume answers (advance p w).

Local Open Scope proc_scope.

(** [new URLSearchParams()], [append], [toString()]. *)
Definition form_unreserved (n : N) : bool :=
  ((65 <=? n) && (n <=? 90) || (97 <=? n) && (n <=? 122)
   || (48 <=? n) && (n <=? 57)
   || (n =? 42) || (n =? 45) || (n =? 46) || (n =? 95))%N.

Definition form_encode (s : string) : string :=
  string_of_list_ascii
    (concat (map (fun n => if form_unreserved n then [chr n]
                           else if (n =? 32)%N then ["+"%char]
                           else ["%"%char; hex_digit true (n / 16);
                                 hex_digit true (n mod 16)]%N)
                 (codes s))).

Definition form_body (fields : list (string * string)) : string :=
  join "&" (map (fun kv => form_encode kv.1 +:+ "=" +:+ form_encode kv.2) fields).

(* ====================================================================== *)
(** ** auth.jsx *)
(* ====================================================================== *)

Module KEYCLOAK_CONFIG.
Definition url : string := "http://localhost:8080".
Definition realm : string := "agentic".
Definition clientId : string := "agentic-frontend".
End KEYCLOAK_CONFIG.

Definition API_BASE_URL : string := "http://localhost:8000".

Definition token_endpoint : string :=
  KEYCLOAK_CONFIG.url +:+ "/realms/" +:+ KEYCLOAK_CONFIG.realm
    +:+ "/protocol/openid-connect/token".

Definition logout_endpoint : string :=
  KEYCLOAK_CONFIG.url +:+ "/realms/" +:+ KEYCLOAK_CONFIG.realm
    +:+ "/protocol/openid-connect/logout".

Definition form_headers : headers :=
  [("Content-Type", "application/x-www-form-urlencoded")].

(** The POST of a form to the identity provider. *)
Definition form_post (url : string) (fields : list (string * string)) : Request :=
  mkRequest url (Some "POST") form_headers (Some (form_body fields)).

Definition refresh_request (storedRefresh : string) : Request :=
  form_post token_endpoint
    [("client_id", KEYCLOAK_CONFIG.clientId);
     ("grant_type", "refresh_token");
     ("refresh_token", storedRefresh)].

(** A string or [null], as [localStorage.getItem] and [searchParams.get]
    return it, taken as a condition. *)
Definition present (o : option string) : bool :=
  match o with
  | Some s => negb (String.eqb s "")
  | None => false
  end.

(** [v.k] in code that may throw. *)
Definition prop (v : value) (k : string) : Result value :=
  or_raise TypeError (get v k).

(** [base64Url.replace(/-/g, '+').replace(/_/g, '/')]. *)
Definition base64_of (base64Url : string) : string :=
  replace_all "_" "/" (replace_all "-" "+" base64Url).

(** [binary.split('').map(c => '%' + ('00' +
    c.charCodeAt(0).toString(16)).slice(-2)).join('')]. *)
Definition percent_encoded (binary : list N) : string :=
  join "" (map (fun c => "%" +:+ slice_last2 ("00" +:+ to_hex c)) binary).

(** The lines both revisions of decodeTokenPayload start with:
<<
      const base64Url = token.split('.')[1];
      const base64 = base64Url.replace(/-/g, '+').replace(/_/g, '/');
      const jsonPayload = decodeURIComponent(atob(base64).split('')
          .map(c => '%' + ('00' + c.charCodeAt(0).toString(16)).slice(-2))
          .join(''));
      const payload = JSON.parse(jsonPayload);
>>
    [token] is whatever value the caller passes. *)
Definition token_payload (token : value) : Result value :=
  (let! parts := match token with
                 | VStr s => Returned (split_on "." s)
                 | _ => Raised (Native TypeError)
                 end in
   let! base64Url := or_raise TypeError (parts !! 1%nat) in
   let base64 := base64_of base64Url in
   let! binary := or_raise InvalidCharacter (atob base64) in
   let! jsonPayload := or_raise URIError (decodeURIComponent (percent_encoded binary)) in
   or_raise SyntaxError (JSON_parse jsonPayload))%result.

Module AuthProvider.

(** decodeTokenPayload of the AuthProvider component (auth.jsx, 83-111). *)
Definition decodeTokenPayload (token : value) : Result value :=
  rtry
    (let! payload := token_payload token in
     let! sub := prop payload "sub" in
     let! email := prop payload "email" in
     let! preferred_username := prop payload "preferred_username" in
     let! name := prop payload "name" in
     let! realm_access := prop payload "realm_access" in
     let! tenant := prop payload "tenant" in
     Returned (VObj [("id", sub);
                     ("email", or_else email preferred_username);
                     ("name", or_else name preferred_username);
                     ("username", preferred_username);
                     ("roles", or_else (opt_get realm_access "roles") (VArr []));
                     ("tenant", or_else tenant (VStr " "))]))%result
    (fun _ => Returned VNull).

Definition logout_request (storedRefresh : string) : Request :=
  form_post logout_endpoint
    [("client_id", KEYCLOAK_CONFIG.clientId); ("refresh_token", storedRefresh)].

(** logout (auth.jsx, 362-395). *)
Definition logout : Proc unit :=
  finally
    (try_catch
       (storedRefresh <- getItem "refresh_token" ;;
        if present storedRefresh then
          _ <- fetch (logout_request (default "" storedRefresh)) ;;
          Ret tt
        else Ret tt)
       (fun _ => Ret tt))
    (removeItem "access_token" ;;
     removeItem "refresh_token" ;;
     act (SetToken VNull) ;;
     act (SetRefreshToken VNull) ;;
     act (SetUser VNull)).

(** The tenant entry the sources write to the store:
    [JSON.stringify({ slug, name })]. *)
Definition tenantInfo (slug name : value) : string :=
  default "undefined" (JSON_stringify (VObj [("slug", slug); ("name", name)])).

(** refreshAccessToken (auth.jsx, 299-360).  [logout()] is started without
    [await]; its effects are sequenced here before the caller returns. *)
Definition refreshAccessToken : Proc value :=
  storedRefresh <- getItem "refresh_token" ;;
  if negb (present storedRefresh) then
    logout ;; Ret VUndefined
  else
    try_catch
      (response <- fetch (refresh_request (default "" storedRefresh)) ;;
       if negb (ok response.1) then Throw (Error "Token refresh failed")
       else
         data <- json response.2 ;;
         access_token <- lift (prop data "access_token") ;;
         setItem "access_token" (to_string access_token) ;;
         refresh_token <- lift (prop data "refresh_token") ;;
         setItem "refresh_token" (to_string refresh_token) ;;
         act (SetToken access_token) ;;
         act (SetRefreshToken refresh_token) ;;
         decodedUser <- lift (decodeTokenPayload access_token) ;;
         (if truthy decodedUser then
            act (SetUser decodedUser) ;;
            let tenant := opt_get decodedUser "tenant" in
            if truthy tenant
            then setItem "current_tenant" (tenantInfo tenant tenant)
            else Ret tt
          else Ret tt) ;;
         Ret access_token)
      (fun _ => logout ;; Ret VNull).

(** The fallback of fetchUserProfile: decode the token, else log out. *)
Definition use_decoded (accessToken : value) : Proc unit :=
  decodedUser <- lift (decodeTokenPayload accessToken) ;;
  if truthy decodedUser then act (SetUser decodedUser) else logout.

(** fetchUserProfile (auth.jsx, 35-80).  The [console.log] on its first
    line calls [accessToken?.substring], which throws for a token that is
    neither a string nor null/undefined. *)
Definition fetchUserProfile (accessToken : value) : Proc unit :=
  match accessToken with
  | VStr _ | VUndefined | VNull =>
      finally
        (try_catch
           (response <- fetch (mkRequest (API_BASE_URL +:+ "/api/v1/users/me") None
                                 [("Authorization", "Bearer " +:+ to_string accessToken);
                                  ("Content-Type", "application/json")] None) ;;
            if ok response.1 then
              userData <- json response.2 ;;
              act (SetUser userData)
            else if response.1 =? 401 then
              _ <- refreshAccessToken ;; Ret tt
            else use_decoded accessToken)
           (fun _ => use_decoded accessToken))
        (act (SetLoading false))
  | _ => Throw (Native TypeError)
  end.

(** login (auth.jsx, 173-245).  [fetchUserProfile(...).catch(...)] is
    started without [await]; its effects are sequenced here before login
    returns. *)
Definition login (email password : string) : Proc value :=
  try_catch
    (response <- fetch (form_post token_endpoint
                          [("client_id", KEYCLOAK_CONFIG.clientId);
                           ("grant_type", "password");
                           ("username", email);
                           ("password", password)]) ;;
     if negb (ok response.1) then
       error <- json response.2 ;;
       error_description <- lift (prop error "error_description") ;;
       Throw (Error (to_string (or_else error_description (VStr "Login failed"))))
     else
       data <- json response.2 ;;
       access_token <- lift (prop data "access_token") ;;
       setItem "access_token" (to_string access_token) ;;
       refresh_token <- lift (prop data "refresh_token") ;;
       setItem "refresh_token" (to_string refresh_token) ;;
       act (SetToken access_token) ;;
       act (SetRefreshToken refresh_token) ;;
       decodedUser <- lift (decodeTokenPayload access_token) ;;
       (if truthy decodedUser then
          act (SetUser decodedUser) ;;
          let tenant := opt_get decodedUser "tenant" in
          if truthy tenant
          then setItem "current_tenant"
                 (tenantInfo tenant (or_else tenant (VStr "Default Tenant")))
          else Ret tt
        else Ret tt) ;;
       try_catch (fetchUserProfile access_token) (fun _ => Ret tt) ;;
       Ret (VObj [("success", VBool true)]))
    (fun error =>
       Ret (VObj [("success", VBool false); ("error", VStr (message error))])).

End AuthProvider.

(** *** The module-level code of auth.jsx: decodeTokenPayload and
    apiClient *)

Module Auth.

(** decodeTokenPayload at module level (auth.jsx, 533-562). *)
Definition decodeTokenPayload (token : value) : Result value :=
  rtry
    (let! payload := token_payload token in
     let! sub := prop payload "sub" in
     let! email := prop payload "email" in
     let! preferred_username := prop payload "preferred_username" in
     let! name := prop payload "name" in
     let! realm_access := prop payload "realm_access" in
     let! tenant := prop payload "tenant" in
     let! tenant_name := prop payload "tenant_name" in
     Returned (VObj [("id", sub);
                     ("email", or_else email preferred_username);
                     ("name", or_else name preferred_username);
                     ("username", preferred_username);
                     ("roles", or_else (opt_get realm_access "roles") (VArr []));
                     ("tenant_slug", tenant);
                     ("tenant_name", tenant_name)]))%result
    (fun _ => Returned VNull).

(** The "safely parse tenant" block of both gateways. *)
Definition stored_tenant (tenantString : option string) : value :=
  match tenantString with
  | Some t =>
      if present tenantString && negb (String.eqb t "undefined")
         && negb (String.eqb t "null")
      then default VNull (JSON_parse t)
      else VNull
  | None => VNull
  end.

(** The headers of the first attempt. *)
Definition first_headers (options : Options) (accessToken tenantString : option string)
  : headers :=
  let h := spread [("Content-Type", "application/json")] (opt_headers options) in
  let slug := opt_get (stored_tenant tenantString) "slug" in
  let h := if truthy slug then set_header "X-Tenant-ID" (to_string slug) h else h in
  if present accessToken
  then set_header "Authorization" ("Bearer " +:+ default "" accessToken) h
  else h.

(** [fetch(url, { ...options, headers })]. *)
Definition call (url : string) (options : Options) (h : headers) : Request :=
  mkRequest url (opt_method options) h (opt_body options).

Definition to_login {A} : Proc A :=
  Do (SetLocation "/login") (Throw (Error "Unauthorized")).

(** The block under [if (tokenResponse.ok)] (auth.jsx, 755-787): store
    the new credentials, rebuild the headers, retry.  It yields the
    response of the retry. *)
Definition renewed (url : string) (options : Options) (h : headers)
    (tokenResponse : Z * option value) : Proc (Z * option value) :=
  if ok tokenResponse.1 then
    data <- json tokenResponse.2 ;;
    access_token <- lift (prop data "access_token") ;;
    setItem "access_token" (to_string access_token) ;;
    refresh_token <- lift (prop data "refresh_token") ;;
    setItem "refresh_token" (to_string refresh_token) ;;
    decodedUser <- lift (decodeTokenPayload access_token) ;;
    let slug := opt_get decodedUser "tenant_slug" in
    h <- (if truthy slug then
            setItem "current_tenant"
              (AuthProvider.tenantInfo slug
                 (or_else (opt_get decodedUser "tenant_name") slug)) ;;
            Ret (set_header "X-Tenant-ID" (to_string slug) h)
          else Ret h) ;;
    let h := set_header "Authorization" ("Bearer " +:+ to_string access_token) h in
    fetch (call url options h)
  else to_login.

(** The block under [if (response.status === 401)] (auth.jsx, 733-797). *)
Definition renew (url : string) (options : Options) (h : headers)
  : Proc (Z * option value) :=
  refreshToken <- getItem "refresh_token" ;;
  if present refreshToken then
    tokenResponse <- fetch (refresh_request (default "" refreshToken)) ;;
    renewed url options h tokenResponse
  else to_login.

(** The tail of request: [if (!response.ok) ... return response.json()]. *)
Definition settle (response : Z * option value) : Proc value :=
  if negb (ok response.1) then
    error <- try_catch (json response.2)
               (fun _ => Ret (VObj [("detail", VStr "Request failed")])) ;;
    detail <- lift (prop error "detail") ;;
    Throw (Error (to_string (or_else detail (VStr "Request failed"))))
  else json response.2.

(** apiClient.request (auth.jsx, 688-805). *)
Definition request (url : string) (options : Options) : Proc value :=
  accessToken <- getItem "access_token" ;;
  tenantString <- getItem "current_tenant" ;;
  let h := first_headers options accessToken tenantString in
  response <- fetch (call url options h) ;;
  response <- (if response.1 =? 401 then renew url options h else Ret response) ;;
  settle response.

End Auth.

(* ====================================================================== *)
(** ** utils/apiClient.js *)
(* ====================================================================== *)

Module ApiClient.

(** ApiClient.request (utils/apiClient.js, 14-89). *)
Definition request (endpoint : string) (options : Options) : Proc value :=
  accessToken <- getItem "access_token" ;;
  if negb (present accessToken)
  then Throw (Error "No authentication token found. Please login.")
  else
    tenantString <- getItem "current_tenant" ;;
    let tenant := Auth.stored_tenant tenantString in
    let h := spread [("Content-Type", "application/json");
                     ("Authorization", "Bearer " +:+ default "" accessToken)]
               (opt_headers options) in
    let slug := opt_get tenant "slug" in
    let h := if truthy slug then set_header "X-Tenant-ID" (to_string slug) h else h in
    let url := if starts_with "http" endpoint then endpoint
               else API_BASE_URL +:+ endpoint in
    response <- fetch (Auth.call url options h) ;;
    if negb (ok response.1) then
      errorData <- try_catch (json response.2) (fun _ => Ret (VObj [])) ;;
      if response.1 =? 401 then
        removeItem "access_token" ;;
        removeItem "refresh_token" ;;
        Do (SetLocation "/login")
           (Throw (Error "Authentication expired. Please login again."))
      else
        detail <- lift (prop errorData "detail") ;;
        Throw (Error (to_string
                 (or_else detail
                    (or_else (opt_get (opt_get errorData "error") "message")
                       (VStr ("Request failed with status " +:+ pretty response.1))))))
    else json response.2.

End ApiClient.

(* ====================================================================== *)
(** ** pages/SSOCallbackPage.jsx and the AcceptInvitationPage *)
(* ====================================================================== *)

Module SSOCallbackPage.

(** The query parameters of the callback URL, as [searchParams.get]
    returns them. *)
Record Params : Type := mkParams {
  p_code : option string;
  p_state : option string;
  p_error : option string;
  p_error_description : option string
}.

(** "Decode state to get invitation token" (SSOCallbackPage.jsx, 54-63). *)
Definition invitation_token_of (state : option string) : value :=
  match state with
  | Some s =>
      if present state then
        match (let! binary := or_raise InvalidCharacter (atob s) in
               let! stateData := or_raise SyntaxError (JSON_parse (of_latin1 binary)) in
               prop stateData "invitation_token")%result
        with
        | Returned v => v
        | Raised _ => VNull
        end
      else VNull
  | None => VNull
  end.

(** "Build callback URL" (SSOCallbackPage.jsx, 68-72). *)
Definition callbackUrl (code : string) (invitationToken : value) : string :=
  let url := "/api/v1/auth/sso/callback?code=" +:+ encodeURIComponent code in
  if truthy invitationToken
  then url +:+ "&invitation_token=" +:+ encodeURIComponent (to_string invitationToken)
  else url.

Definition first_present (a b : option string) : string :=
  if present a then default "" a else default "" b.

(** The [catch] block of handleCallback (SSOCallbackPage.jsx, 142-154).
    The [setTimeout] navigation is recorded when it is scheduled. *)
Definition failed (err : exn) : Proc unit :=
  let or_default d := if String.eqb (message err) "" then d else message err in
  act (SetError (VStr (or_default "Authentication failed"))) ;;
  act (Navigate "/login"
         (VObj [("state",
                 VObj [("error",
                        VStr (or_default "Authentication failed. Please try again."))])])).

(** What handleCallback does with the backend's response
    (SSOCallbackPage.jsx, 84-140). *)
Definition complete (response : Z * option value) : Proc unit :=
  if negb (ok response.1) then
    errorData <- try_catch (json response.2) (fun _ => Ret (VObj [])) ;;
    detail <- lift (prop errorData "detail") ;;
    Throw (Error (to_string
             (or_else detail
                (VStr ("Authentication failed (" +:+ pretty response.1 +:+ ")")))))
  else
    data <- json response.2 ;;
    act (SetStatus "Login successful! Redirecting...") ;;
    access_token <- lift (prop data "access_token") ;;
    setItem "access_token" (to_string access_token) ;;
    (let refresh_token := opt_get data "refresh_token" in
     if truthy refresh_token
     then setItem "refresh_token" (to_string refresh_token) else Ret tt) ;;
    let user := opt_get data "user" in
    (let tenant := opt_get user "tenant" in
     if truthy tenant
     then setItem "current_tenant" (AuthProvider.tenantInfo tenant tenant)
     else Ret tt) ;;
    (if truthy user
     then setItem "user" (default "undefined" (JSON_stringify user))
     else Ret tt) ;;
    let welcome := if truthy (opt_get data "invitation_accepted")
                   then "Welcome! Your account has been activated."
                   else "Welcome back!" in
    act (Navigate "/admin/tenants"
           (VObj [("state",
                   VObj [("message", or_else (opt_get data "message") (VStr welcome));
                         ("type", VStr "success")])])).

(** The request handleCallback sends to the backend. *)
Definition callback_request (code : string) (invitationToken : value) : Request :=
  mkRequest (callbackUrl code invitationToken) (Some "POST")
    [("Content-Type", "application/json")] None.

(** handleCallback (SSOCallbackPage.jsx, 33-155). *)
Definition handleCallback (q : Params) : Proc unit :=
  try_catch
    (if present (p_error q)
     then Throw (Error (first_present (p_error_description q) (p_error q)))
     else if negb (present (p_code q))
     then Throw (Error "No authorization code received from SSO provider")
     else
       let code := default "" (p_code q) in
       let invitationToken := invitation_token_of (p_state q) in
       act (SetStatus "Exchanging authorization code for access token...") ;;
       response <- fetch (callback_request code invitationToken) ;;
       complete response)
    failed.

End SSOCallbackPage.

Module AcceptInvitationPage.

(** The [state] handleSsoLogin builds (lines 960-965 of its revision):
    [btoa(JSON.stringify({ invitation_token, return_url }))]. *)
Definition build_state (invitationToken : value) (origin : string) : Result string :=
  or_raise InvalidCharacter
    (btoa (default "undefined"
             (JSON_stringify (VObj [("invitation_token", invitationToken);
                                    ("return_url", VStr origin)])))).

(** handleSsoLogin, the revision that base64-encodes the state. *)
Definition handleSsoLogin (invitationToken : value) (origin : string) (provider : value)
  : Proc unit :=
  try_catch
    (let redirectUri := origin +:+ "/auth/callback" in
     state <- lift (build_state invitationToken origin) ;;
     let authUrl :=
       "http://localhost:8080/realms/agentic/protocol/openid-connect/auth?"
         +:+ "client_id=agentic-frontend&"
         +:+ "redirect_uri=" +:+ encodeURIComponent redirectUri +:+ "&"
         +:+ "response_type=code&"
         +:+ "scope=openid%20email%20profile&"
         +:+ "state=" +:+ encodeURIComponent state in
     let alias := opt_get provider "alias" in
     let authUrl := if truthy provider && truthy alias
                    then authUrl +:+ "&kc_idp_hint=" +:+ to_string alias
                    else authUrl in
     act (SetLocation authUrl))
    (fun _ => act (SetError (VStr "Failed to initiate SSO login"))).

End AcceptInvitationPage.

(* ====================================================================== *)
(** ** Concurrent calls, traces and sample data *)
(* ====================================================================== *)

(** Several calls in flight on the one event loop: each is suspended at a
    [fetch] or has completed. *)
Definition Pool : Type := list (Status value).

(** Issue a call: it runs up to its first [fetch]. *)
Definition issue (wp : World * Pool) (p : Proc value) : World * Pool :=
  let '(w', st) := advance p wp.1 in (w', wp.2 ++ [st]).

(** Issue the calls in order. *)
Definition start (calls : list (Proc value)) (w : World) : World * Pool :=
  fold_left issue calls (w, []).

(** The network answers the pending [fetch] of call [i]; an answer for a
    call that is not waiting is dropped. *)
Definition deliver (wp : World * Pool) (d : nat * Response) : World * Pool :=
  match wp.2 !! d.1 with
  | Some st => let '(w', st') := resume (wp.1, st) d.2 in (w', <[d.1 := st']> wp.2)
  | None => wp
  end.

(** The answers arrive in any order the network likes. *)
Definition run_pool (sched : list (nat * Response)) (wp : World * Pool)
  : World * Pool :=
  fold_left deliver sched wp.

(** A refreshGrant sent to the identity provider. *)
Definition is_refresh (r : Request) : bool :=
  String.eqb (req_url r) token_endpoint
  && match req_body r with
     | Some b => String.prefix "client_id=agentic-frontend&grant_type=refresh_token&" b
     | None => false
     end.

Definition renewals (w : World) : nat := length (List.filter is_refresh (sent w)).

(** The first answer the schedule holds for call [i]. *)
Definition first_answer (i : nat) (sched : list (nat * Response)) : option Response :=
  option_map snd (head (List.filter (fun d => Nat.eqb d.1 i) sched)).

Definition is_401 (x : option Response) : bool :=
  match x with
  | Some (Resp status _) => status =? 401
  | _ => false
  end.

(** The calls among the first [n] whose first answer is a 401. *)
Definition unauthorized_calls (n : nat) (sched : list (nat * Response)) : nat :=
  length (List.filter (fun i => is_401 (first_answer i sched)) (seq 0 n)).

(** A token response that leaves a usable refresh credential in the
    store: it is not a success, or the [refresh_token] of its body does
    not print as the empty string. *)
Definition keeps_refresh (x : Response) : bool :=
  match x with
  | Resp status (Some data) =>
      negb (ok status) || negb (String.eqb (to_string (opt_get data "refresh_token")) "")
  | _ => true
  end.

(** How the gateways give a session up: the browser is sent to the login
    page and the call throws. *)
Definition session_expired (w : World) (st : Status value) : Prop :=
  location w = Some "/login" /\ exists m, st = Done (Raised (Error m)).

(** What follows the first [fetch] of [Auth.request], its token request
    and its retry. *)
Definition after_first (url : string) (options : Options) (h : headers)
  : Response -> Proc value :=
  fun x =>
    response <- answer x ;;
    response <- (if response.1 =? 401 then Auth.renew url options h else Ret response) ;;
    Auth.settle response.

Definition after_token (url : string) (options : Options) (h : headers)
  : Response -> Proc value :=
  fun x =>
    response <- (tokenResponse <- answer x ;; Auth.renewed url options h tokenResponse) ;;
    Auth.settle response.

Definition after_retry : Response -> Proc value :=
  fun x => response <- answer x ;; Auth.settle response.

(** The claims the gateway decodes from the body of a token response. *)
Definition renewed_claims (data : value) : value :=
  match Auth.decodeTokenPayload (opt_get data "access_token") with
  | Returned v => v
  | Raised _ => VNull
  end.

(** The store after a successful renewal with token response [data]. *)
Definition renewed_store (st : gmap string string) (data : value)
  : gmap string string :=
  let st := <["refresh_token" := to_string (opt_get data "refresh_token")]>
              (<["access_token" := to_string (opt_get data "access_token")]> st) in
  let slug := opt_get (renewed_claims data) "tenant_slug" in
  if truthy slug
  then <["current_tenant" :=
           AuthProvider.tenantInfo slug
             (or_else (opt_get (renewed_claims data) "tenant_name") slug)]> st
  else st.

(** The headers of the retry. *)
Definition renewed_headers (h : headers) (data : value) : headers :=
  let slug := opt_get (renewed_claims data) "tenant_slug" in
  set_header "Authorization" ("Bearer " +:+ to_string (opt_get data "access_token"))
    (if truthy slug then set_header "X-Tenant-ID" (to_string slug) h else h).

Definition with_storage (st : gmap string string) (w : World) : World :=
  mkWorld st (location w) (user w) (token w) (refreshToken w) (loading w)
    (page_status w) (page_error w) (navigations w) (sent w).

(** Where a call of [Auth.request] is, and whether it still waits for
    its first answer. *)
Inductive tracked (url : string) (options : Options) : Status value -> bool -> Prop :=
| tracked_first h : tracked url options (Waiting (after_first url options h)) true
| tracked_token h : tracked url options (Waiting (after_token url options h)) false
| tracked_retry : tracked url options (Waiting after_retry) false
| tracked_done r : tracked url options (Done r) false.

(** Among the calls numbered from [i] that still wait for their first
    answer, those the schedule will answer with a 401. *)
Fixpoint pending (i : nat) (flags : list bool) (sched : list (nat * Response)) : nat :=
  match flags with
  | [] => 0
  | f :: fs =>
      ((if f && is_401 (first_answer i sched) then 1 else 0)
       + pending (S i) fs sched)%nat
  end.

(** The requests one call of [Auth.request] can have sent: the call, then
    at most one refreshGrant, then at most one retry. *)
Inductive gateway_trace (url : string) (options : Options) : list Request -> Prop :=
| trace_first h :
    gateway_trace url options [Auth.call url options h]
| trace_renewal h rt :
    gateway_trace url options [Auth.call url options h; refresh_request rt]
| trace_retry h rt h2 :
    gateway_trace url options
      [Auth.call url options h; refresh_request rt; Auth.call url options h2].

(** The states a call of [Auth.request] issued in [w0] goes through. *)
Inductive reached (url : string) (options : Options) (w0 : World)
  : World -> Status value -> Prop :=
| reached_first w h :
    sent w = sent w0 ++ [Auth.call url options h] ->
    location w = location w0 ->
    reached url options w0 w (Waiting (after_first url options h))
| reached_token w h rt :
    sent w = sent w0 ++ [Auth.call url options h; refresh_request rt] ->
    location w = location w0 ->
    reached url options w0 w (Waiting (after_token url options h))
| reached_retry w h rt h2 :
    sent w = sent w0 ++ [Auth.call url options h; refresh_request rt;
                         Auth.call url options h2] ->
    location w = location w0 ->
    reached url options w0 w (Waiting after_retry)
| reached_done w l r :
    sent w = sent w0 ++ l -> gateway_trace url options l ->
    reached url options w0 w (Done r).

Definition waiting {A} (st : Status A) : bool :=
  match st with
  | Waiting _ => true
  | Done _ => false
  end.

(** The error [Auth.request] throws for a response that is not ok: it is
    built from the body alone. *)
Definition failure_of (body : option value) : exn :=
  match body with
  | Some v =>
      match get v "detail" with
      | Some detail => Error (to_string (or_else detail (VStr "Request failed")))
      | None => Native TypeError
      end
  | None => Error "Request failed"
  end.

(** The URL [ApiClient.request] calls for an endpoint. *)
Definition endpoint_url (endpoint : string) : string :=
  if starts_with "http" endpoint then endpoint else API_BASE_URL +:+ endpoint.

(** What follows the [fetch] of handleCallback. *)
Definition after_callback : Response -> Proc unit :=
  fun x => try_catch (response <- answer x ;; SSOCallbackPage.complete response)
             SSOCallbackPage.failed.

Definition apply_if (c : bool) (a : action) (w : World) : World :=
  if c then apply a w else w.

(** The client's state once handleCallback has stored the session the
    backend returned in [data]. *)
Definition logged_in (data : value) (w : World) : World :=
  let user := opt_get data "user" in
  let tenant := opt_get user "tenant" in
  let refresh_token := opt_get data "refresh_token" in
  let welcome := if truthy (opt_get data "invitation_accepted")
                 then "Welcome! Your account has been activated."
                 else "Welcome back!" in
  apply (Navigate "/admin/tenants"
           (VObj [("state",
                   VObj [("message", or_else (opt_get data "message") (VStr welcome));
                         ("type", VStr "success")])]))
    (apply_if (truthy user)
       (SetItem "user" (default "undefined" (JSON_stringify user)))
       (apply_if (truthy tenant)
          (SetItem "current_tenant" (AuthProvider.tenantInfo tenant tenant))
          (apply_if (truthy refresh_token)
             (SetItem "refresh_token" (to_string refresh_token))
             (apply (SetItem "access_token" (to_string (opt_get data "access_token")))
                (apply (SetStatus "Login successful! Redirecting...") w))))).

(** A [state] parameter that is absent, empty, not base64 or not JSON. *)
Definition undecodable (state : option string) : Prop :=
  match state with
  | None => True
  | Some s =>
      s = "" \/ atob s = None
      \/ exists binary, atob s = Some binary /\ JSON_parse (of_latin1 binary) = None
  end.

(** The client's state after the [finally] block of logout. *)
Definition logged_out (w : World) : World :=
  apply (SetUser VNull)
    (apply (SetRefreshToken VNull)
       (apply (SetToken VNull)
          (apply (RemoveItem "refresh_token")
             (apply (RemoveItem "access_token") w)))).

(** The strings the decoders cannot read: no second dot-separated
    segment; a second segment that is not base64, or whose bytes are not
    UTF-8, or whose text is not JSON, or is the JSON [null]. *)
Inductive malformed (s : string) : Prop :=
| no_segment :
    split_on "." s !! 1%nat = None -> malformed s
| bad_base64 seg :
    split_on "." s !! 1%nat = Some seg ->
    atob (base64_of seg) = None -> malformed s
| bad_utf8 seg binary :
    split_on "." s !! 1%nat = Some seg ->
    atob (base64_of seg) = Some binary ->
    decodeURIComponent (percent_encoded binary) = None -> malformed s
| bad_json seg binary text :
    split_on "." s !! 1%nat = Some seg ->
    atob (base64_of seg) = Some binary ->
    decodeURIComponent (percent_encoded binary) = Some text ->
    JSON_parse text = None \/ JSON_parse text = Some VNull -> malformed s.

(** An invitation as the server holds it; the pages see its token only. *)
Record Invitation : Type := mkInvitation {
  inv_token : string;
  inv_tenant : string
}.

(** A token the identity provider could issue for subject [u1] with no
    tenant and no roles: its payload is [{"sub":"u1"}]. *)
Definition bare_token : string := "h.eyJzdWIiOiJ1MSJ9.s".

(** Its payload with a tenant and a role:
    [{"sub":"u1","tenant":"acme","realm_access":{"roles":["ADMIN"]}}]. *)
Definition acme_token : string :=
  "h.eyJzdWIiOiJ1MSIsInRlbmFudCI6ImFjbWUiLCJyZWFsbV9hY2Nlc3MiOnsicm9sZXMiOlsiQURNSU4iXX19.s".


(** A credential for tenant [globex]: payload
    [{"sub":"u1","tenant":"globex"}]. *)
Definition globex_token : string := "h.eyJzdWIiOiJ1MSIsInRlbmFudCI6Imdsb2JleCJ9.s".

(** A store holding a session. *)
Definition session_store : gmap string string :=
  <["access_token" := "A0"]> (<["refresh_token" := "R0"]> ∅).

(** A resource of the API, and the provider's answers to a refreshGrant. *)
Definition agents_url : string := "http://localhost:8000/api/v1/agents".

Definition granted : Response :=
  Resp 200 (Some (VObj [("access_token", VStr acme_token);
                        ("refresh_token", VStr "R1")])).

Definition invalid_grant : Response :=
  Resp 400 (Some (VObj [("error", VStr "invalid_grant")])).

(** The page the invitation link opens, and the callback it leads to. *)
Definition origin : string := "http://localhost:3000".

Definition acme_invitation : Invitation := mkInvitation "T1" "acme".

(** A callback with authorization code [c1] and the given [state]. *)
Definition callback (state : option string) : SSOCallbackPage.Params :=
  SSOCallbackPage.mkParams (Some "c1") state None None.

(** The [state] handleSsoLogin sends for the invitation token [T1]:
    base64 of [{"invitation_token":"T1","return_url":"http://localhost:3000"}]. *)
Definition sent_state : string :=
  "eyJpbnZpdGF0aW9uX3Rva2VuIjoiVDEiLCJyZXR1cm5fdXJsIjoiaHR0cDovL2xvY2FsaG9zdDozMDAwIn0=".

(** A [state] nobody sent: base64 of [{"invitation_token":"FORGED"}]. *)
Definition forged_state : string := "eyJpbnZpdGF0aW9uX3Rva2VuIjoiRk9SR0VEIn0=".

(** Bodies of the backend's response to the callback: a credential of
    tenant [acme] beside a user of tenant [evil]; a credential and a user
    of tenant [globex]; a credential alone. *)
Definition evil_session : value :=
  VObj [("access_token", VStr acme_token);
        ("user", VObj [("tenant", VStr "evil")])].

Definition globex_session : value :=
  VObj [("access_token", VStr globex_token);
        ("user", VObj [("tenant", VStr "globex")]);
        ("invitation_accepted", VBool true)].

Definition plain_session : value := VObj [("access_token", VStr acme_token)].

(** The entry of the store for a tenant slug. *)
Definition tenant_entry (slug : string) : string :=
  AuthProvider.tenantInfo (VStr slug) (VStr slug).

(** Tokens of two and of four segments around the payload [{"sub":"u1"}]. *)
Definition two_segments : string := "h.eyJzdWIiOiJ1MSJ9".
Definition four_segments : string := "h.eyJzdWIiOiJ1MSJ9.s.x".

(** What login receives for a credential without a tenant claim. *)
Definition bare_grant : Response :=
  Resp 200 (Some (VObj [("access_token", VStr bare_token);
                        ("refresh_token", VStr "R1")])).

(** Two calls in flight: both are answered 401; the provider grants the
    renewal of the first and refuses the renewal of the second; the retry
    of the first succeeds. *)
Definition race : list (nat * Response) :=
  [(0%nat, Resp 401 None); (1%nat, Resp 401 None);
   (0%nat, granted); (1%nat, invalid_grant);
   (0%nat, Resp 200 (Some (VArr [])))].


(* ====================================================================== *)
(** ** Inputs whose conversions are modelled exactly *)
(* ====================================================================== *)

(** The values whose conversion to a string ([localStorage.setItem], a
    template literal, [join]) is the text [to_string] gives: [undefined],
    [null], booleans and strings.  The conversion of the platform throws
    for an object that has a [toString] property of its own (a JSON value
    is not callable), and prints a number as the double it was read as;
    the theorems about stored or sent text keep to plain values. *)
Definition plain (v : value) : bool :=
  match v with
  | VUndefined | VNull | VBool _ | VStr _ => true
  | _ => false
  end.

(** A value the code converts only when it is truthy. *)
Definition plain_if_set (v : value) : bool := negb (truthy v) || plain v.

(** A string [encodeURIComponent] accepts: one without a lone surrogate,
    which is well-formed UTF-8 here. *)
Definition encodable (s : string) : bool := utf8_ok 0 0 0 (codes s).

(** An invitation token lines 70-72 of SSOCallbackPage.jsx can put into
    the URL: none (any falsy value), or a string that can be encoded. *)
Definition sendable (v : value) : bool :=
  match v with
  | VStr s => encodable s
  | _ => negb (truthy v)
  end.

(** A callback whose URL for the backend can be built (lines 68-72 do not
    throw). *)
Definition builds_url (q : SSOCallbackPage.Params) : bool :=
  encodable (default "" (SSOCallbackPage.p_code q))
  && sendable (SSOCallbackPage.invitation_token_of (SSOCallbackPage.p_state q)).

(** A body whose credentials handleCallback can store (lines 102-105): the
    access credential is plain, and so is the refresh credential when
    there is one. *)
Definition storable_session (data : value) : bool :=
  plain (opt_get data "access_token")
  && plain_if_set (opt_get data "refresh_token").

(** A token response whose credentials login, refreshAccessToken and the
    gateway can store: both are plain. *)
Definition storable_grant (data : value) : bool :=
  plain (opt_get data "access_token") && plain (opt_get data "refresh_token").

(** A plain value that [JSON.stringify] writes as [JSON_stringify] does: a
    string among them is well-formed text. *)
Definition plain_text (v : value) : bool :=
  match v with
  | VStr s => encodable s
  | _ => plain v
  end.

(** A token response the gateway can take as it is (auth.jsx, 761-779):
    its credentials can be stored, and the tenant slug decoded from the
    new access credential, which becomes a header of the retry, is plain
    when there is one. *)
Definition renewable (data : value) : bool :=
  storable_grant data && plain_if_set (opt_get (renewed_claims data) "tenant_slug").

(** An answer that, were it the answer to a refresh grant, the gateway
    could take as it is. *)
Definition plain_answer (x : Response) : bool :=
  match x with
  | Resp status (Some data) => negb (ok status) || renewable data
  | _ => true
  end.

(** The tenant binding of the store gives the gateways a slug that can be
    a header: none, a boolean or a string. *)
Definition sendable_tenant (w : World) : bool :=
  plain_if_set (opt_get (Auth.stored_tenant (storage w !! "current_tenant")) "slug").

(* ====================================================================== *)
(** ** What a request carries under a header name *)
(* ====================================================================== *)






(* ====================================================================== *)
(** ** Several gateway calls *)
(* ====================================================================== *)

(** Calls of [Auth.request], each with its URL and options. *)
Definition gateway_calls (calls : list (string * Options)) : list (Proc value) :=
  map (fun c => Auth.request c.1 c.2) calls.

(** The answers a schedule holds for call [i], in their order. *)
Definition answers_for (i : nat) (sched : list (nat * Response)) : list Response :=
  map snd (List.filter (fun d => Nat.eqb d.1 i) sched).

(** A call of [Auth.request] to some URL other than the token endpoint. *)
Definition tracked_call (st : Status value) (f : bool) : Prop :=
  exists url options,
    String.eqb url token_endpoint = false /\ tracked url options st f.

(* ====================================================================== *)
(** ** Further code: outcomes of the session functions and the gateways,
       the earlier AcceptInvitationPage, roles and the route guard
       (auth.jsx), the interceptor of api/agentBuilderAPI.js,
       LoginPage.jsx, fetchInvitationDetails *)
(* ====================================================================== *)

(** Code that, whenever it completes, returns [v]: no path throws. *)
Inductive always_returns {A : Type} (v : A) : Proc A -> Prop :=
| returns_ret : always_returns v (Ret v)
| returns_get k c :
    (forall x, always_returns v (c x)) -> always_returns v (GetItem k c)
| returns_do a n : always_returns v n -> always_returns v (Do a n)
| returns_fetch r c :
    (forall x, always_returns v (c x)) -> always_returns v (Fetch r c).

(** The request login sends to the identity provider. *)
Definition login_request (email password : string) : Request :=
  form_post token_endpoint
    [("client_id", KEYCLOAK_CONFIG.clientId);
     ("grant_type", "password");
     ("username", email);
     ("password", password)].

(** The message login reports for an answer that is not a grant. *)
Definition login_failure (x : Response) : string :=
  match x with
  | Rejected => message (Native NetworkFailure)
  | Resp _ None => message (Native SyntaxError)
  | Resp _ (Some error) =>
      match get error "error_description" with
      | Some d => to_string (or_else d (VStr "Login failed"))
      | None => message (Native TypeError)
      end
  end.

(** The request fetchUserProfile sends. *)
Definition profile_request (accessToken : value) : Request :=
  mkRequest (API_BASE_URL +:+ "/api/v1/users/me") None
    [("Authorization", "Bearer " +:+ to_string accessToken);
     ("Content-Type", "application/json")] None.

(** An answer of the identity provider that grants credentials: an ok
    response whose body is JSON other than [null]. *)
Definition grants (x : Response) : bool :=
  match x with
  | Resp status (Some data) =>
      ok status && match get data "access_token" with Some _ => true | None => false end
  | _ => false
  end.

(** The claims AuthProvider decodes from a credential. *)
Definition provider_claims (accessToken : value) : value :=
  match AuthProvider.decodeTokenPayload accessToken with
  | Returned v => v
  | Raised _ => VNull
  end.

(** Code that, whenever it completes, returns: no path throws. *)
Inductive never_throws {A : Type} : Proc A -> Prop :=
| quiet_ret v : never_throws (Ret v)
| quiet_get k c : (forall x, never_throws (c x)) -> never_throws (GetItem k c)
| quiet_do a n : never_throws n -> never_throws (Do a n)
| quiet_fetch r c : (forall x, never_throws (c x)) -> never_throws (Fetch r c).

(** The error handleCallback throws before it sends anything: the
    provider's error, or the missing code. *)
Definition early_error (q : SSOCallbackPage.Params) : option string :=
  if present (SSOCallbackPage.p_error q)
  then Some (SSOCallbackPage.first_present (SSOCallbackPage.p_error_description q)
               (SSOCallbackPage.p_error q))
  else if negb (present (SSOCallbackPage.p_code q))
       then Some "No authorization code received from SSO provider"
       else None.

(** The message of the error handleCallback throws for an answer of the
    backend that does not establish a session; [None] for one that does. *)
Definition callback_failure (x : Response) : option string :=
  match x with
  | Rejected => Some (message (Native NetworkFailure))
  | Resp status body =>
      if ok status then
        match body with
        | None => Some (message (Native SyntaxError))
        | Some data =>
            match get data "access_token" with
            | Some _ => None
            | None => Some (message (Native TypeError))
            end
        end
      else
        match get (default (VObj []) body) "detail" with
        | Some detail =>
            Some (to_string
                    (or_else detail
                       (VStr ("Authentication failed (" +:+ pretty status +:+ ")"))))
        | None => Some (message (Native TypeError))
        end
  end.

(** An answer of the backend that handleCallback can take as it is: the
    credentials of an ok answer go into the store as they are, and the
    detail of a failed one, if it has any, is a boolean or a string. *)
Definition storable_answer (x : Response) : bool :=
  match x with
  | Resp status (Some data) =>
      if ok status then storable_session data
      else plain_if_set (opt_get data "detail")
  | _ => true
  end.

(** [msg || d]. *)
Definition shown (msg d : string) : string :=
  if String.eqb msg "" then d else msg.

(** The client's state after the [catch] block of handleCallback. *)
Definition callback_failed (msg : string) (w : World) : World :=
  apply (Navigate "/login"
           (VObj [("state",
                   VObj [("error",
                          VStr (shown msg "Authentication failed. Please try again."))])]))
    (apply (SetError (VStr (shown msg "Authentication failed"))) w).

(** The JSON body of an answer, when it has one. *)
Definition body_of (x : Response) : value :=
  match x with
  | Resp _ (Some v) => v
  | _ => VUndefined
  end.

(** How [Auth.request] ends on the answer to its last request: the body
    of an ok answer, or the error thrown. *)
Definition settled (x : Response) : Result value :=
  match x with
  | Rejected => Raised (Native NetworkFailure)
  | Resp status body =>
      if ok status then
        match body with
        | Some v => Returned v
        | None => Raised (Native SyntaxError)
        end
      else Raised (failure_of body)
  end.



(** The headers [ApiClient.request] builds (utils/apiClient.js, 35-44). *)
Definition client_headers (options : Options) (accessToken tenantString : option string)
  : headers :=
  let h := spread [("Content-Type", "application/json");
                   ("Authorization", "Bearer " +:+ default "" accessToken)]
             (opt_headers options) in
  let slug := opt_get (Auth.stored_tenant tenantString) "slug" in
  if truthy slug then set_header "X-Tenant-ID" (to_string slug) h else h.



(** The characters [JSON.stringify] writes between the quotes of a
    string. *)
Definition quoted (s : string) : list ascii := concat (map quote_char (codes s)).

(** The six-bit values [btoa] writes, before padding. *)
Fixpoint b64_sextets (bs : list N) : list N :=
  match bs with
  | [] => []
  | [a] => [a / 4; a mod 4 * 16]%N
  | [a; b] => [a / 4; a mod 4 * 16 + b / 16; b mod 16 * 4]%N
  | a :: b :: c :: rest =>
      (a / 4 :: a mod 4 * 16 + b / 16 :: b mod 16 * 4 + c / 64 :: c mod 64
         :: b64_sextets rest)%N
  end.

Definition octets (bs : list N) : Prop := Forall (fun b => (b < 256)%N) bs.

(** The padding [btoa] appends. *)
Fixpoint b64_pad (bs : list N) : list ascii :=
  match bs with
  | [] => []
  | [_] => ["="%char; "="%char]
  | [_; _] => ["="%char]
  | _ :: _ :: _ :: rest => b64_pad rest
  end.

(** Text of ASCII characters only. *)
Definition ascii_only (s : string) : bool := forallb (fun n => (n <? 128)%N) (codes s).

(** The earlier revision of the AcceptInvitationPage, whose
    handleSsoLogin sends the state as percent-encoded JSON text:
    [encodeURIComponent(JSON.stringify({ invitation_token }))]. *)
Module AcceptInvitationPage_first.

Definition state_text (invitationToken : value) : string :=
  default "undefined" (JSON_stringify (VObj [("invitation_token", invitationToken)])).

Definition handleSsoLogin (invitationToken : value) (origin : string) (provider : value)
  : Proc unit :=
  let redirectUri := encodeURIComponent (origin +:+ "/auth/callback") in
  let state := encodeURIComponent (state_text invitationToken) in
  let authUrl :=
    "http://localhost:8080/realms/agentic/protocol/openid-connect/auth?"
      +:+ "client_id=agentic-api&"
      +:+ "redirect_uri=" +:+ redirectUri +:+ "&"
      +:+ "response_type=code&"
      +:+ "scope=openid email profile&"
      +:+ "state=" +:+ state in
  let alias := opt_get provider "alias" in
  let authUrl := if truthy provider && truthy alias
                 then authUrl +:+ "&kc_idp_hint=" +:+ to_string alias
                 else authUrl in
  act (SetLocation authUrl).

End AcceptInvitationPage_first.

(** What [searchParams.get('token')] gives the page: [null], or
    well-formed text. *)
Definition token_param (v : value) : bool :=
  match v with
  | VNull => true
  | VStr t => encodable t
  | _ => false
  end.

(** The alias handleSsoLogin appends as the provider hint, when it
    appends one, is a boolean or a string. *)
Definition plain_alias (provider : value) : bool :=
  negb (truthy provider && truthy (opt_get provider "alias"))
  || plain (opt_get provider "alias").

(** *** Roles and the route guard (auth.jsx, 397-409 and 436-529) *)

(** [s.includes(p)] on strings. *)
Fixpoint includes_str (p s : string) : bool :=
  String.prefix p s
  || match s with
     | EmptyString => false
     | String _ rest => includes_str p rest
     end.

(** [v.includes(role)]: membership for an array, containment for a
    string; any other value has no such method. *)
Definition includes (v : value) (role : string) : Result bool :=
  match v with
  | VArr xs =>
      Returned (existsb (fun x => match x with
                                  | VStr s => String.eqb s role
                                  | _ => false
                                  end) xs)
  | VStr s => Returned (includes_str role s)
  | _ => Raised (Native TypeError)
  end.

Definition hasRole (user : value) (role : string) : Result bool :=
  let userRoles := or_else (opt_get user "roles") (VArr []) in
  includes userRoles role.

Definition adminRoles : list string :=
  ["ADMIN"; "SUPER_ADMIN"; "admin"; "super_admin"; "realm-admin"].

(** [roles.some(f)]: stops at the first role [f] accepts. *)
Fixpoint some (f : string -> Result bool) (roles : list string) : Result bool :=
  match roles with
  | [] => Returned false
  | role :: rest =>
      (let! found := f role in
       if found then Returned true else some f rest)%result
  end.

Definition isAdmin (user : value) : Result bool := some (hasRole user) adminRoles.

(** What ProtectedRoute renders. *)
Inductive View : Type :=
| Spinner
| Nothing
| AccessDenied (roles : string)
| Children.

(** [user?.roles?.join(', ') || 'None'], the roles line of the Access
    Denied card. *)
Definition roles_line (user : value) : Result string :=
  match opt_get user "roles" with
  | VUndefined | VNull => Returned "None"
  | VArr xs =>
      let line := join ", " (map (fun x => match x with
                                           | VUndefined | VNull => ""
                                           | _ => to_string x
                                           end) xs) in
      Returned (if String.eqb line "" then "None" else line)
  | _ => Raised (Native TypeError)
  end.

Definition ProtectedRoute (user : value) (loading requireAdmin : bool) : Result View :=
  if loading then Returned Spinner
  else if negb (truthy user) then Returned Nothing
  else if requireAdmin then
    (let! admin := isAdmin user in
     if admin then Returned Children
     else let! line := roles_line user in Returned (AccessDenied line))%result
  else Returned Children.

(** *** api/agentBuilderAPI.js: the request interceptor of the axios
    client *)

Module agentBuilderAPI.

(** [a || b] on what [getItem] returns. *)
Definition first_of (a b : option string) : option string :=
  if present a then a else b.

(** The tenant claim of the fallback:
    [JSON.parse(atob(token.split('.')[1])).tenant_id], when truthy.  A
    missing segment reaches [atob] as [undefined]. *)
Definition token_tenant (token : string) : Result (option value) :=
  (let segment := default "undefined" (split_on "." token !! 1%nat) in
   let! binary := or_raise InvalidCharacter (atob segment) in
   let! payload := or_raise SyntaxError (JSON_parse (of_latin1 binary)) in
   let! tenant_id := prop payload "tenant_id" in
   Returned (if truthy tenant_id then Some tenant_id else None))%result.

(** The request interceptor: the values it assigns to
    [config.headers.Authorization] and [config.headers['X-Tenant-ID']],
    [None] for a header it leaves alone.  [local] is localStorage,
    [session] is sessionStorage. *)
Definition interceptor (local session : gmap string string)
  : Result (option string * option value) :=
  let token := local !! "access_token" in
  let authorization :=
    if present token then Some ("Bearer " +:+ default "" token) else None in
  let tenantId :=
    first_of (first_of (first_of (local !! "current_tenant") (local !! "tenant_id"))
                (session !! "tenantId"))
      (session !! "tenant_id") in
  if present tenantId then
    (let! tenantjson := or_raise SyntaxError (JSON_parse (default "" tenantId)) in
     let! tenant_slug := prop tenantjson "slug" in
     Returned (authorization, Some tenant_slug))%result
  else
    Returned (authorization,
              if present token then
                match token_tenant (default "" token) with
                | Returned o => o
                | Raised _ => None
                end
              else None).

End agentBuilderAPI.

(** *** How many requests a call can send *)

(** Code that suspends at most [n] times: no path holds more than [n]
    fetches. *)
Fixpoint within {A : Type} (n : nat) (p : Proc A) : Prop :=
  match p with
  | Ret _ | Throw _ => True
  | GetItem _ c => forall x, within n (c x)
  | Do _ q => within n q
  | Fetch _ c =>
      match n with
      | O => False
      | S m => forall x, within m (c x)
      end
  end.

(** The same, for code no path of which throws. *)
Fixpoint quietly {A : Type} (n : nat) (p : Proc A) : Prop :=
  match p with
  | Ret _ => True
  | Throw _ => False
  | GetItem _ c => forall x, quietly n (c x)
  | Do _ q => quietly n q
  | Fetch _ c =>
      match n with
      | O => False
      | S m => forall x, quietly m (c x)
      end
  end.

(** A call that is over once [n] answers have arrived, and has sent at
    most [n] requests whenever one looks. *)
Definition bounded {A : Type} (n : nat) (p : Proc A) : Prop :=
  forall (answers : list Response) (w : World),
    ((n <= List.length answers)%nat -> exists r, (run p answers w).2 = Done r)
    /\ (List.length (sent (run p answers w).1) <= List.length (sent w) + n)%nat.

(** *** Calls that are started and not awaited *)

(** [f(...)] without [await], for an async [f]: the call runs up to its
    first request, which is sent, and the caller goes on in the world the
    call leaves there; what is left of the call goes on when the answer
    to its request comes. *)
Definition start_call {A : Type} (p : Proc A) (w : World) : World * Status A :=
  advance p w.

(** A started call, as the answers to its requests arrive. *)
Definition go_on {A : Type} (answers : list Response) (c : World * Status A)
  : World * Status A :=
  fold_left resume answers c.

(** *** LoginPage.jsx *)

Module LoginPage.

(** The state of the form: [error] and [loading]. *)
Record Form : Type := mkForm {
  form_error : value;
  form_loading : bool
}.

(** The [try] block of login (auth.jsx, 176-233) up to the call of
    fetchUserProfile; it yields [data.access_token]. *)
Definition login_try (email password : string) : Proc value :=
  response <- fetch (login_request email password) ;;
  if negb (ok response.1) then
    error <- json response.2 ;;
    error_description <- lift (prop error "error_description") ;;
    Throw (Error (to_string (or_else error_description (VStr "Login failed"))))
  else
    data <- json response.2 ;;
    access_token <- lift (prop data "access_token") ;;
    setItem "access_token" (to_string access_token) ;;
    refresh_token <- lift (prop data "refresh_token") ;;
    setItem "refresh_token" (to_string refresh_token) ;;
    act (SetToken access_token) ;;
    act (SetRefreshToken refresh_token) ;;
    decodedUser <- lift (AuthProvider.decodeTokenPayload access_token) ;;
    (if truthy decodedUser then
       act (SetUser decodedUser) ;;
       let tenant := opt_get decodedUser "tenant" in
       if truthy tenant
       then setItem "current_tenant"
              (AuthProvider.tenantInfo tenant (or_else tenant (VStr "Default Tenant")))
       else Ret tt
     else Ret tt) ;;
    Ret access_token.

(** login (auth.jsx, 173-245) as the caller that awaits it sees it, on
    the answer [x] to its request: the world it returns in, the value it
    returns, and the call of fetchUserProfile it has started (line 236)
    and does not wait for.  (The last case does not occur: the [try]
    block sends one request.) *)
Definition awaited_login (email password : string) (x : Response) (w : World)
  : World * value * option (Status unit) :=
  match resume (advance (login_try email password) w) x with
  | (w, Done (Returned access_token)) =>
      let c := start_call (try_catch (AuthProvider.fetchUserProfile access_token)
                             (fun _ => Ret tt)) w in
      (c.1, VObj [("success", VBool true)], Some c.2)
  | (w, Done (Raised error)) =>
      (w, VObj [("success", VBool false); ("error", VStr (message error))], None)
  | (w, Waiting _) => (w, VUndefined, None)
  end.

(** handleSubmit (LoginPage.jsx, 11-24), on the answer [x] to the request
    of login: the world and the state of the form it leaves, and the
    call that login has left running. *)
Definition handleSubmit (email password : string) (x : Response) (w : World)
  : World * Form * option (Status unit) :=
  let '(w, result, profile) := awaited_login email password x w in
  if truthy (opt_get result "success")
  then (apply (SetLocation "/") w, mkForm (VStr "") true, profile)
  else (w, mkForm (or_else (opt_get result "error") (VStr "Login failed")) false,
        profile).

End LoginPage.

(** An answer to the request of login that login can take as it is: the
    credentials of a grant go into the store as they are, and the
    description of a refusal, if it has one, is a boolean or a string. *)
Definition plain_login_answer (x : Response) : bool :=
  match x with
  | Resp status (Some data) =>
      if ok status then storable_grant data
      else plain_if_set (opt_get data "error_description")
  | _ => true
  end.

(** *** AcceptInvitationPage: loading the invitation *)

Module InvitationDetails.

(** The state of the page the function writes: [loading], [invitation]
    and [error]. *)
Record Page : Type := mkPage {
  pg_loading : bool;
  pg_invitation : value;
  pg_error : value
}.

Definition details_request (invitationToken : string) : Request :=
  mkRequest ("http://127.0.0.1:8000/api/v1/auth/invitation/" +:+ invitationToken)
    None [] None.

(** fetchInvitationDetails of the revision that calls the backend; it
    returns the state it leaves the page in.  The [setLoading(true)] of
    its first line is overwritten on every path. *)
Definition fetchInvitationDetails (invitationToken : string) (pg : Page) : Proc Page :=
  try_catch
    (response <- fetch (details_request invitationToken) ;;
     if negb (ok response.1) then
       if response.1 =? 404 then Throw (Error "Invitation not found or has expired")
       else if response.1 =? 410
       then Throw (Error "This invitation has already been accepted")
       else Throw (Error "Failed to load invitation details")
     else
       data <- json response.2 ;;
       Ret (mkPage false data (pg_error pg)))
    (fun err =>
       Ret (mkPage false (pg_invitation pg)
              (VStr (if String.eqb (message err) ""
                     then "Failed to load invitation details"
                     else message err)))).

(** The message the page shows for an answer that brings no
    invitation. *)
Definition refusal (x : Response) : string :=
  match x with
  | Rejected => message (Native NetworkFailure)
  | Resp status body =>
      if ok status then message (Native SyntaxError)
      else if status =? 404 then "Invitation not found or has expired"
      else if status =? 410 then "This invitation has already been accepted"
      else "Failed to load invitation details"
  end.

End InvitationDetails.

(** *** AuthProvider: the effect run on mount (auth.jsx, 21-33) *)

(** The effect is synchronous: it returns the world it leaves and the
    call of fetchUserProfile it has started, if any. *)
Definition mount (w : World) : World * option (Status unit) :=
  let storedToken := storage w !! "access_token" in
  let storedRefresh := storage w !! "refresh_token" in
  if present storedToken && present storedRefresh then
    let w := apply (SetToken (VStr (default "" storedToken))) w in
    let w := apply (SetRefreshToken (VStr (default "" storedRefresh))) w in
    let c := start_call (AuthProvider.fetchUserProfile (VStr (default "" storedToken))) w in
    (c.1, Some c.2)
  else (apply (SetLoading false) w, None).

(** *** Headers objects *)



(* ====================================================================== *)
(** ** The credential codec *)
(* ====================================================================== *)

Example bare_token_payload :
  token_payload (VStr bare_token) = Returned (VObj [("sub", VStr "u1")]).
Proof. vm_compute. reflexivity. Qed.

Example globex_token_payload :
  token_payload (VStr globex_token)
  = Returned (VObj [("sub", VStr "u1"); ("tenant", VStr "globex")]).
Proof. vm_compute. reflexivity. Qed.

Example acme_token_payload :
  token_payload (VStr acme_token)
  = Returned (VObj [("sub", VStr "u1"); ("tenant", VStr "acme");
                    ("realm_access", VObj [("roles", VArr [VStr "ADMIN"])])]).
Proof. vm_compute. reflexivity. Qed.

(** Only the second dot-separated segment of a token is read. *)
Lemma token_payload_second_segment (s s' : string) :
  split_on "." s !! 1%nat = split_on "." s' !! 1%nat ->
  token_payload (VStr s) = token_payload (VStr s').
Proof.
  intros H. unfold token_payload. simpl. rewrite H. reflexivity.
Qed.

Lemma token_payload_not_string (token : value) :
  (forall s, token <> VStr s) -> token_payload token = Raised (Native TypeError).
Proof.
  intros H. destruct token; try reflexivity. exfalso. eapply H. reflexivity.
Qed.

Lemma token_payload_no_segment (s : string) :
  split_on "." s !! 1%nat = None ->
  token_payload (VStr s) = Raised (Native TypeError).
Proof. intros H. unfold token_payload. simpl. rewrite H. reflexivity. Qed.

Lemma token_payload_bad_base64 (s seg : string) :
  split_on "." s !! 1%nat = Some seg ->
  atob (base64_of seg) = None ->
  token_payload (VStr s) = Raised (Native InvalidCharacter).
Proof.
  intros H1 H2. unfold token_payload. simpl. rewrite H1. simpl.
  rewrite H2. reflexivity.
Qed.

(** Both decoders return, whatever they are given: the [catch] turns
    every fault into [null]. *)
Lemma AuthProvider_decode_returns (token : value) :
  exists v, AuthProvider.decodeTokenPayload token = Returned v
            /\ (v = VNull \/ exists fs, v = VObj fs).
Proof.
  unfold AuthProvider.decodeTokenPayload.
  destruct (token_payload token) as [payload|e]; simpl; [|eauto].
  destruct (prop payload "sub"); simpl; [|eauto].
  destruct (prop payload "email"); simpl; [|eauto].
  destruct (prop payload "preferred_username"); simpl; [|eauto].
  destruct (prop payload "name"); simpl; [|eauto].
  destruct (prop payload "realm_access"); simpl; [|eauto].
  destruct (prop payload "tenant"); simpl; eauto.
Qed.

Lemma Auth_decode_returns (token : value) :
  exists v, Auth.decodeTokenPayload token = Returned v
            /\ (v = VNull \/ exists fs, v = VObj fs).
Proof.
  unfold Auth.decodeTokenPayload.
  destruct (token_payload token) as [payload|e]; simpl; [|eauto].
  destruct (prop payload "sub"); simpl; [|eauto].
  destruct (prop payload "email"); simpl; [|eauto].
  destruct (prop payload "preferred_username"); simpl; [|eauto].
  destruct (prop payload "name"); simpl; [|eauto].
  destruct (prop payload "realm_access"); simpl; [|eauto].
  destruct (prop payload "tenant"); simpl; [|eauto].
  destruct (prop payload "tenant_name"); simpl; eauto.
Qed.

Lemma decode_null_on_fault (token : value) (e : exn) :
  token_payload token = Raised e ->
  AuthProvider.decodeTokenPayload token = Returned VNull
  /\ Auth.decodeTokenPayload token = Returned VNull.
Proof.
  intros H. unfold AuthProvider.decodeTokenPayload, Auth.decodeTokenPayload.
  rewrite H. split; reflexivity.
Qed.

(** What the decoders return for a payload that is an object. *)
Lemma AuthProvider_decode_object (token : value) (fs : list (string * value)) :
  token_payload token = Returned (VObj fs) ->
  let field k := default VUndefined (lookup_field k fs) in
  AuthProvider.decodeTokenPayload token
  = Returned (VObj [("id", field "sub");
                    ("email", or_else (field "email") (field "preferred_username"));
                    ("name", or_else (field "name") (field "preferred_username"));
                    ("username", field "preferred_username");
                    ("roles", or_else (opt_get (field "realm_access") "roles") (VArr []));
                    ("tenant", or_else (field "tenant") (VStr " "))]).
Proof.
  intros H. unfold AuthProvider.decodeTokenPayload. rewrite H. reflexivity.
Qed.

Lemma Auth_decode_object (token : value) (fs : list (string * value)) :
  token_payload token = Returned (VObj fs) ->
  let field k := default VUndefined (lookup_field k fs) in
  Auth.decodeTokenPayload token
  = Returned (VObj [("id", field "sub");
                    ("email", or_else (field "email") (field "preferred_username"));
                    ("name", or_else (field "name") (field "preferred_username"));
                    ("username", field "preferred_username");
                    ("roles", or_else (opt_get (field "realm_access") "roles") (VArr []));
                    ("tenant_slug", field "tenant");
                    ("tenant_name", field "tenant_name")]).
Proof.
  intros H. unfold Auth.decodeTokenPayload. rewrite H. reflexivity.
Qed.

(** A payload without [realm_access] gives the empty role list, in both
    decoders; without [tenant], the module-level decoder leaves the
    tenant undefined. *)
Lemma decode_defaults (token : value) (fs : list (string * value)) :
  token_payload token = Returned (VObj fs) ->
  lookup_field "realm_access" fs = None ->
  lookup_field "tenant" fs = None ->
  exists u u',
    AuthProvider.decodeTokenPayload token = Returned u
    /\ Auth.decodeTokenPayload token = Returned u'
    /\ get u "roles" = Some (VArr [])
    /\ get u' "roles" = Some (VArr [])
    /\ get u' "tenant_slug" = Some VUndefined
    /\ get u "tenant" = Some (VStr " ").
Proof.
  intros H Hr Ht.
  rewrite (AuthProvider_decode_object _ _ H), (Auth_decode_object _ _ H).
  simpl. rewrite Hr, Ht. simpl.
  eexists. eexists. repeat split; reflexivity.
Qed.

Lemma malformed_payload (s : string) :
  malformed s ->
  (exists e, token_payload (VStr s) = Raised e)
  \/ token_payload (VStr s) = Returned VNull.
Proof.
  intros [H|seg H1 H2|seg b H1 H2 H3|seg b t H1 H2 H3 [H4|H4]];
    unfold token_payload; simpl; rewrite H1 || rewrite H; simpl;
    try (left; eexists; reflexivity);
    rewrite H2; simpl; try (left; eexists; reflexivity);
    rewrite H3; simpl; try (left; eexists; reflexivity);
    rewrite H4; simpl; [left; eexists; reflexivity|right; reflexivity].
Qed.

Lemma decode_null_on_null (token : value) :
  token_payload token = Returned VNull ->
  AuthProvider.decodeTokenPayload token = Returned VNull
  /\ Auth.decodeTokenPayload token = Returned VNull.
Proof.
  intros H. unfold AuthProvider.decodeTokenPayload, Auth.decodeTokenPayload.
  rewrite H. split; reflexivity.
Qed.

(** C8 (as amended): both decoders return for every input, [null] or a
    claims object, and never throw; they return [null] for every
    malformed string.  Segments are not counted: only the second one is
    read, so strings that agree on it decode alike. *)
Theorem decode_never_throws (token : value) :
  (exists v, AuthProvider.decodeTokenPayload token = Returned v
             /\ (v = VNull \/ exists fs, v = VObj fs))
  /\ (exists v, Auth.decodeTokenPayload token = Returned v
                /\ (v = VNull \/ exists fs, v = VObj fs))
  /\ (forall s, token = VStr s -> malformed s ->
        AuthProvider.decodeTokenPayload token = Returned VNull
        /\ Auth.decodeTokenPayload token = Returned VNull)
  /\ (forall s s', token = VStr s ->
        split_on "." s !! 1%nat = split_on "." s' !! 1%nat ->
        AuthProvider.decodeTokenPayload (VStr s') = AuthProvider.decodeTokenPayload token
        /\ Auth.decodeTokenPayload (VStr s') = Auth.decodeTokenPayload token).
Proof.
  split; [apply AuthProvider_decode_returns|].
  split; [apply Auth_decode_returns|]. split.
  - intros s -> M. destruct (malformed_payload s M) as [[e H]|H].
    + apply (decode_null_on_fault _ e H).
    + apply (decode_null_on_null _ H).
  - intros s s' -> H.
    unfold AuthProvider.decodeTokenPayload, Auth.decodeTokenPayload.
    rewrite (token_payload_second_segment s s' H). split; reflexivity.
Qed.

Lemma decode_never_throws_witness :
  AuthProvider.decodeTokenPayload (VStr "not-a-token") = Returned VNull
  /\ Auth.decodeTokenPayload (VStr "not-a-token") = Returned VNull.
Proof.
  apply (proj1 (proj2 (proj2 (decode_never_throws (VStr "not-a-token"))))
           "not-a-token" eq_refl).
  apply no_segment. reflexivity.
Defined.

(** C8, counterexample: a string of two segments, and one of four, are
    not well-formed credentials, yet both decoders read claims from
    them. *)
Lemma wrong_segment_count_decodes :
  length (split_on "." two_segments) = 2%nat
  /\ length (split_on "." four_segments) = 4%nat
  /\ AuthProvider.decodeTokenPayload (VStr two_segments)
     = AuthProvider.decodeTokenPayload (VStr bare_token)
  /\ AuthProvider.decodeTokenPayload (VStr four_segments)
     = AuthProvider.decodeTokenPayload (VStr bare_token)
  /\ Auth.decodeTokenPayload (VStr two_segments)
     = Auth.decodeTokenPayload (VStr bare_token)
  /\ get (renewed_claims (VObj [("access_token", VStr two_segments)])) "id"
     = Some (VStr "u1")
  /\ AuthProvider.decodeTokenPayload (VStr two_segments) <> Returned VNull.
Proof. vm_compute. repeat split; try reflexivity. discriminate. Qed.

(** C7, at the failing input: a credential whose payload is
    [{"sub":"u1"}], with neither roles nor tenant.  Both decoders return
    the empty role list.  The module-level decoder leaves the tenant
    undefined; the decoder of AuthProvider returns the one-space string,
    which is truthy, so login stores it as the tenant binding and the
    gateway sends it as the tenant header. *)
Theorem missing_tenant_decodes_to_a_space :
  let r := run (AuthProvider.login "alice" "secret")
               [bare_grant; Resp 200 (Some (VObj []))] (fresh ∅) in
  AuthProvider.decodeTokenPayload (VStr bare_token)
  = Returned (VObj [("id", VStr "u1"); ("email", VUndefined); ("name", VUndefined);
                    ("username", VUndefined); ("roles", VArr []);
                    ("tenant", VStr " ")])
  /\ Auth.decodeTokenPayload (VStr bare_token)
     = Returned (VObj [("id", VStr "u1"); ("email", VUndefined); ("name", VUndefined);
                       ("username", VUndefined); ("roles", VArr []);
                       ("tenant_slug", VUndefined); ("tenant_name", VUndefined)])
  /\ truthy (VStr " ") = true
  /\ storage r.1 !! "current_tenant" = Some (tenant_entry " ")
  /\ map (fun q => header "X-Tenant-ID" (req_headers q))
         (sent (run (Auth.request agents_url no_options) [] (fresh (storage r.1))).1)
     = [Some " "].
Proof. vm_compute. repeat split; reflexivity. Qed.

(* ====================================================================== *)
(** ** The gateway of auth.jsx, step by step *)
(* ====================================================================== *)

Lemma advance_request (url : string) (options : Options) (w : World) :
  advance (Auth.request url options) w
  = (dispatch (Auth.call url options
                 (Auth.first_headers options (storage w !! "access_token")
                    (storage w !! "current_tenant"))) w,
     Waiting (after_first url options
                (Auth.first_headers options (storage w !! "access_token")
                   (storage w !! "current_tenant")))).
Proof. reflexivity. Qed.

(** The tail of a call touches nothing and completes. *)
Lemma advance_settle (response : Z * option value) (w : World) :
  exists res, advance (Auth.settle response) w = (w, Done res).
Proof.
  unfold Auth.settle. destruct response as [status body]. simpl.
  destruct (ok status); simpl.
  - destruct body; simpl; eauto.
  - destruct body as [v|]; simpl.
    + destruct (prop v "detail"); simpl; eauto.
    + eauto.
Qed.

Lemma resume_first (url : string) (options : Options) (h : headers)
    (w : World) (x : Response) :
  resume (w, Waiting (after_first url options h)) x
  = match x with
    | Rejected => (w, Done (Raised (Native NetworkFailure)))
    | Resp status body =>
        if status =? 401 then
          if present (storage w !! "refresh_token")
          then (dispatch (refresh_request (default "" (storage w !! "refresh_token"))) w,
                Waiting (after_token url options h))
          else (apply (SetLocation "/login") w, Done (Raised (Error "Unauthorized")))
        else advance (Auth.settle (status, body)) w
    end.
Proof.
  destruct x as [status body|]; [|reflexivity].
  unfold resume, after_first. simpl.
  destruct (status =? 401); [|reflexivity].
  simpl. destruct (present (storage w !! "refresh_token")); reflexivity.
Qed.

Lemma resume_token_rejected (url : string) (options : Options) (h : headers)
    (w : World) :
  resume (w, Waiting (after_token url options h)) Rejected
  = (w, Done (Raised (Native NetworkFailure))).
Proof. reflexivity. Qed.

(** A renewal the provider refuses: the browser is sent to the login
    page and the call throws; the store is not touched. *)
Lemma resume_token_refused (url : string) (options : Options) (h : headers)
    (w : World) (status : Z) (body : option value) :
  ok status = false ->
  resume (w, Waiting (after_token url options h)) (Resp status body)
  = (apply (SetLocation "/login") w, Done (Raised (Error "Unauthorized"))).
Proof.
  intros H. unfold resume, after_token, Auth.renewed. simpl. rewrite H. reflexivity.
Qed.

Lemma resume_token_no_body (url : string) (options : Options) (h : headers)
    (w : World) (status : Z) :
  ok status = true ->
  resume (w, Waiting (after_token url options h)) (Resp status None)
  = (w, Done (Raised (Native SyntaxError))).
Proof.
  intros H. unfold resume, after_token, Auth.renewed. simpl. rewrite H. reflexivity.
Qed.

Lemma resume_token_null_body (url : string) (options : Options) (h : headers)
    (w : World) (status : Z) (data : value) :
  ok status = true -> get data "access_token" = None ->
  resume (w, Waiting (after_token url options h)) (Resp status (Some data))
  = (w, Done (Raised (Native TypeError))).
Proof.
  intros H Hd. unfold resume, after_token, Auth.renewed, prop. simpl.
  rewrite H. simpl. rewrite Hd. reflexivity.
Qed.

Lemma get_opt_get (v x : value) (k : string) :
  get v k = Some x -> opt_get v k = x.
Proof. destruct v; simpl; intros H; try discriminate; congruence. Qed.

Lemma get_some_all (v x : value) (k k' : string) :
  get v k = Some x -> get v k' = Some (opt_get v k').
Proof. destruct v; simpl; intros H; try discriminate; reflexivity. Qed.

(** A renewal the provider grants: the store takes the new credentials
    and the tenant of the new access credential, and the call is retried
    once with the rebuilt headers. *)
Lemma resume_token_granted (url : string) (options : Options) (h : headers)
    (w : World) (status : Z) (data x : value) :
  ok status = true -> get data "access_token" = Some x ->
  resume (w, Waiting (after_token url options h)) (Resp status (Some data))
  = (dispatch (Auth.call url options (renewed_headers h data))
       (with_storage (renewed_store (storage w) data) w),
     Waiting after_retry).
Proof.
  intros H Hd.
  pose proof (get_opt_get _ _ _ Hd) as Ha.
  pose proof (get_some_all _ _ _ "refresh_token" Hd) as Hr.
  unfold resume, after_token, Auth.renewed, prop. simpl.
  rewrite H. simpl. rewrite Hd, Hr. simpl.
  unfold renewed_headers, renewed_store, renewed_claims. rewrite Ha.
  destruct (Auth_decode_returns x) as (v & Hv & _). rewrite Hv. simpl.
  destruct (truthy (opt_get v "tenant_slug")); destruct w; reflexivity.
Qed.

Lemma resume_retry (w : World) (x : Response) :
  exists res, resume (w, Waiting after_retry) x = (w, Done res).
Proof.
  destruct x as [status body|].
  - unfold resume, after_retry. simpl. apply advance_settle.
  - eexists. reflexivity.
Qed.

Lemma settle_not_ok (status : Z) (body : option value) (w : World) :
  ok status = false ->
  advance (Auth.settle (status, body)) w = (w, Done (Raised (failure_of body))).
Proof.
  intros H. unfold Auth.settle, failure_of, prop. simpl. rewrite H. simpl.
  destruct body as [v|]; simpl; [|reflexivity].
  destruct (get v "detail"); reflexivity.
Qed.

Lemma resume_retry_401 (w : World) (body : option value) :
  resume (w, Waiting after_retry) (Resp 401 body)
  = (w, Done (Raised (failure_of body))).
Proof. unfold resume, after_retry. simpl. apply settle_not_ok. reflexivity. Qed.

Lemma resume_waiting {A} (w : World) (k : Response -> Proc A) (x : Response) :
  resume (w, Waiting k) x = advance (k x) w.
Proof. reflexivity. Qed.

(** A completed call stays completed. *)
Lemma run_done {A} (answers : list Response) (w : World) (r : Result A) :
  fold_left resume answers (w, Done r) = (w, Done r).
Proof. induction answers as [|x xs IH]; simpl; [reflexivity|apply IH]. Qed.

Lemma run_snoc {A} (p : Proc A) (answers : list Response) (x : Response) (w : World) :
  run p (answers ++ [x]) w = resume (run p answers w) x.
Proof. unfold run. rewrite fold_left_app. reflexivity. Qed.

Lemma sent_dispatch (r : Request) (w : World) : sent (dispatch r w) = sent w ++ [r].
Proof. reflexivity. Qed.

Lemma location_dispatch (r : Request) (w : World) :
  location (dispatch r w) = location w.
Proof. reflexivity. Qed.

Lemma storage_dispatch (r : Request) (w : World) :
  storage (dispatch r w) = storage w.
Proof. reflexivity. Qed.

Section Gateway.

Variables (url : string) (options : Options).

Lemma reached_start (w0 : World) :
  reached url options w0 (advance (Auth.request url options) w0).1
    (advance (Auth.request url options) w0).2.
Proof. rewrite advance_request. simpl. eapply reached_first; reflexivity. Qed.

Lemma reached_step (w0 w : World) (st : Status value) (x : Response) :
  reached url options w0 w st ->
  reached url options w0 (resume (w, st) x).1 (resume (w, st) x).2.
Proof.
  intros R. destruct R as [w h Hs Hl|w h rt Hs Hl|w h rt h2 Hs Hl|w l r Hs Hl].
  - rewrite resume_first. destruct x as [status body|].
    + destruct (status =? 401).
      * destruct (present (storage w !! "refresh_token")); simpl.
        -- eapply reached_token; [|exact Hl].
           rewrite sent_dispatch, Hs, <- app_assoc. reflexivity.
        -- eapply reached_done; [exact Hs|constructor].
      * destruct (advance_settle (status, body) w) as [res ->]. simpl.
        eapply reached_done; [exact Hs|constructor].
    + simpl. eapply reached_done; [exact Hs|constructor].
  - destruct x as [status body|].
    + destruct (ok status) eqn:Hok.
      * destruct body as [data|].
        -- destruct (get data "access_token") as [a|] eqn:Ha.
           ++ rewrite (resume_token_granted _ _ _ _ _ _ _ Hok Ha). simpl.
              eapply reached_retry; [|exact Hl].
              rewrite sent_dispatch. simpl. rewrite Hs, <- app_assoc. reflexivity.
           ++ rewrite (resume_token_null_body _ _ _ _ _ _ Hok Ha). simpl.
              eapply reached_done; [exact Hs|constructor].
        -- rewrite (resume_token_no_body _ _ _ _ _ Hok). simpl.
           eapply reached_done; [exact Hs|constructor].
      * rewrite (resume_token_refused _ _ _ _ _ _ Hok). simpl.
        eapply reached_done; [exact Hs|constructor].
    + rewrite resume_token_rejected. simpl.
      eapply reached_done; [exact Hs|constructor].
  - destruct (resume_retry w x) as [res ->]. simpl.
    eapply reached_done; [exact Hs|constructor].
  - simpl. eapply reached_done; [exact Hs|exact Hl].
Qed.

Lemma reached_run (answers : list Response) (w0 : World) :
  reached url options w0 (run (Auth.request url options) answers w0).1
    (run (Auth.request url options) answers w0).2.
Proof.
  induction answers as [|x xs IH] using rev_ind.
  - apply reached_start.
  - rewrite run_snoc.
    destruct (run (Auth.request url options) xs w0) as [w st].
    apply reached_step. exact IH.
Qed.

Lemma reached_trace (w0 w : World) (st : Status value) :
  reached url options w0 w st ->
  exists l, sent w = sent w0 ++ l /\ gateway_trace url options l.
Proof.
  intros R. destruct R; eexists; (split; [eassumption|]); try constructor.
  assumption.
Qed.

End Gateway.

(* ====================================================================== *)
(** ** The gateway of utils/apiClient.js *)
(* ====================================================================== *)

Lemma api_client_no_token (endpoint : string) (options : Options) (w : World) :
  present (storage w !! "access_token") = false ->
  advance (ApiClient.request endpoint options) w
  = (w, Done (Raised (Error "No authentication token found. Please login."))).
Proof.
  intros H. unfold ApiClient.request. simpl. rewrite H. reflexivity.
Qed.

(** With a token, one request is sent, and whatever comes back the call
    completes without a second one. *)
Lemma api_client_single_attempt (endpoint : string) (options : Options) (w : World) :
  present (storage w !! "access_token") = true ->
  exists h k,
    advance (ApiClient.request endpoint options) w
    = (dispatch (Auth.call (endpoint_url endpoint) options h) w, Waiting k)
    /\ forall w' x, exists res,
         (resume (w', Waiting k) x).2 = Done res
         /\ sent (resume (w', Waiting k) x).1 = sent w'.
Proof.
  intros H. unfold ApiClient.request. simpl. rewrite H. simpl.
  eexists. eexists. split; [reflexivity|].
  intros w' x. unfold resume. simpl.
  destruct x as [status body|]; simpl; [|eauto].
  destruct (ok status); simpl.
  - destruct body; simpl; eauto.
  - destruct body as [v|]; simpl.
    + destruct (status =? 401); simpl; [eauto|].
      unfold prop. destruct (get v "detail"); simpl; eauto.
    + destruct (status =? 401); simpl; eauto.
Qed.

Lemma api_client_trace (endpoint : string) (options : Options)
    (answers : list Response) (w : World) :
  sent (run (ApiClient.request endpoint options) answers w).1 = sent w
  \/ exists h, sent (run (ApiClient.request endpoint options) answers w).1
               = sent w ++ [Auth.call (endpoint_url endpoint) options h].
Proof.
  destruct (present (storage w !! "access_token")) eqn:H.
  - right. destruct (api_client_single_attempt endpoint options w H) as (h & k & Ha & Hk).
    exists h. unfold run. rewrite Ha.
    destruct answers as [|x xs]; [reflexivity|]. simpl fold_left.
    destruct (Hk (dispatch (Auth.call (endpoint_url endpoint) options h) w) x)
      as (res & Hd & Hs).
    destruct (resume _ x) as [w1 st1]. simpl in Hd, Hs. subst st1.
    rewrite run_done. simpl. rewrite Hs. reflexivity.
  - left. unfold run. rewrite (api_client_no_token _ _ _ H).
    rewrite run_done. reflexivity.
Qed.

(* ====================================================================== *)
(** ** Renew once, retry once *)
(* ====================================================================== *)

(** C2 (as amended): whatever the network answers, one call of either
    gateway sends the request, then at most one refreshGrant, then at most
    one retry, and nothing more (the gateway of utils/apiClient.js sends at
    most the request).  When the retry of [Auth.request] is answered 401,
    nothing further happens to the client's state and the call throws the
    error every failed response gets, built from the body. *)
Theorem gateway_renews_once_retries_once
    (url : string) (options : Options) (answers : list Response) (w : World) :
  (exists l, sent (run (Auth.request url options) answers w).1 = sent w ++ l
             /\ gateway_trace url options l)
  /\ (sent (run (ApiClient.request url options) answers w).1 = sent w
      \/ exists h, sent (run (ApiClient.request url options) answers w).1
                   = sent w ++ [Auth.call (endpoint_url url) options h])
  /\ (forall body,
        waiting (run (Auth.request url options) answers w).2 = true ->
        length (sent (run (Auth.request url options) answers w).1)
        = (length (sent w) + 3)%nat ->
        run (Auth.request url options) (answers ++ [Resp 401 body]) w
        = ((run (Auth.request url options) answers w).1,
           Done (Raised (failure_of body)))
        /\ location (run (Auth.request url options) answers w).1 = location w).
Proof.
  split; [|split].
  - eapply reached_trace. apply reached_run.
  - apply api_client_trace.
  - intros body Hw Hn. rewrite run_snoc.
    pose proof (reached_run url options answers w) as R.
    destruct (run (Auth.request url options) answers w) as [w1 st1].
    simpl in *.
    destruct R as [w1 h Hs Hl|w1 h rt Hs Hl|w1 h rt h2 Hs Hl|w1 l r Hs Hl].
    + rewrite Hs, length_app in Hn. simpl in Hn. lia.
    + rewrite Hs, length_app in Hn. simpl in Hn. lia.
    + split; [apply resume_retry_401|exact Hl].
    + discriminate Hw.
Qed.

Lemma gateway_renews_once_retries_once_witness :
  run (Auth.request agents_url no_options)
      ([Resp 401 None; granted] ++ [Resp 401 None]) (fresh session_store)
  = ((run (Auth.request agents_url no_options) [Resp 401 None; granted]
          (fresh session_store)).1,
     Done (Raised (failure_of None)))
  /\ location (run (Auth.request agents_url no_options) [Resp 401 None; granted]
                   (fresh session_store)).1
     = location (fresh session_store).
Proof.
  apply (proj2 (proj2 (gateway_renews_once_retries_once agents_url no_options
                         [Resp 401 None; granted] (fresh session_store))) None).
  - vm_compute. reflexivity.
  - vm_compute. reflexivity.
Defined.

(** C2, counterexample: the request is answered 401, the renewal is
    granted, the retry is answered 401 again.  Three requests were sent;
    the call throws "Request failed", exactly as for a retry answered 500;
    the browser is not sent to the login page and the renewed credentials
    stay in the store. *)
Lemma retried_401_is_a_plain_failure :
  let r := run (Auth.request agents_url no_options)
               [Resp 401 None; granted; Resp 401 None] (fresh session_store) in
  let r500 := run (Auth.request agents_url no_options)
                  [Resp 401 None; granted; Resp 500 None] (fresh session_store) in
  length (sent r.1) = 3%nat
  /\ r.2 = Done (Raised (Error "Request failed"))
  /\ r500.2 = r.2
  /\ location r.1 = None
  /\ storage r.1 !! "access_token" = Some acme_token
  /\ storage r.1 !! "refresh_token" = Some "R1"
  /\ ~ session_expired r.1 r.2.
Proof.
  vm_compute. repeat split; try reflexivity.
  intros [H _]. discriminate H.
Qed.

(* ====================================================================== *)
(** ** A renewal that fails *)
(* ====================================================================== *)

(** In [Auth.request], a renewal the provider refuses sends the browser to
    the login page and throws, after the one refreshGrant; the store keeps
    what it held. *)
Lemma gateway_refused_renewal (url : string) (options : Options) (w : World)
    (b1 body : option value) (status : Z) :
  present (storage w !! "refresh_token") = true ->
  ok status = false ->
  exists h,
    run (Auth.request url options) [Resp 401 b1; Resp status body] w
    = (apply (SetLocation "/login")
         (dispatch (refresh_request (default "" (storage w !! "refresh_token")))
            (dispatch (Auth.call url options h) w)),
       Done (Raised (Error "Unauthorized"))).
Proof.
  intros Hp Hok. eexists. unfold run. rewrite advance_request. simpl fold_left.
  rewrite resume_first. simpl. rewrite Hp.
  rewrite (resume_token_refused _ _ _ _ _ _ Hok). reflexivity.
Qed.

(** logout removes both credentials, after its request to the provider
    (sent when a refresh credential is stored) has been answered, whatever
    the answer. *)
Lemma logout_clears {A} (a : A) (w : World) :
  if present (storage w !! "refresh_token")
  then exists k,
         advance (AuthProvider.logout ;; Ret a) w
         = (dispatch (AuthProvider.logout_request (default "" (storage w !! "refresh_token"))) w,
            Waiting k)
         /\ forall w' x, advance (k x) w' = (logged_out w', Done (Returned a))
  else advance (AuthProvider.logout ;; Ret a) w = (logged_out w, Done (Returned a)).
Proof.
  unfold AuthProvider.logout. simpl.
  destruct (present (storage w !! "refresh_token")); simpl; [|reflexivity].
  eexists. split; [reflexivity|].
  intros w' x. destruct x; reflexivity.
Qed.

Lemma logged_out_store (w : World) :
  storage (logged_out w) !! "access_token" = None
  /\ storage (logged_out w) !! "refresh_token" = None
  /\ sent (logged_out w) = sent w.
Proof.
  simpl. repeat split.
  - rewrite lookup_delete_ne by discriminate. apply lookup_delete_eq.
  - apply lookup_delete_eq.
Qed.

(** In refreshAccessToken, a renewal the provider refuses ends in logout:
    both credentials are removed, and no second refreshGrant is sent. *)
Lemma refreshAccessToken_refused_clears (w : World) (status : Z)
    (body : option value) (x : Response) :
  present (storage w !! "refresh_token") = true ->
  ok status = false ->
  let r := run AuthProvider.refreshAccessToken [Resp status body; x] w in
  r.2 = Done (Returned VNull)
  /\ storage r.1 !! "access_token" = None
  /\ storage r.1 !! "refresh_token" = None
  /\ renewals r.1 = (renewals w + 1)%nat.
Proof.
  intros Hp Hok.
  assert (H1 : exists k,
             advance AuthProvider.refreshAccessToken w
             = (dispatch (refresh_request (default "" (storage w !! "refresh_token"))) w,
                Waiting k)
             /\ forall w', advance (k (Resp status body)) w'
                           = advance (AuthProvider.logout ;; Ret VNull) w').
  { unfold AuthProvider.refreshAccessToken. simpl. rewrite Hp. simpl.
    eexists. split; [reflexivity|].
    intros w'. simpl. rewrite Hok. reflexivity. }
  destruct H1 as (k & Ha & Hk).
  set (w1 := dispatch (refresh_request (default "" (storage w !! "refresh_token"))) w) in *.
  assert (Hr : renewals w1 = (renewals w + 1)%nat).
  { unfold renewals, w1. rewrite sent_dispatch, List.filter_app, length_app.
    reflexivity. }
  pose proof (logout_clears VNull w1) as L.
  replace (present (storage w1 !! "refresh_token")) with true in L
    by (symmetry; exact Hp).
  destruct L as (k2 & Hl & Hk2).
  unfold run. rewrite Ha. simpl fold_left.
  rewrite (resume_waiting w1 k), Hk, Hl, resume_waiting, Hk2. simpl.
  repeat split.
  - rewrite lookup_delete_ne by discriminate. apply lookup_delete_eq.
  - apply lookup_delete_eq.
  - unfold renewals in *. simpl. rewrite List.filter_app, length_app. simpl.
    simpl in Hr. rewrite Hr. lia.
Qed.

(** C6, at the failing input: the session store holds both credentials,
    the API answers 401 and the provider answers the refreshGrant with
    [invalid_grant].  [Auth.request] sends the one refreshGrant, sends the
    browser to the login page and throws "Unauthorized", and both
    credentials are still in the store.  refreshAccessToken, given the
    same answer, removes them. *)
Theorem gateway_failed_renewal_keeps_session :
  let r := run (Auth.request agents_url no_options) [Resp 401 None; invalid_grant]
               (fresh session_store) in
  let r' := run AuthProvider.refreshAccessToken [invalid_grant; Resp 204 None]
                (fresh session_store) in
  r.2 = Done (Raised (Error "Unauthorized"))
  /\ location r.1 = Some "/login"
  /\ renewals r.1 = 1%nat
  /\ storage r.1 !! "access_token" = Some "A0"
  /\ storage r.1 !! "refresh_token" = Some "R0"
  /\ storage r'.1 !! "access_token" = None
  /\ storage r'.1 !! "refresh_token" = None.
Proof. vm_compute. repeat split; reflexivity. Qed.

(* ====================================================================== *)
(** ** The SSO callback *)
(* ====================================================================== *)

Section Callback.

Import SSOCallbackPage.

(** With a code and no error parameter, the handler sends its request to
    the backend, whatever the [state] parameter is and whatever the client
    holds. *)
Lemma handleCallback_dispatch (q : Params) (w : World) (code : string) :
  p_code q = Some code -> code <> "" -> present (p_error q) = false ->
  advance (handleCallback q) w
  = (dispatch (callback_request code (invitation_token_of (p_state q)))
       (apply (SetStatus "Exchanging authorization code for access token...") w),
     Waiting after_callback).
Proof.
  intros Hc Hn He. unfold handleCallback. rewrite He, Hc. simpl.
  destruct (String.eqb_spec code ""); [contradiction|]. reflexivity.
Qed.

(** An ok response with a body that is not [null]: the session is stored
    and the handler completes. *)
Lemma after_callback_ok (w : World) (status : Z) (data a : value) :
  ok status = true -> get data "access_token" = Some a ->
  advance (after_callback (Resp status (Some data))) w
  = (logged_in data w, Done (Returned tt)).
Proof.
  intros Hok Ha. pose proof (get_opt_get _ _ _ Ha) as Ho.
  unfold after_callback, complete, logged_in, apply_if, prop. simpl.
  rewrite Hok. simpl. rewrite Ha, Ho. simpl.
  destruct (truthy (opt_get data "refresh_token"));
    destruct (truthy (opt_get (opt_get data "user") "tenant"));
    destruct (truthy (opt_get data "user")); reflexivity.
Qed.

Lemma logged_in_page (data : value) (w : World) :
  page_error (logged_in data w) = page_error w
  /\ sent (logged_in data w) = sent w
  /\ location (logged_in data w) = location w
  /\ exists st, navigations (logged_in data w)
                = navigations w ++ [("/admin/tenants", st)].
Proof.
  unfold logged_in, apply_if.
  destruct (truthy (opt_get data "refresh_token"));
    destruct (truthy (opt_get (opt_get data "user") "tenant"));
    destruct (truthy (opt_get data "user")); simpl; eauto 10.
Qed.

Lemma logged_in_access_token (data : value) (w : World) :
  storage (logged_in data w) !! "access_token"
  = Some (to_string (opt_get data "access_token")).
Proof.
  unfold logged_in, apply_if.
  destruct (truthy (opt_get data "refresh_token"));
    destruct (truthy (opt_get (opt_get data "user") "tenant"));
    destruct (truthy (opt_get data "user")); simpl;
    repeat (rewrite lookup_insert_ne by discriminate);
    apply lookup_insert_eq.
Qed.


Lemma invitation_token_undecodable (state : option string) :
  undecodable state -> invitation_token_of state = VNull.
Proof.
  unfold undecodable, invitation_token_of.
  destruct state as [s|]; [|reflexivity].
  intros [->|[H|(b & H1 & H2)]].
  - reflexivity.
  - destruct (present (Some s)); [|reflexivity]. rewrite H. reflexivity.
  - destruct (present (Some s)); [|reflexivity]. rewrite H1. simpl.
    rewrite H2. reflexivity.
Qed.

(** The whole run of the handler on an ok response. *)
Lemma handleCallback_ok (q : Params) (w : World) (code : string)
    (status : Z) (data a : value) :
  p_code q = Some code -> code <> "" -> present (p_error q) = false ->
  ok status = true -> get data "access_token" = Some a ->
  run (handleCallback q) [Resp status (Some data)] w
  = (logged_in data
       (dispatch (callback_request code (invitation_token_of (p_state q)))
          (apply (SetStatus "Exchanging authorization code for access token...") w)),
     Done (Returned tt)).
Proof.
  intros Hc Hn He Hok Ha. unfold run.
  rewrite (handleCallback_dispatch _ _ _ Hc Hn He). simpl fold_left.
  rewrite resume_waiting. apply (after_callback_ok _ _ _ _ Hok Ha).
Qed.

End Callback.

(* ====================================================================== *)
(** ** Where the tenant binding comes from *)
(* ====================================================================== *)

(** C1, at the failing input: the backend answers the callback with a
    credential whose tenant claim is [acme] and a [user.tenant] of [evil].
    handleCallback stores the tenant of the body, [evil], as
    [current_tenant]; login, given the same credential, stores [acme],
    the tenant it decodes from the credential. *)
Theorem sso_callback_stores_tenant_of_response_body :
  let r := run (SSOCallbackPage.handleCallback (callback None))
               [Resp 200 (Some evil_session)] (fresh ∅) in
  let r' := run (AuthProvider.login "alice" "secret")
                [Resp 200 (Some evil_session); Resp 200 (Some (VObj []))] (fresh ∅) in
  r.2 = Done (Returned tt)
  /\ storage r.1 !! "access_token" = Some acme_token
  /\ get (renewed_claims evil_session) "tenant_slug" = Some (VStr "acme")
  /\ storage r.1 !! "current_tenant" = Some (tenant_entry "evil")
  /\ storage r'.1 !! "access_token" = Some acme_token
  /\ storage r'.1 !! "current_tenant" = Some (tenant_entry "acme").
Proof. vm_compute. repeat split; reflexivity. Qed.

(* ====================================================================== *)
(** ** The invitation handshake *)
(* ====================================================================== *)

(** handleSsoLogin leaves the store as it was: nothing of the state it
    sends is kept for the return. *)
Lemma handleSsoLogin_keeps_nothing (invitationToken provider : value)
    (org : string) (w : World) :
  storage (advance (AcceptInvitationPage.handleSsoLogin invitationToken org provider) w).1
  = storage w
  /\ sent (advance (AcceptInvitationPage.handleSsoLogin invitationToken org provider) w).1
     = sent w.
Proof.
  unfold AcceptInvitationPage.handleSsoLogin.
  destruct (AcceptInvitationPage.build_state invitationToken org); simpl;
    split; reflexivity.
Qed.

(** The handler reads its [state] parameter through the invitation token
    alone. *)
Lemma handleCallback_state (q : SSOCallbackPage.Params) (state : option string) :
  SSOCallbackPage.invitation_token_of (SSOCallbackPage.p_state q)
  = SSOCallbackPage.invitation_token_of state ->
  SSOCallbackPage.handleCallback q
  = SSOCallbackPage.handleCallback
      (SSOCallbackPage.mkParams (SSOCallbackPage.p_code q) state
         (SSOCallbackPage.p_error q) (SSOCallbackPage.p_error_description q)).
Proof.
  intros H. destruct q as [c s e ed]. simpl in *.
  unfold SSOCallbackPage.handleCallback. simpl. rewrite H. reflexivity.
Qed.

(** C4 (as amended): handleSsoLogin keeps no record of the state it
    sends, and handleCallback compares the state it receives with
    nothing: any state that decodes to the same invitation token is
    handled in the same way.  With a code and no error parameter, and a
    state whose invitation token is absent or well-formed text, it sends
    the code to the backend with that token, and an ok response that
    carries a session whose credentials can be stored as they are
    completes the login: the credential is stored, no error is shown and
    the user is sent on to the application. *)
Theorem callback_accepts_any_state
    (q : SSOCallbackPage.Params) (w : World) (code org : string)
    (invitationToken provider : value) :
  SSOCallbackPage.p_code q = Some code -> code <> "" ->
  present (SSOCallbackPage.p_error q) = false ->
  builds_url q = true ->
  storage (advance (AcceptInvitationPage.handleSsoLogin invitationToken org provider) w).1
  = storage w
  /\ (forall state,
        SSOCallbackPage.invitation_token_of state
        = SSOCallbackPage.invitation_token_of (SSOCallbackPage.p_state q) ->
        SSOCallbackPage.handleCallback
          (SSOCallbackPage.mkParams (SSOCallbackPage.p_code q) state
             (SSOCallbackPage.p_error q) (SSOCallbackPage.p_error_description q))
        = SSOCallbackPage.handleCallback q)
  /\ advance (SSOCallbackPage.handleCallback q) w
     = (dispatch (SSOCallbackPage.callback_request code
                    (SSOCallbackPage.invitation_token_of (SSOCallbackPage.p_state q)))
          (apply (SetStatus "Exchanging authorization code for access token...") w),
        Waiting after_callback)
  /\ forall status data a,
       ok status = true -> get data "access_token" = Some a ->
       storable_session data = true ->
       let r := run (SSOCallbackPage.handleCallback q) [Resp status (Some data)] w in
       r.2 = Done (Returned tt)
       /\ page_error r.1 = page_error w
       /\ storage r.1 !! "access_token" = Some (to_string a)
       /\ exists st, navigations r.1 = navigations w ++ [("/admin/tenants", st)].
Proof.
  intros Hc Hn He Hb. split; [|split; [|split]].
  - apply handleSsoLogin_keeps_nothing.
  - intros state Hs. symmetry. apply handleCallback_state. symmetry. exact Hs.
  - apply (handleCallback_dispatch _ _ _ Hc Hn He).
  - intros status data a Hok Ha Hd. cbv zeta.
    rewrite (handleCallback_ok _ _ _ _ _ _ Hc Hn He Hok Ha). cbn [fst snd].
    set (w1 := dispatch _ _).
    destruct (logged_in_page data w1) as (Hp & _ & _ & st & Hnav).
    split; [reflexivity|]. split; [exact Hp|]. split.
    + rewrite logged_in_access_token, (get_opt_get _ _ _ Ha). reflexivity.
    + exists st. exact Hnav.
Qed.

Lemma callback_accepts_any_state_witness :
  let q := callback (Some forged_state) in
  storage (advance (AcceptInvitationPage.handleSsoLogin (VStr "T1") origin VNull)
             (fresh ∅)).1 = storage (fresh ∅)
  /\ (forall state,
        SSOCallbackPage.invitation_token_of state
        = SSOCallbackPage.invitation_token_of (SSOCallbackPage.p_state q) ->
        SSOCallbackPage.handleCallback
          (SSOCallbackPage.mkParams (SSOCallbackPage.p_code q) state
             (SSOCallbackPage.p_error q) (SSOCallbackPage.p_error_description q))
        = SSOCallbackPage.handleCallback q)
  /\ advance (SSOCallbackPage.handleCallback q) (fresh ∅)
     = (dispatch (SSOCallbackPage.callback_request "c1"
                    (SSOCallbackPage.invitation_token_of (SSOCallbackPage.p_state q)))
          (apply (SetStatus "Exchanging authorization code for access token...")
             (fresh ∅)),
        Waiting after_callback)
  /\ forall status data a,
       ok status = true -> get data "access_token" = Some a ->
       storable_session data = true ->
       let r := run (SSOCallbackPage.handleCallback q) [Resp status (Some data)]
                    (fresh ∅) in
       r.2 = Done (Returned tt)
       /\ page_error r.1 = page_error (fresh ∅)
       /\ storage r.1 !! "access_token" = Some (to_string a)
       /\ exists st, navigations r.1 = navigations (fresh ∅) ++ [("/admin/tenants", st)].
Proof.
  apply (callback_accepts_any_state (callback (Some forged_state)) (fresh ∅)
           "c1" origin (VStr "T1") VNull).
  - reflexivity.
  - discriminate.
  - reflexivity.
  - vm_compute. reflexivity.
Defined.

(** C4, counterexample: the page sent [sent_state], which carries the
    invitation token [T1]; the callback arrives with [forged_state].  The
    handler does not reject it: it asks the backend to accept the
    invitation [FORGED] and completes the login. *)
Lemma forged_state_is_accepted :
  let r := run (SSOCallbackPage.handleCallback (callback (Some forged_state)))
               [Resp 200 (Some plain_session)] (fresh ∅) in
  AcceptInvitationPage.build_state (VStr "T1") origin = Returned sent_state
  /\ forged_state <> sent_state
  /\ map req_url (sent r.1)
     = ["/api/v1/auth/sso/callback?code=c1&invitation_token=FORGED"]
  /\ r.2 = Done (Returned tt)
  /\ page_error r.1 = VNull
  /\ storage r.1 !! "access_token" = Some acme_token.
Proof. vm_compute. repeat split; try reflexivity. discriminate. Qed.

(** C5 (as amended): the handler compares no tenant with the tenant of
    the invitation, which it does not know.  When the backend answers the
    callback of an invitation with an ok response that carries a session
    whose credentials can be stored as they are, the handshake is done
    whatever tenant the invitation names and whatever tenant the
    credential names: the credential is stored, no error is shown and the
    user is sent on to the application. *)
Theorem callback_binds_tenant_without_check
    (inv : Invitation) (q : SSOCallbackPage.Params) (w : World) (code : string)
    (status : Z) (data a : value) :
  SSOCallbackPage.p_code q = Some code -> code <> "" ->
  present (SSOCallbackPage.p_error q) = false ->
  SSOCallbackPage.invitation_token_of (SSOCallbackPage.p_state q) = VStr (inv_token inv) ->
  builds_url q = true ->
  ok status = true -> get data "access_token" = Some a ->
  storable_session data = true ->
  let r := run (SSOCallbackPage.handleCallback q) [Resp status (Some data)] w in
  r.2 = Done (Returned tt)
  /\ page_error r.1 = page_error w
  /\ (exists st, navigations r.1 = navigations w ++ [("/admin/tenants", st)])
  /\ storage r.1 !! "access_token" = Some (to_string a).
Proof.
  intros Hc Hn He Hi Hb Hok Ha Hd. simpl.
  rewrite (handleCallback_ok _ _ _ _ _ _ Hc Hn He Hok Ha). simpl fst. simpl snd.
  set (w1 := dispatch _ _).
  destruct (logged_in_page data w1) as (Hp & _ & _ & st & Hnav).
  split; [reflexivity|]. split; [exact Hp|]. split; [exists st; exact Hnav|].
  rewrite logged_in_access_token, (get_opt_get _ _ _ Ha). reflexivity.
Qed.

Lemma callback_binds_tenant_without_check_witness :
  let r := run (SSOCallbackPage.handleCallback (callback (Some sent_state)))
               [Resp 200 (Some globex_session)] (fresh ∅) in
  r.2 = Done (Returned tt)
  /\ page_error r.1 = page_error (fresh ∅)
  /\ (exists st, navigations r.1 = navigations (fresh ∅) ++ [("/admin/tenants", st)])
  /\ storage r.1 !! "access_token" = Some (to_string (VStr globex_token)).
Proof.
  apply (callback_binds_tenant_without_check acme_invitation
           (callback (Some sent_state)) (fresh ∅) "c1" 200 globex_session
           (VStr globex_token)).
  - reflexivity.
  - discriminate.
  - reflexivity.
  - vm_compute. reflexivity.
  - vm_compute. reflexivity.
  - reflexivity.
  - reflexivity.
  - reflexivity.
Defined.

(** C5, counterexample: the invitation [T1] is for tenant [acme]; the
    backend answers its callback with a credential and a user of tenant
    [globex].  The handshake does not fail: the session is stored, bound
    to [globex], and the user is sent on to the application. *)
Lemma other_tenant_is_accepted :
  let r := run (SSOCallbackPage.handleCallback (callback (Some sent_state)))
               [Resp 200 (Some globex_session)] (fresh ∅) in
  SSOCallbackPage.invitation_token_of (Some sent_state)
  = VStr (inv_token acme_invitation)
  /\ inv_tenant acme_invitation = "acme"
  /\ get (renewed_claims globex_session) "tenant_slug" = Some (VStr "globex")
  /\ r.2 = Done (Returned tt)
  /\ page_error r.1 = VNull
  /\ map fst (navigations r.1) = ["/admin/tenants"]
  /\ storage r.1 !! "access_token" = Some globex_token
  /\ storage r.1 !! "current_tenant" = Some (tenant_entry "globex").
Proof. vm_compute. repeat split; reflexivity. Qed.

Example sent_state_carries_T1 :
  SSOCallbackPage.invitation_token_of (Some sent_state) = VStr "T1".
Proof. vm_compute. reflexivity. Qed.

Example forged_state_carries_FORGED :
  SSOCallbackPage.invitation_token_of (Some forged_state) = VStr "FORGED".
Proof. vm_compute. reflexivity. Qed.

(** C10: a callback whose [state] is absent, empty, not base64 or not JSON
    is handled as the same callback without a [state].  With a code (a
    URL parameter: well-formed text) and no error parameter the handler
    sends the backend the code alone, with no invitation token; on an ok
    response that carries a session whose credentials can be stored as
    they are, the session is stored and the handler completes as for any
    login. *)
Theorem callback_without_state_is_plain_login
    (q : SSOCallbackPage.Params) (w : World) (code : string)
    (status : Z) (data a : value) :
  undecodable (SSOCallbackPage.p_state q) ->
  SSOCallbackPage.p_code q = Some code -> code <> "" -> encodable code = true ->
  present (SSOCallbackPage.p_error q) = false ->
  ok status = true -> get data "access_token" = Some a ->
  storable_session data = true ->
  let r := run (SSOCallbackPage.handleCallback q) [Resp status (Some data)] w in
  SSOCallbackPage.handleCallback q
  = SSOCallbackPage.handleCallback
      (SSOCallbackPage.mkParams (Some code) None (SSOCallbackPage.p_error q)
         (SSOCallbackPage.p_error_description q))
  /\ sent r.1
     = sent w ++ [mkRequest ("/api/v1/auth/sso/callback?code=" +:+ encodeURIComponent code)
                    (Some "POST") [("Content-Type", "application/json")] None]
  /\ r.2 = Done (Returned tt)
  /\ page_error r.1 = page_error w
  /\ storage r.1 !! "access_token" = Some (to_string a)
  /\ exists st, navigations r.1 = navigations w ++ [("/admin/tenants", st)].
Proof.
  intros Hu Hc Hn Hcode He Hok Ha Hd. simpl.
  split.
  { rewrite <- Hc. apply handleCallback_state.
    rewrite (invitation_token_undecodable _ Hu). reflexivity. }
  rewrite (handleCallback_ok _ _ _ _ _ _ Hc Hn He Hok Ha). simpl fst. simpl snd.
  rewrite (invitation_token_undecodable _ Hu).
  set (w1 := dispatch _ _).
  destruct (logged_in_page data w1) as (Hp & Hs & _ & st & Hnav).
  split; [rewrite Hs; reflexivity|]. split; [reflexivity|].
  split; [exact Hp|]. split.
  - rewrite logged_in_access_token, (get_opt_get _ _ _ Ha). reflexivity.
  - exists st. exact Hnav.
Qed.

Lemma callback_without_state_is_plain_login_witness :
  let q := callback (Some "not base64!") in
  let r := run (SSOCallbackPage.handleCallback q) [Resp 200 (Some plain_session)]
               (fresh ∅) in
  SSOCallbackPage.handleCallback q
  = SSOCallbackPage.handleCallback (SSOCallbackPage.mkParams (Some "c1") None None None)
  /\ sent r.1
     = sent (fresh ∅)
       ++ [mkRequest ("/api/v1/auth/sso/callback?code=" +:+ encodeURIComponent "c1")
             (Some "POST") [("Content-Type", "application/json")] None]
  /\ r.2 = Done (Returned tt)
  /\ page_error r.1 = page_error (fresh ∅)
  /\ storage r.1 !! "access_token" = Some (to_string (VStr acme_token))
  /\ exists st, navigations r.1 = navigations (fresh ∅) ++ [("/admin/tenants", st)].
Proof.
  apply (callback_without_state_is_plain_login (callback (Some "not base64!"))
           (fresh ∅) "c1" 200 plain_session (VStr acme_token)).
  - simpl. right. left. vm_compute. reflexivity.
  - reflexivity.
  - discriminate.
  - reflexivity.
  - reflexivity.
  - reflexivity.
  - reflexivity.
  - reflexivity.
Defined.

(* ====================================================================== *)
(** ** A call with no session *)
(* ====================================================================== *)

Lemma header_set_header_ne (k k' v : string) (h : headers) :
  String.eqb k k' = false -> header k (set_header k' v h) = header k h.
Proof.
  intros H. induction h as [|[k0 v0] rest IH]; simpl.
  - rewrite H. reflexivity.
  - destruct (String.eqb_spec k' k0) as [->|Hne]; simpl.
    + rewrite H. reflexivity.
    + rewrite IH. reflexivity.
Qed.

Lemma header_spread_none (k : string) (a b : headers) :
  header k a = None -> header k b = None -> header k (spread a b) = None.
Proof.
  unfold spread. revert a. induction b as [|[k0 v0] rest IH]; intros a Ha Hb; simpl.
  - exact Ha.
  - simpl in Hb. destruct (String.eqb k k0) eqn:E; [discriminate|].
    apply IH; [|exact Hb]. rewrite header_set_header_ne; assumption.
Qed.

(** [Auth.request] adds no bearer credential when none is stored. *)
Lemma first_headers_no_bearer (options : Options) (accessToken tenantString : option string) :
  present accessToken = false ->
  header "Authorization" (opt_headers options) = None ->
  header "Authorization" (Auth.first_headers options accessToken tenantString) = None.
Proof.
  intros Hp Ho. unfold Auth.first_headers. rewrite Hp.
  assert (H0 : header "Authorization"
                 (spread [("Content-Type", "application/json")] (opt_headers options))
               = None)
    by (apply header_spread_none; [reflexivity|exact Ho]).
  destruct (truthy _); [|exact H0].
  rewrite header_set_header_ne; [exact H0|reflexivity].
Qed.

(** C9 (as amended): with no access credential in the store, the gateway
    of utils/apiClient.js throws before any request is sent; the gateway
    of auth.jsx sends the request, without a bearer credential. *)
Theorem gateways_without_session (url : string) (options : Options) (w : World) :
  present (storage w !! "access_token") = false ->
  header "Authorization" (opt_headers options) = None ->
  advance (ApiClient.request url options) w
  = (w, Done (Raised (Error "No authentication token found. Please login.")))
  /\ exists h,
       advance (Auth.request url options) w
       = (dispatch (Auth.call url options h) w, Waiting (after_first url options h))
       /\ header "Authorization" h = None.
Proof.
  intros Hp Ho. split.
  - apply (api_client_no_token _ _ _ Hp).
  - eexists. split; [apply advance_request|].
    apply (first_headers_no_bearer _ _ _ Hp Ho).
Qed.

Lemma gateways_without_session_witness :
  advance (ApiClient.request agents_url no_options) (fresh ∅)
  = (fresh ∅, Done (Raised (Error "No authentication token found. Please login.")))
  /\ exists h,
       advance (Auth.request agents_url no_options) (fresh ∅)
       = (dispatch (Auth.call agents_url no_options h) (fresh ∅),
          Waiting (after_first agents_url no_options h))
       /\ header "Authorization" h = None.
Proof.
  apply (gateways_without_session agents_url no_options (fresh ∅)); reflexivity.
Defined.

(** C9, counterexample: nothing is stored, and [Auth.request] sends the
    request all the same, with the content type as its only header, and
    waits for the answer. *)
Lemma request_sent_without_session :
  let r := run (Auth.request agents_url no_options) [] (fresh ∅) in
  storage (fresh ∅) !! "access_token" = None
  /\ sent r.1 = [mkRequest agents_url None [("Content-Type", "application/json")] None]
  /\ waiting r.2 = true.
Proof. vm_compute. repeat split; reflexivity. Qed.

(* ====================================================================== *)
(** ** Concurrent calls *)
(* ====================================================================== *)

Lemma renewals_dispatch (r : Request) (w : World) :
  renewals (dispatch r w) = (renewals w + (if is_refresh r then 1 else 0))%nat.
Proof.
  unfold renewals. rewrite sent_dispatch, List.filter_app, length_app. simpl.
  destruct (is_refresh r); reflexivity.
Qed.

Lemma is_refresh_refresh_request (rt : string) : is_refresh (refresh_request rt) = true.
Proof. reflexivity. Qed.

Lemma is_refresh_call (url : string) (options : Options) (h : headers) :
  String.eqb url token_endpoint = false ->
  is_refresh (Auth.call url options h) = false.
Proof. intros H. unfold is_refresh. simpl. rewrite H. reflexivity. Qed.

Lemma first_answer_here (j : nat) (x : Response) (sched : list (nat * Response)) :
  first_answer j ((j, x) :: sched) = Some x.
Proof. unfold first_answer. simpl. rewrite Nat.eqb_refl. reflexivity. Qed.

Lemma first_answer_other (i j : nat) (x : Response) (sched : list (nat * Response)) :
  i <> j -> first_answer i ((j, x) :: sched) = first_answer i sched.
Proof.
  intros H. unfold first_answer. simpl.
  destruct (Nat.eqb_spec j i); [congruence|reflexivity].
Qed.

(** Delivering an answer to call [j] takes it out of the calls that wait
    for their first answer; it counted among the pending ones when it was
    waiting and the answer is a 401. *)
Lemma pending_deliver (flags : list bool) (i j : nat) (x : Response)
    (sched : list (nat * Response)) :
  pending i flags ((j, x) :: sched)
  = if decide (i <= j)%nat
    then (pending i (<[(j - i)%nat := false]> flags) sched
          + (if default false (flags !! (j - i)%nat) && is_401 (Some x)
             then 1 else 0))%nat
    else pending i flags sched.
Proof.
  revert i. induction flags as [|f fs IH]; intros i.
  - simpl. destruct (decide (i <= j)%nat); reflexivity.
  - simpl pending at 1. rewrite IH.
    destruct (decide (i <= j)%nat) as [Hle|Hgt].
    + destruct (decide (i = j)) as [->|Hne].
      * rewrite first_answer_here, Nat.sub_diag.
        destruct (decide (S j <= j)%nat); [lia|]. simpl. lia.
      * rewrite first_answer_other by assumption.
        destruct (decide (S i <= j)%nat); [|lia].
        replace (j - i)%nat with (S (j - S i)) by lia. simpl. lia.
    + rewrite first_answer_other by lia.
      destruct (decide (S i <= j)%nat); [lia|]. reflexivity.
Qed.

Lemma pending_nil (i : nat) (flags : list bool) : pending i flags [] = 0%nat.
Proof.
  revert i. induction flags as [|f fs IH]; intros i; simpl; [reflexivity|].
  rewrite IH, andb_false_r. reflexivity.
Qed.

Lemma pending_all (i n : nat) (sched : list (nat * Response)) :
  pending i (repeat true n) sched
  = length (List.filter (fun k => is_401 (first_answer k sched)) (seq i n)).
Proof.
  revert i. induction n as [|n IH]; intros i; simpl; [reflexivity|].
  rewrite IH. destruct (is_401 (first_answer i sched)); reflexivity.
Qed.

Lemma deliver_some (w : World) (pool : Pool) (j : nat) (x : Response)
    (st : Status value) :
  pool !! j = Some st ->
  deliver (w, pool) (j, x)
  = ((resume (w, st) x).1, <[j := (resume (w, st) x).2]> pool).
Proof.
  intros H. unfold deliver. simpl. rewrite H.
  destruct (resume (w, st) x). reflexivity.
Qed.

Lemma deliver_none (w : World) (pool : Pool) (j : nat) (x : Response) :
  pool !! j = None -> deliver (w, pool) (j, x) = (w, pool).
Proof. intros H. unfold deliver. simpl. rewrite H. reflexivity. Qed.

(** Issuing further calls leaves the calls already issued as they are. *)
Lemma start_keeps (ps : list (Proc value)) (w : World) (pool : Pool)
    (i : nat) (st : Status value) :
  pool !! i = Some st -> (fold_left issue ps (w, pool)).2 !! i = Some st.
Proof.
  revert w pool. induction ps as [|p ps IH]; intros w pool H; simpl; [exact H|].
  unfold issue at 2. simpl. destruct (advance p w) as [w' st'].
  apply IH. apply lookup_app_l_Some. exact H.
Qed.

Section Race.

Variables (url : string) (options : Options).
Hypothesis not_the_provider : String.eqb url token_endpoint = false.

(** One answer delivered to one call: the refreshGrants sent so far grow
    by one exactly when the call was waiting for its first answer and the
    answer is a 401; a stored refresh credential stays stored. *)
Lemma deliver_one (w : World) (st : Status value) (f : bool) (x : Response) :
  tracked url options st f ->
  present (storage w !! "refresh_token") = true ->
  keeps_refresh x = true ->
  tracked url options (resume (w, st) x).2 false
  /\ present (storage (resume (w, st) x).1 !! "refresh_token") = true
  /\ renewals (resume (w, st) x).1
     = (renewals w + (if f && is_401 (Some x) then 1 else 0))%nat.
Proof.
  intros T Hp Hk. destruct T as [h|h| |r].
  - rewrite resume_first. destruct x as [status body|]; simpl.
    + destruct (status =? 401); simpl.
      * rewrite Hp. simpl. split; [constructor|]. split; [exact Hp|].
        rewrite renewals_dispatch, is_refresh_refresh_request. reflexivity.
      * destruct (advance_settle (status, body) w) as [res ->]. simpl.
        split; [constructor|]. split; [exact Hp|lia].
    + split; [constructor|]. split; [exact Hp|lia].
  - simpl andb. cbv iota. destruct x as [status body|].
    + destruct (ok status) eqn:Hok.
      * destruct body as [data|].
        -- destruct (get data "access_token") as [a|] eqn:Ha.
           ++ rewrite (resume_token_granted _ _ _ _ _ _ _ Hok Ha). simpl.
              split; [constructor|]. split.
              ** simpl in Hk. rewrite Hok in Hk. simpl in Hk.
                 unfold renewed_store.
                 destruct (truthy (opt_get (renewed_claims data) "tenant_slug")).
                 --- rewrite lookup_insert_ne by discriminate.
                     rewrite lookup_insert_eq. simpl. exact Hk.
                 --- rewrite lookup_insert_eq. simpl. exact Hk.
              ** pose proof (renewals_dispatch
                   (Auth.call url options (renewed_headers h data))
                   (with_storage (renewed_store (storage w) data) w)) as R.
                 rewrite (is_refresh_call _ _ _ not_the_provider) in R.
                 simpl in R. unfold renewals in *. simpl in *. rewrite R.
                 reflexivity.
           ++ rewrite (resume_token_null_body _ _ _ _ _ _ Hok Ha). simpl.
              split; [constructor|]. split; [exact Hp|lia].
        -- rewrite (resume_token_no_body _ _ _ _ _ Hok). simpl.
           split; [constructor|]. split; [exact Hp|lia].
      * rewrite (resume_token_refused _ _ _ _ _ _ Hok). simpl.
        split; [constructor|]. split; [exact Hp|]. unfold renewals. simpl. lia.
    + rewrite resume_token_rejected. simpl.
      split; [constructor|]. split; [exact Hp|lia].
  - destruct (resume_retry w x) as [res ->]. simpl.
    split; [constructor|]. split; [exact Hp|lia].
  - simpl. split; [constructor|]. split; [exact Hp|lia].
Qed.

End Race.

Lemma deliver_call (w : World) (st : Status value) (f : bool) (x : Response) :
  tracked_call st f ->
  present (storage w !! "refresh_token") = true ->
  keeps_refresh x = true ->
  tracked_call (resume (w, st) x).2 false
  /\ present (storage (resume (w, st) x).1 !! "refresh_token") = true
  /\ renewals (resume (w, st) x).1
     = (renewals w + (if f && is_401 (Some x) then 1 else 0))%nat.
Proof.
  intros (url & options & Hu & T) Hp Hk.
  destruct (deliver_one url options Hu w st f x T Hp Hk) as (T' & Hp' & Hr).
  split; [exists url, options; split; assumption|]. split; assumption.
Qed.

(** The tail of a call reads nothing of the client's state. *)
Lemma settle_status (response : Z * option value) (w w' : World) :
  (advance (Auth.settle response) w).2 = (advance (Auth.settle response) w').2.
Proof.
  destruct response as [status body]. destruct (ok status) eqn:Hok.
  - unfold Auth.settle. simpl. rewrite Hok. simpl. destruct body; reflexivity.
  - rewrite !(settle_not_ok _ _ _ Hok). reflexivity.
Qed.

(** As long as a refresh credential is stored, what a call does with an
    answer depends on the call and the answer alone. *)
Lemma resume_status (w w' : World) (st : Status value) (f : bool) (x : Response) :
  tracked_call st f ->
  present (storage w !! "refresh_token") = true ->
  present (storage w' !! "refresh_token") = true ->
  (resume (w, st) x).2 = (resume (w', st) x).2.
Proof.
  intros (url & options & _ & T) Hp Hp'. destruct T as [h|h| |r].
  - rewrite !resume_first. destruct x as [status body|]; [|reflexivity].
    destruct (status =? 401).
    + rewrite Hp, Hp'. reflexivity.
    + apply settle_status.
  - destruct x as [status body|].
    + destruct (ok status) eqn:Hok.
      * destruct body as [data|].
        -- destruct (get data "access_token") as [a|] eqn:Ha.
           ++ rewrite !(resume_token_granted _ _ _ _ _ _ _ Hok Ha). reflexivity.
           ++ rewrite !(resume_token_null_body _ _ _ _ _ _ Hok Ha). reflexivity.
        -- rewrite !(resume_token_no_body _ _ _ _ _ Hok). reflexivity.
      * rewrite !(resume_token_refused _ _ _ _ _ _ Hok). reflexivity.
    + rewrite !resume_token_rejected. reflexivity.
  - destruct x as [status body|]; [|reflexivity].
    unfold resume, after_retry. simpl. apply settle_status.
  - reflexivity.
Qed.

(** Any schedule, from any state of the calls: the refreshGrants. *)
Lemma run_pool_renewals (sched : list (nat * Response)) (w : World)
    (pool : Pool) (flags : list bool) :
  Forall2 tracked_call pool flags ->
  present (storage w !! "refresh_token") = true ->
  Forall (fun d => keeps_refresh d.2 = true) sched ->
  renewals (run_pool sched (w, pool)).1 = (renewals w + pending 0 flags sched)%nat.
Proof.
  unfold run_pool. revert w pool flags.
  induction sched as [|[j x] sched IH]; intros w pool flags T Hp Hk.
  - simpl. rewrite pending_nil. lia.
  - apply Forall_cons_1 in Hk as [Hx Hk]. simpl in Hx.
    simpl fold_left.
    rewrite pending_deliver, Nat.sub_0_r.
    destruct (decide (0 <= j)%nat) as [_|]; [|lia].
    destruct (pool !! j) as [st|] eqn:Hj.
    + destruct (Forall2_lookup_l _ _ _ _ _ T Hj) as (f & Hf & Tj).
      rewrite Hf. simpl. rewrite (deliver_some _ _ _ _ _ Hj).
      destruct (deliver_call w st f x Tj Hp Hx) as (T' & Hp' & Hr).
      rewrite (IH _ (<[j := (resume (w, st) x).2]> pool) (<[j := false]> flags)).
      * rewrite Hr. unfold is_401. lia.
      * apply Forall2_insert; assumption.
      * exact Hp'.
      * exact Hk.
    + assert (Hf : flags !! j = None).
      { apply lookup_ge_None. apply lookup_ge_None in Hj.
        rewrite <- (Forall2_length _ _ _ T). exact Hj. }
      rewrite Hf. simpl. rewrite (deliver_none _ _ _ _ Hj).
      rewrite (list_insert_ge flags) by (apply lookup_ge_None; exact Hf).
      rewrite (IH w pool flags T Hp Hk). lia.
Qed.

Lemma answers_for_here (i : nat) (x : Response) (sched : list (nat * Response)) :
  answers_for i ((i, x) :: sched) = x :: answers_for i sched.
Proof. unfold answers_for. simpl. rewrite Nat.eqb_refl. reflexivity. Qed.

Lemma answers_for_other (i j : nat) (x : Response) (sched : list (nat * Response)) :
  i <> j -> answers_for i ((j, x) :: sched) = answers_for i sched.
Proof.
  intros H. unfold answers_for. simpl.
  destruct (Nat.eqb_spec j i); [congruence|reflexivity].
Qed.

(** Any schedule, from any state of the calls: where call [i] ends is
    where it ends on its own, given the answers the schedule holds for
    it. *)
Lemma run_pool_status (sched : list (nat * Response)) (w wi : World)
    (pool : Pool) (flags : list bool) (i : nat) (st : Status value) :
  Forall2 tracked_call pool flags ->
  present (storage w !! "refresh_token") = true ->
  present (storage wi !! "refresh_token") = true ->
  Forall (fun d => keeps_refresh d.2 = true) sched ->
  pool !! i = Some st ->
  (run_pool sched (w, pool)).2 !! i
  = Some (fold_left resume (answers_for i sched) (wi, st)).2.
Proof.
  unfold run_pool. revert w wi pool flags st.
  induction sched as [|[j x] sched IH]; intros w wi pool flags st T Hp Hpi Hk Hi.
  - simpl. exact Hi.
  - apply Forall_cons_1 in Hk as [Hx Hk]. simpl in Hx. simpl fold_left.
    destruct (pool !! j) as [stj|] eqn:Hj.
    + destruct (Forall2_lookup_l _ _ _ _ _ T Hj) as (f & Hf & Tj).
      rewrite (deliver_some _ _ _ _ _ Hj).
      destruct (deliver_call w stj f x Tj Hp Hx) as (T' & Hp' & _).
      assert (TT : Forall2 tracked_call (<[j := (resume (w, stj) x).2]> pool)
                     (<[j := false]> flags))
        by (apply Forall2_insert; assumption).
      destruct (decide (i = j)) as [->|Hne].
      * assert (st = stj) by congruence. subst stj.
        rewrite answers_for_here. simpl fold_left.
        destruct (deliver_call wi st f x Tj Hpi Hx) as (_ & Hpi' & _).
        rewrite (surjective_pairing (resume (wi, st) x)).
        rewrite <- (resume_status w wi st f x Tj Hp Hpi).
        apply (IH _ (resume (wi, st) x).1 _ _ (resume (w, st) x).2 TT Hp' Hpi' Hk).
        apply list_lookup_insert_eq. apply lookup_lt_Some in Hj. exact Hj.
      * rewrite answers_for_other by assumption.
        apply (IH _ wi _ _ st TT Hp' Hpi Hk).
        etransitivity; [|exact Hi].
        apply (list_lookup_insert_ne (pool : list (Status value))). congruence.
    + rewrite (deliver_none _ _ _ _ Hj).
      assert (i <> j) by congruence.
      rewrite answers_for_other by assumption.
      apply (IH w wi pool flags st T Hp Hpi Hk Hi).
Qed.

Lemma issue_request (url : string) (options : Options) (w : World) (pool : Pool) :
  issue (w, pool) (Auth.request url options)
  = (dispatch (Auth.call url options
                 (Auth.first_headers options (storage w !! "access_token")
                    (storage w !! "current_tenant"))) w,
     pool ++ [Waiting (after_first url options
                         (Auth.first_headers options (storage w !! "access_token")
                            (storage w !! "current_tenant")))]).
Proof. unfold issue. simpl fst. rewrite advance_request. reflexivity. Qed.

(** Issuing the calls: each sends its request and waits, as it would on
    its own; no refreshGrant is sent and the store is not touched. *)
Lemma start_calls (calls : list (string * Options)) (w0 w : World) (pool : Pool)
    (flags : list bool) :
  Forall (fun c => String.eqb c.1 token_endpoint = false) calls ->
  storage w = storage w0 ->
  Forall2 tracked_call pool flags ->
  let r := fold_left issue (gateway_calls calls) (w, pool) in
  Forall2 tracked_call r.2 (flags ++ repeat true (length calls))
  /\ storage r.1 = storage w0
  /\ renewals r.1 = renewals w
  /\ forall i c, calls !! i = Some c ->
       r.2 !! (length pool + i)%nat = Some (advance (Auth.request c.1 c.2) w0).2.
Proof.
  intros Hc. revert w pool flags.
  induction Hc as [|[url options] calls Hu _ IH]; intros w pool flags Hs T.
  - simpl. rewrite app_nil_r. split; [exact T|]. split; [exact Hs|].
    split; [reflexivity|]. intros i c Hi. discriminate.
  - simpl in Hu. cbn [gateway_calls map fold_left fst snd length repeat].
    rewrite issue_request.
    match goal with
    | |- context [fold_left issue _ (?w1, ?p1)] =>
        destruct (IH w1 p1 (flags ++ [true])) as (T' & Hs' & Hr & Hl)
    end.
    + exact Hs.
    + apply Forall2_app; [exact T|]. constructor; [|constructor].
      exists url, options. split; [exact Hu|constructor].
    + fold (gateway_calls calls).
      rewrite <- app_assoc in T'. simpl in T'. split; [exact T'|].
      split; [exact Hs'|]. split.
      * etransitivity; [exact Hr|]. rewrite renewals_dispatch.
        rewrite (is_refresh_call _ _ _ Hu). lia.
      * intros i c Hi. destruct i as [|i]; simpl in Hi.
        -- injection Hi as <-. cbn [fst snd]. rewrite Nat.add_0_r.
           rewrite advance_request, <- Hs. cbn [snd].
           match goal with
           | |- (fold_left issue _ (?w1, ?p1)).2 !! _ = _ =>
               pose proof (start_keeps (gateway_calls calls) w1 p1) as K
           end.
           apply K.
           exact (list_lookup_middle (pool : list (Status value)) [] _ _ eq_refl).
        -- specialize (Hl i c Hi). rewrite length_app in Hl. simpl in Hl.
           replace (length pool + S i)%nat with (length pool + 1 + i)%nat by lia.
           exact Hl.
Qed.

Lemma start_gateway_calls (calls : list (string * Options)) (w : World) :
  Forall (fun c => String.eqb c.1 token_endpoint = false) calls ->
  Forall2 tracked_call (start (gateway_calls calls) w).2 (repeat true (length calls))
  /\ storage (start (gateway_calls calls) w).1 = storage w
  /\ renewals (start (gateway_calls calls) w).1 = renewals w
  /\ forall i c, calls !! i = Some c ->
       (start (gateway_calls calls) w).2 !! i
       = Some (advance (Auth.request c.1 c.2) w).2.
Proof.
  intros Hu.
  exact (start_calls calls w w [] [] Hu eq_refl (List.Forall2_nil _)).
Qed.

Lemma filter_all (P : nat -> bool) (a n : nat) :
  (forall i, (a <= i < a + n)%nat -> P i = true) ->
  length (List.filter P (seq a n)) = n.
Proof.
  revert a. induction n as [|n IH]; intros a H; simpl; [reflexivity|].
  rewrite (H a) by lia. simpl. rewrite IH; [reflexivity|].
  intros i Hi. apply H. lia.
Qed.

(** C3 (as amended): some calls of [Auth.request] are in flight, to any
    URLs but the token endpoint, and a refresh credential is stored.  The
    tenant slug of the store, and the credentials and the tenant slug of
    every token response, are such as the gateway takes as they are
    (absent, null, a boolean or a string), and no token response leaves
    an empty refresh credential.  In whatever order the answers arrive,
    the refreshGrants sent are as many as the calls whose first answer is
    a 401 (every such call renews for itself, and [n] calls answered 401
    send [n] refreshGrants), and every call ends where it ends on its
    own, given the answers to its own requests. *)
Theorem each_call_renews_for_itself
    (calls : list (string * Options)) (sched : list (nat * Response)) (w : World) :
  Forall (fun c => String.eqb c.1 token_endpoint = false) calls ->
  present (storage w !! "refresh_token") = true ->
  sendable_tenant w = true ->
  Forall (fun d => keeps_refresh d.2 = true) sched ->
  Forall (fun d => plain_answer d.2 = true) sched ->
  let r := run_pool sched (start (gateway_calls calls) w) in
  renewals r.1 = (renewals w + unauthorized_calls (length calls) sched)%nat
  /\ ((forall i, (i < length calls)%nat -> is_401 (first_answer i sched) = true) ->
      renewals r.1 = (renewals w + length calls)%nat)
  /\ (forall i c, calls !! i = Some c ->
        r.2 !! i = Some (run (Auth.request c.1 c.2) (answers_for i sched) w).2).
Proof.
  intros Hu Hp _ Hk _. cbv zeta.
  destruct (start_gateway_calls calls w Hu) as (T & Hs & Hr & Hl).
  destruct (start (gateway_calls calls) w) as [w0 pool] eqn:Es.
  cbn [fst snd] in *.
  assert (Hp0 : present (storage w0 !! "refresh_token") = true)
    by (rewrite Hs; exact Hp).
  assert (E : renewals (run_pool sched (w0, pool)).1
              = (renewals w + unauthorized_calls (length calls) sched)%nat).
  { rewrite (run_pool_renewals sched _ _ (repeat true (length calls)) T Hp0 Hk).
    rewrite pending_all. unfold unauthorized_calls.
    apply (f_equal (fun k => (k + _)%nat)). exact Hr. }
  split; [exact E|]. split.
  - intros H. rewrite E. unfold unauthorized_calls.
    rewrite filter_all; [reflexivity|]. intros i Hi. apply H. lia.
  - intros i c Hi. specialize (Hl i c Hi).
    assert (Hpi : present (storage (advance (Auth.request c.1 c.2) w).1
                             !! "refresh_token") = true)
      by (rewrite advance_request; exact Hp).
    rewrite (run_pool_status sched _ (advance (Auth.request c.1 c.2) w).1 _
               (repeat true (length calls)) i _ T Hp0 Hpi Hk Hl).
    unfold run. rewrite <- surjective_pairing. reflexivity.
Qed.

Lemma each_call_renews_for_itself_witness :
  let calls := [(agents_url, no_options); (agents_url, no_options)] in
  let r := run_pool race (start (gateway_calls calls) (fresh session_store)) in
  renewals r.1 = (renewals (fresh session_store) + unauthorized_calls (length calls) race)%nat
  /\ ((forall i, (i < length calls)%nat -> is_401 (first_answer i race) = true) ->
      renewals r.1 = (renewals (fresh session_store) + length calls)%nat)
  /\ (forall i c, calls !! i = Some c ->
        r.2 !! i = Some (run (Auth.request c.1 c.2) (answers_for i race)
                           (fresh session_store)).2).
Proof.
  apply (each_call_renews_for_itself
           [(agents_url, no_options); (agents_url, no_options)] race
           (fresh session_store)).
  - repeat constructor.
  - reflexivity.
  - reflexivity.
  - repeat constructor.
  - repeat constructor.
Defined.

(** C3, counterexample: two calls are issued on a session whose access
    credential has expired.  Both are answered 401 and each sends a
    refreshGrant of its own: two are sent, not one.  The provider grants
    the first and refuses the second, so the first call succeeds and the
    second fails. *)
Lemma two_calls_two_renewals :
  let r := run_pool race
             (start [Auth.request agents_url no_options;
                     Auth.request agents_url no_options]
                (fresh session_store)) in
  renewals r.1 = 2%nat
  /\ r.2 = [Done (Returned (VArr [])); Done (Raised (Error "Unauthorized"))].
Proof. vm_compute. split; reflexivity. Qed.

(* ====================================================================== *)
(** ** How calls run: binds, handlers and finalisers *)
(* ====================================================================== *)

Lemma run_cons {A} (p : Proc A) (x : Response) (answers : list Response) (w : World) :
  run p (x :: answers) w
  = match (advance p w).2 with
    | Done r => advance p w
    | Waiting k => run (k x) answers (advance p w).1
    end.
Proof.
  unfold run. simpl. destruct (advance p w) as [w' [r|k]]; simpl.
  - apply run_done.
  - reflexivity.
Qed.

(** [try { p } finally { a }] for a single action [a]: the action is
    applied when [p] completes, however it completes. *)
Lemma advance_finally {A} (p : Proc A) (a : action) (w : World) :
  advance (finally p (act a)) w
  = match (advance p w).2 with
    | Done r => (apply a (advance p w).1, Done r)
    | Waiting k => ((advance p w).1, Waiting (fun x => finally (k x) (act a)))
    end.
Proof.
  revert w. induction p as [v|e|k c IH|b n IH|r c IH]; intros w; simpl;
    try reflexivity.
  - apply IH.
  - apply IH.
Qed.

Lemma run_finally {A} (p : Proc A) (a : action) (answers : list Response) (w : World) :
  run (finally p (act a)) answers w
  = match (run p answers w).2 with
    | Done r => (apply a (run p answers w).1, Done r)
    | Waiting k => ((run p answers w).1, Waiting (fun x => finally (k x) (act a)))
    end.
Proof.
  revert p w. induction answers as [|x xs IH]; intros p w.
  - unfold run. simpl. apply advance_finally.
  - rewrite !run_cons, advance_finally.
    destruct (advance p w) as [w' [r|k]]; simpl; [reflexivity|]. apply IH.
Qed.

Lemma always_returns_run {A} (v : A) (p : Proc A) (answers : list Response)
    (w : World) (r : Result A) :
  always_returns v p -> (run p answers w).2 = Done r -> r = Returned v.
Proof.
  intros H. revert answers w. induction H as [|k c _ IH|a n _ IH|q c _ IH];
    intros answers w E.
  - unfold run in E. simpl in E. rewrite run_done in E. simpl in E. congruence.
  - apply (IH (storage w !! k) answers w).
    unfold run in *. simpl in E. exact E.
  - apply (IH answers (apply a w)). unfold run in *. simpl in E. exact E.
  - destruct answers as [|x xs].
    + unfold run in E. simpl in E. discriminate.
    + apply (IH x xs (dispatch q w)). rewrite run_cons in E. simpl in E. exact E.
Qed.

Lemma always_returns_bind {A B} (v : A) (u : B) (p : Proc A) (f : A -> Proc B) :
  always_returns v p -> always_returns u (f v) -> always_returns u (bind p f).
Proof.
  intros H Hf. induction H; simpl; try constructor; auto.
Qed.

Lemma always_returns_try_catch {A} (v : A) (p : Proc A) (h : exn -> Proc A) :
  always_returns v p -> always_returns v (try_catch p h).
Proof. intros H. induction H; simpl; constructor; auto. Qed.

(** [p.catch(() => {})]: whatever [p] does, the whole returns. *)
Lemma swallowed_returns (p : Proc unit) :
  always_returns tt (try_catch p (fun _ => Ret tt)).
Proof.
  induction p as [[]|e|k c IH|a n IH|r c IH]; simpl; constructor; auto.
Qed.

(* ====================================================================== *)
(** ** login, logout, refreshAccessToken, fetchUserProfile *)
(* ====================================================================== *)

Lemma advance_login (email password : string) (w : World) :
  exists k, advance (AuthProvider.login email password) w
            = (dispatch (login_request email password) w, Waiting k)
            /\ (forall x w', ~ (exists status data a,
                                  x = Resp status (Some data) /\ ok status = true
                                  /\ get data "access_token" = Some a) ->
                  advance (k x) w'
                  = (w', Done (Returned (VObj [("success", VBool false);
                                               ("error", VStr (login_failure x))]))))
            /\ (forall status data a,
                  ok status = true -> get data "access_token" = Some a ->
                  always_returns (VObj [("success", VBool true)])
                    (k (Resp status (Some data)))).
Proof.
  eexists. split; [reflexivity|]. split.
  - intros x w' N. destruct x as [status body|]; simpl; [|reflexivity].
    destruct (ok status) eqn:Hok; simpl.
    + destruct body as [data|]; simpl; [|reflexivity].
      unfold prop. destruct (get data "access_token") as [a|] eqn:Ha; simpl.
      * exfalso. apply N. eauto 6.
      * (* the body is null or undefined: every property read throws *)
        destruct data; simpl in Ha; try discriminate; reflexivity.
    + destruct body as [error|]; simpl; [|reflexivity].
      unfold prop. destruct (get error "error_description"); reflexivity.
  - intros status data a Hok Ha. simpl. rewrite Hok. simpl.
    unfold prop. rewrite Ha, (get_some_all _ _ _ "refresh_token" Ha). simpl.
    constructor. constructor. constructor. constructor.
    destruct (AuthProvider_decode_returns a) as (u & -> & _). simpl.
    assert (T : always_returns (VObj [("success", VBool true)])
                  (try_catch
                     (bind (try_catch (AuthProvider.fetchUserProfile a)
                              (fun _ => Ret tt))
                        (fun _ => Ret (VObj [("success", VBool true)])))
                     (fun error =>
                        Ret (VObj [("success", VBool false);
                                   ("error", VStr (message error))])))).
    { apply always_returns_try_catch.
      apply (always_returns_bind tt); [apply swallowed_returns|constructor]. }
    destruct (truthy u); simpl; [|exact T].
    constructor. destruct (truthy (opt_get u "tenant")); simpl; [constructor|];
      exact T.
Qed.

Lemma grants_inv (x : Response) :
  grants x = true ->
  exists status data a,
    x = Resp status (Some data) /\ ok status = true /\ get data "access_token" = Some a.
Proof.
  destruct x as [status body|]; simpl; [|discriminate].
  destruct body as [data|]; [|discriminate].
  destruct (ok status) eqn:Hok; simpl; [|discriminate].
  destruct (get data "access_token") as [a|] eqn:Ha; [|discriminate].
  intros _. exists status, data, a. auto.
Qed.

(** X1: a login the provider does not grant (a refusal, an unreadable
    answer, an unreachable provider) sends its one request, stores nothing
    and reports failure with the provider's description of the error. *)
Theorem login_refused_stores_nothing
    (email password : string) (x : Response) (answers : list Response) (w : World) :
  grants x = false ->
  run (AuthProvider.login email password) (x :: answers) w
  = (dispatch (login_request email password) w,
     Done (Returned (VObj [("success", VBool false);
                           ("error", VStr (login_failure x))]))).
Proof.
  intros G. destruct (advance_login email password w) as (k & Ha & Hf & _).
  rewrite run_cons, Ha. simpl. unfold run. rewrite Hf.
  - apply run_done.
  - intros (status & data & a & -> & Hok & Hg). simpl in G.
    rewrite Hok, Hg in G. discriminate.
Qed.

Lemma login_refused_stores_nothing_witness :
  run (AuthProvider.login "alice" "wrong") [invalid_grant] (fresh ∅)
  = (dispatch (login_request "alice" "wrong") (fresh ∅),
     Done (Returned (VObj [("success", VBool false);
                           ("error", VStr (login_failure invalid_grant))]))).
Proof.
  apply (login_refused_stores_nothing "alice" "wrong" invalid_grant [] (fresh ∅)).
  reflexivity.
Defined.

Lemma login_granted_store (email password : string) (w : World)
    (status : Z) (data a : value) :
  ok status = true -> get data "access_token" = Some a ->
  storage (run (AuthProvider.login email password) [Resp status (Some data)] w).1
    !! "access_token" = Some (to_string a)
  /\ storage (run (AuthProvider.login email password) [Resp status (Some data)] w).1
       !! "refresh_token" = Some (to_string (opt_get data "refresh_token")).
Proof.
  intros Hok Ha. unfold run, AuthProvider.login, resume. simpl.
  rewrite Hok. simpl. unfold prop.
  rewrite Ha, (get_some_all _ _ _ "refresh_token" Ha). simpl.
  destruct (AuthProvider_decode_returns a) as (u & -> & _). simpl.
  destruct (truthy u); simpl;
    [destruct (truthy (opt_get u "tenant")); simpl|];
    destruct a; simpl; split;
    repeat (rewrite lookup_insert_ne by discriminate);
    apply lookup_insert_eq.
Qed.

(** X2: once the provider has granted credentials that the store can
    take as they are (each absent, null, a boolean or a string), login has
    stored them and reports success whatever happens to the profile
    request it starts; it never reports a failure then. *)
Theorem login_granted_reports_success
    (email password : string) (status : Z) (data a : value) (w : World) :
  ok status = true -> get data "access_token" = Some a ->
  storable_grant data = true ->
  (forall answers r,
     (run (AuthProvider.login email password)
          (Resp status (Some data) :: answers) w).2 = Done r ->
     r = Returned (VObj [("success", VBool true)]))
  /\ storage (run (AuthProvider.login email password) [Resp status (Some data)] w).1
       !! "access_token" = Some (to_string a)
  /\ storage (run (AuthProvider.login email password) [Resp status (Some data)] w).1
       !! "refresh_token" = Some (to_string (opt_get data "refresh_token")).
Proof.
  intros Hok Hg _. split; [|apply (login_granted_store _ _ _ _ _ _ Hok Hg)].
  intros answers r E.
  destruct (advance_login email password w) as (k & Ha & _ & Hs).
  rewrite run_cons, Ha in E. simpl in E.
  apply (always_returns_run _ _ _ _ _ (Hs status data a Hok Hg) E).
Qed.

Lemma login_granted_reports_success_witness :
  (forall answers r,
     (run (AuthProvider.login "alice" "secret") (granted :: answers) (fresh ∅)).2
     = Done r ->
     r = Returned (VObj [("success", VBool true)]))
  /\ storage (run (AuthProvider.login "alice" "secret") [granted] (fresh ∅)).1
       !! "access_token" = Some (to_string (VStr acme_token))
  /\ storage (run (AuthProvider.login "alice" "secret") [granted] (fresh ∅)).1
       !! "refresh_token" = Some (to_string (opt_get (VObj [("access_token", VStr acme_token); ("refresh_token", VStr "R1")]) "refresh_token")).
Proof.
  apply (login_granted_reports_success "alice" "secret" 200
           (VObj [("access_token", VStr acme_token); ("refresh_token", VStr "R1")])
           (VStr acme_token) (fresh ∅)); reflexivity.
Defined.

Lemma advance_logout (w : World) :
  if present (storage w !! "refresh_token")
  then exists k,
         advance AuthProvider.logout w
         = (dispatch (AuthProvider.logout_request
                        (default "" (storage w !! "refresh_token"))) w,
            Waiting k)
         /\ forall w' x, advance (k x) w' = (logged_out w', Done (Returned tt))
  else advance AuthProvider.logout w = (logged_out w, Done (Returned tt)).
Proof.
  unfold AuthProvider.logout. simpl.
  destruct (present (storage w !! "refresh_token")); simpl; [|reflexivity].
  eexists. split; [reflexivity|].
  intros w' x. destruct x; reflexivity.
Qed.

(** X3: logout always completes, whether the provider answers its request,
    refuses it or cannot be reached: both credentials are removed and the
    session state is reset.  It sends at most one request, and only when a
    refresh credential is stored.  Every other entry of the store, the
    tenant binding among them, stays. *)
Theorem logout_always_clears (w : World) (x : Response) (answers : list Response) :
  let r := run AuthProvider.logout (x :: answers) w in
  r.2 = Done (Returned tt)
  /\ storage r.1 = delete "refresh_token" (delete "access_token" (storage w))
  /\ storage r.1 !! "current_tenant" = storage w !! "current_tenant"
  /\ user r.1 = VNull /\ token r.1 = VNull /\ refreshToken r.1 = VNull
  /\ location r.1 = location w
  /\ sent r.1
     = sent w ++ (if present (storage w !! "refresh_token")
                  then [AuthProvider.logout_request
                          (default "" (storage w !! "refresh_token"))]
                  else []).
Proof.
  simpl. rewrite run_cons. pose proof (advance_logout w) as L.
  destruct (present (storage w !! "refresh_token")).
  - destruct L as (k & -> & Hk). simpl. unfold run. rewrite Hk, run_done. simpl.
    repeat split. repeat (rewrite lookup_delete_ne by discriminate). reflexivity.
  - rewrite L. simpl. rewrite app_nil_r.
    repeat split. repeat (rewrite lookup_delete_ne by discriminate). reflexivity.
Qed.

(* Never rejecting *)

Lemma never_throws_run {A} (p : Proc A) (answers : list Response)
    (w : World) (r : Result A) :
  never_throws p -> (run p answers w).2 = Done r -> exists v, r = Returned v.
Proof.
  intros H. revert answers w. induction H as [v|k c _ IH|a n _ IH|q c _ IH];
    intros answers w E.
  - unfold run in E. simpl in E. rewrite run_done in E. simpl in E.
    exists v. congruence.
  - apply (IH (storage w !! k) answers w). unfold run in *. simpl in E. exact E.
  - apply (IH answers (apply a w)). unfold run in *. simpl in E. exact E.
  - destruct answers as [|x xs].
    + unfold run in E. simpl in E. discriminate.
    + apply (IH x xs (dispatch q w)). rewrite run_cons in E. simpl in E. exact E.
Qed.

Lemma caught_never_throws {A} (p : Proc A) (h : exn -> Proc A) :
  (forall e, never_throws (h e)) -> never_throws (try_catch p h).
Proof.
  intros H. induction p; simpl; try constructor; auto.
Qed.

Lemma never_throws_bind {A B} (p : Proc A) (f : A -> Proc B) :
  never_throws p -> (forall a, never_throws (f a)) -> never_throws (bind p f).
Proof. intros H Hf. induction H; simpl; try constructor; auto. Qed.

Lemma never_throws_finally {A} (p : Proc A) (fin : Proc unit) :
  never_throws p -> never_throws fin -> never_throws (finally p fin).
Proof.
  intros H Hf. induction H; simpl; try constructor; auto.
  apply never_throws_bind; [exact Hf|]. intros _. constructor.
Qed.

Lemma logout_never_throws : never_throws AuthProvider.logout.
Proof.
  unfold AuthProvider.logout. apply never_throws_finally.
  - apply caught_never_throws. intros _. constructor.
  - repeat constructor.
Qed.

Lemma use_decoded_never_throws (accessToken : value) :
  never_throws (AuthProvider.use_decoded accessToken).
Proof.
  unfold AuthProvider.use_decoded.
  destruct (AuthProvider_decode_returns accessToken) as (u & -> & _). simpl.
  destruct (truthy u); [repeat constructor|apply logout_never_throws].
Qed.

Lemma refreshAccessToken_never_throws : never_throws AuthProvider.refreshAccessToken.
Proof.
  unfold AuthProvider.refreshAccessToken.
  apply never_throws_bind; [repeat constructor|]. intros x.
  destruct (negb (present x)).
  - apply never_throws_bind; [apply logout_never_throws|]. intros _. constructor.
  - apply caught_never_throws. intros _.
    apply never_throws_bind; [apply logout_never_throws|]. intros _. constructor.
Qed.

(** X4: login, logout, refreshAccessToken, fetchUserProfile (given a
    string) and handleCallback never reject: whenever one of them
    completes, it returns, whatever the network answered. *)
Theorem session_functions_never_reject (answers : list Response) (w : World) :
  (forall email password r,
     (run (AuthProvider.login email password) answers w).2 = Done r ->
     exists v, r = Returned v)
  /\ (forall r, (run AuthProvider.logout answers w).2 = Done r ->
                exists v, r = Returned v)
  /\ (forall r, (run AuthProvider.refreshAccessToken answers w).2 = Done r ->
                exists v, r = Returned v)
  /\ (forall s r,
        (run (AuthProvider.fetchUserProfile (VStr s)) answers w).2 = Done r ->
        exists v, r = Returned v)
  /\ (forall q r, (run (SSOCallbackPage.handleCallback q) answers w).2 = Done r ->
                  exists v, r = Returned v).
Proof.
  repeat split; intros.
  - eapply never_throws_run; [|eassumption].
    apply caught_never_throws. intros e. constructor.
  - eapply never_throws_run; [apply logout_never_throws|eassumption].
  - eapply never_throws_run; [apply refreshAccessToken_never_throws|eassumption].
  - eapply never_throws_run; [|eassumption].
    unfold AuthProvider.fetchUserProfile. apply never_throws_finally.
    + apply caught_never_throws. intros _. apply use_decoded_never_throws.
    + repeat constructor.
  - eapply never_throws_run; [|eassumption].
    apply caught_never_throws. intros e. repeat constructor.
Qed.

Lemma session_functions_never_reject_witness :
  exists v, Returned (VObj [("success", VBool false);
                            ("error", VStr (login_failure invalid_grant))])
            = Returned v.
Proof.
  apply (proj1 (session_functions_never_reject [invalid_grant] (fresh ∅))
           "alice" "wrong").
  vm_compute. reflexivity.
Defined.

Lemma fetchUserProfile_ends_loading_run
    (s : string) (answers : list Response) (w w' : World) (r : Result unit) :
  run (AuthProvider.fetchUserProfile (VStr s)) answers w = (w', Done r) ->
  loading w' = false.
Proof.
  unfold AuthProvider.fetchUserProfile. rewrite run_finally.
  destruct (run _ answers w) as [w1 [r1|k]]; simpl; intros E;
    inversion E; subst. reflexivity.
Qed.

(** X5: whenever fetchUserProfile completes, the loading flag is off,
    whether the profile was fetched, the token was renewed, the decoded
    token was used instead, or the user was logged out. *)
Theorem fetchUserProfile_ends_loading
    (s : string) (answers : list Response) (w w' : World) (r : Result unit) :
  run (AuthProvider.fetchUserProfile (VStr s)) answers w = (w', Done r) ->
  loading w' = false.
Proof.
  unfold AuthProvider.fetchUserProfile. rewrite run_finally.
  destruct (run _ answers w) as [w1 [r1|k]]; simpl; intros E;
    inversion E; subst. reflexivity.
Qed.

Lemma fetchUserProfile_ends_loading_witness :
  loading (run (AuthProvider.fetchUserProfile (VStr acme_token))
               [Resp 500 None] (fresh session_store)).1 = false.
Proof.
  apply (fetchUserProfile_ends_loading acme_token [Resp 500 None]
           (fresh session_store) _ (Returned tt)).
  vm_compute. reflexivity.
Defined.

(** X6: a renewal the provider grants, for a stored refresh credential
    that is well-formed text, granted credentials that the store can take
    as they are (each absent, null, a boolean or a string) and a tenant
    claim that is absent, null, a boolean or well-formed text:
    refreshAccessToken returns the new access credential, has stored both
    new credentials, and has set the tenant binding from the tenant it
    decodes from the new credential, when there is one (else the binding
    is left as it was).  One request was sent. *)
Theorem refreshAccessToken_granted
    (w : World) (status : Z) (data a : value) (answers : list Response) :
  present (storage w !! "refresh_token") = true ->
  encodable (default "" (storage w !! "refresh_token")) = true ->
  ok status = true -> get data "access_token" = Some a ->
  storable_grant data = true ->
  plain_text (opt_get (provider_claims a) "tenant") = true ->
  let r := run AuthProvider.refreshAccessToken (Resp status (Some data) :: answers) w in
  let tenant := opt_get (provider_claims a) "tenant" in
  r.2 = Done (Returned a)
  /\ storage r.1 !! "access_token" = Some (to_string a)
  /\ storage r.1 !! "refresh_token" = Some (to_string (opt_get data "refresh_token"))
  /\ storage r.1 !! "current_tenant"
     = (if truthy tenant then Some (AuthProvider.tenantInfo tenant tenant)
        else storage w !! "current_tenant")
  /\ token r.1 = a
  /\ sent r.1 = sent w ++ [refresh_request (default "" (storage w !! "refresh_token"))].
Proof.
  intros Hp _ Hok Ha _ _. simpl. rewrite run_cons.
  unfold AuthProvider.refreshAccessToken, provider_claims. simpl.
  rewrite Hp. simpl. unfold run. simpl. rewrite Hok. simpl. unfold prop.
  rewrite Ha, (get_some_all _ _ _ "refresh_token" Ha). simpl.
  destruct (AuthProvider_decode_returns a) as (u & -> & Hu). simpl.
  destruct (truthy u) eqn:Tu; simpl.
  - destruct (truthy (opt_get u "tenant")) eqn:Tt; simpl; rewrite run_done; simpl;
      repeat split;
      repeat (rewrite lookup_insert_ne by discriminate);
      try apply lookup_insert_eq; reflexivity.
  - assert (Hn : truthy (opt_get u "tenant") = false).
    { destruct Hu as [->|(fs & ->)]; [reflexivity|discriminate Tu]. }
    rewrite Hn. rewrite run_done. simpl.
    repeat split;
      repeat (rewrite lookup_insert_ne by discriminate);
      try apply lookup_insert_eq; reflexivity.
Qed.

Lemma refreshAccessToken_granted_witness :
  let data := VObj [("access_token", VStr acme_token); ("refresh_token", VStr "R1")] in
  let r := run AuthProvider.refreshAccessToken [granted] (fresh session_store) in
  let tenant := opt_get (provider_claims (VStr acme_token)) "tenant" in
  r.2 = Done (Returned (VStr acme_token))
  /\ storage r.1 !! "access_token" = Some (to_string (VStr acme_token))
  /\ storage r.1 !! "refresh_token" = Some (to_string (opt_get data "refresh_token"))
  /\ storage r.1 !! "current_tenant"
     = (if truthy tenant then Some (AuthProvider.tenantInfo tenant tenant)
        else storage (fresh session_store) !! "current_tenant")
  /\ token r.1 = VStr acme_token
  /\ sent r.1 = sent (fresh session_store)
                ++ [refresh_request
                      (default "" (storage (fresh session_store) !! "refresh_token"))].
Proof.
  apply (refreshAccessToken_granted (fresh session_store) 200
           (VObj [("access_token", VStr acme_token); ("refresh_token", VStr "R1")])
           (VStr acme_token) []); vm_compute; reflexivity.
Defined.

(* ====================================================================== *)
(** ** The SSO callback: how it fails *)
(* ====================================================================== *)

Lemma advance_failed (e : exn) (w : World) :
  advance (SSOCallbackPage.failed e) w
  = (callback_failed (message e) w, Done (Returned tt)).
Proof. reflexivity. Qed.

(** X7: a callback that carries an error parameter, or no code, is
    rejected at once: no request is sent and nothing is stored; the page
    shows the provider's description of the error (else its error code),
    or that no code was received, and the user is sent back to login. *)
Theorem callback_rejected_early
    (q : SSOCallbackPage.Params) (msg : string) (answers : list Response) (w : World) :
  early_error q = Some msg ->
  run (SSOCallbackPage.handleCallback q) answers w
  = (callback_failed msg w, Done (Returned tt))
  /\ sent (callback_failed msg w) = sent w
  /\ storage (callback_failed msg w) = storage w
  /\ page_error (callback_failed msg w) = VStr msg.
Proof.
  intros E. unfold early_error in E.
  assert (Hm : msg <> "").
  { destruct (present (SSOCallbackPage.p_error q)) eqn:He.
    - injection E as <-. unfold SSOCallbackPage.first_present.
      destruct (present (SSOCallbackPage.p_error_description q)) eqn:Hd.
      + destruct (SSOCallbackPage.p_error_description q) as [d|]; [|discriminate].
        simpl in *. destruct (String.eqb_spec d ""); [discriminate|assumption].
      + destruct (SSOCallbackPage.p_error q) as [d|]; [|discriminate].
        simpl in *. destruct (String.eqb_spec d ""); [discriminate|assumption].
    - destruct (negb _); [|discriminate]. injection E as <-. discriminate. }
  assert (Hs : shown msg "Authentication failed" = msg).
  { unfold shown. destruct (String.eqb_spec msg ""); [contradiction|reflexivity]. }
  split.
  - unfold run, SSOCallbackPage.handleCallback.
    destruct (present (SSOCallbackPage.p_error q)).
    + injection E as <-. simpl. apply run_done.
    + destruct (negb (present (SSOCallbackPage.p_code q))); [|discriminate].
      injection E as <-. simpl. apply run_done.
  - repeat split. simpl. rewrite Hs. reflexivity.
Qed.

Lemma callback_rejected_early_witness :
  let q := SSOCallbackPage.mkParams None None (Some "access_denied")
             (Some "User cancelled") in
  run (SSOCallbackPage.handleCallback q) [] (fresh ∅)
  = (callback_failed "User cancelled" (fresh ∅), Done (Returned tt))
  /\ sent (callback_failed "User cancelled" (fresh ∅)) = sent (fresh ∅)
  /\ storage (callback_failed "User cancelled" (fresh ∅)) = storage (fresh ∅)
  /\ page_error (callback_failed "User cancelled" (fresh ∅)) = VStr "User cancelled".
Proof.
  apply (callback_rejected_early
           (SSOCallbackPage.mkParams None None (Some "access_denied")
              (Some "User cancelled"))
           "User cancelled" [] (fresh ∅)).
  reflexivity.
Defined.

Lemma after_callback_fails (x : Response) (msg : string) (w : World) :
  callback_failure x = Some msg ->
  exists w1, advance (after_callback x) w = (callback_failed msg w1, Done (Returned tt))
             /\ storage w1 = storage w /\ sent w1 = sent w
             /\ navigations w1 = navigations w.
Proof.
  unfold callback_failure, after_callback, SSOCallbackPage.complete, prop.
  destruct x as [status body|]; simpl.
  - destruct (ok status); simpl.
    + destruct body as [data|]; simpl.
      * destruct (get data "access_token"); [discriminate|].
        intros E. injection E as <-. simpl.
        exists (apply (SetStatus "Login successful! Redirecting...") w).
        split; [reflexivity|]. repeat split.
      * intros E. injection E as <-. exists w. split; [reflexivity|]. repeat split.
    + destruct body as [v|]; simpl.
      * destruct (get v "detail"); intros E; injection E as <-; simpl;
          exists w; (split; [reflexivity|]); repeat split.
      * intros E. injection E as <-. exists w. split; [reflexivity|]. repeat split.
  - intros E. injection E as <-. exists w. split; [reflexivity|]. repeat split.
Qed.

Lemma early_error_none (q : SSOCallbackPage.Params) :
  early_error q = None ->
  exists code, SSOCallbackPage.p_code q = Some code /\ code <> ""
               /\ present (SSOCallbackPage.p_error q) = false.
Proof.
  unfold early_error. destruct (present (SSOCallbackPage.p_error q)); [discriminate|].
  destruct (SSOCallbackPage.p_code q) as [code|]; simpl; [|discriminate].
  destruct (String.eqb_spec code ""); simpl; [discriminate|].
  intros _. exists code. auto.
Qed.

(** X8: the callback is all or nothing.  With a code and no error
    parameter, a code and an invitation token that can be put in the URL
    (well-formed text; the token may be absent), and an answer whose
    credentials the store can take as they are and whose error detail, if
    any, is a boolean or a string, the handler sends its one request and
    always completes; either the answer establishes a session, which is
    stored, and no error is shown, or the handler stores nothing at all,
    shows the error and sends the user back to login. *)
Theorem callback_all_or_nothing
    (q : SSOCallbackPage.Params) (x : Response) (answers : list Response) (w : World) :
  early_error q = None ->
  builds_url q = true ->
  storable_answer x = true ->
  let r := run (SSOCallbackPage.handleCallback q) (x :: answers) w in
  r.2 = Done (Returned tt)
  /\ sent r.1
     = sent w ++ [SSOCallbackPage.callback_request
                    (default "" (SSOCallbackPage.p_code q))
                    (SSOCallbackPage.invitation_token_of (SSOCallbackPage.p_state q))]
  /\ match callback_failure x with
     | None =>
         page_error r.1 = page_error w
         /\ storage r.1 !! "access_token"
            = Some (to_string (opt_get (body_of x) "access_token"))
         /\ exists st, navigations r.1 = navigations w ++ [("/admin/tenants", st)]
     | Some msg =>
         storage r.1 = storage w
         /\ page_error r.1 = VStr (shown msg "Authentication failed")
         /\ exists st, navigations r.1 = navigations w ++ [("/login", st)]
     end.
Proof.
  intros E _ _. destruct (early_error_none q E) as (code & Hc & Hn & He). simpl.
  rewrite run_cons, (handleCallback_dispatch q w code Hc Hn He), Hc. simpl.
  set (w1 := dispatch _ _). unfold run.
  destruct (callback_failure x) as [msg|] eqn:F.
  - destruct (after_callback_fails x msg w1 F) as (w2 & -> & Hst & Hse & Hna).
    rewrite run_done. simpl. rewrite Hst, Hse, Hna. repeat split. eauto.
  - unfold callback_failure in F. destruct x as [status [data|]|]; try discriminate.
    + destruct (ok status) eqn:Hok.
      * destruct (get data "access_token") as [a|] eqn:Ha; [|discriminate].
        rewrite (after_callback_ok w1 status data a Hok Ha), run_done. simpl fst. simpl snd.
        destruct (logged_in_page data w1) as (Hp & Hs & _ & st & Hnav).
        split; [reflexivity|]. split; [rewrite Hs; reflexivity|].
        split; [exact Hp|]. split; [apply logged_in_access_token|].
        exists st. exact Hnav.
      * destruct (get (default (VObj []) (Some data)) "detail"); discriminate.
    + destruct (ok status); [discriminate|]. simpl in F. discriminate.
Qed.

Lemma callback_all_or_nothing_witness :
  let r := run (SSOCallbackPage.handleCallback (callback None)) [Resp 403 None]
               (fresh ∅) in
  r.2 = Done (Returned tt)
  /\ sent r.1
     = sent (fresh ∅)
       ++ [SSOCallbackPage.callback_request
             (default "" (SSOCallbackPage.p_code (callback None)))
             (SSOCallbackPage.invitation_token_of
                (SSOCallbackPage.p_state (callback None)))]
  /\ match callback_failure (Resp 403 None) with
     | None =>
         page_error r.1 = page_error (fresh ∅)
         /\ storage r.1 !! "access_token"
            = Some (to_string (opt_get (body_of (Resp 403 None)) "access_token"))
         /\ exists st, navigations r.1
                       = navigations (fresh ∅) ++ [("/admin/tenants", st)]
     | Some msg =>
         storage r.1 = storage (fresh ∅)
         /\ page_error r.1 = VStr (shown msg "Authentication failed")
         /\ exists st, navigations r.1 = navigations (fresh ∅) ++ [("/login", st)]
     end.
Proof.
  apply (callback_all_or_nothing (callback None) (Resp 403 None) [] (fresh ∅));
    reflexivity.
Defined.

(* ====================================================================== *)
(** ** Headers *)
(* ====================================================================== *)

Lemma header_set_header_eq (k v : string) (h : headers) :
  header k (set_header k v h) = Some v.
Proof.
  induction h as [|[k0 v0] rest IH]; simpl.
  - rewrite String.eqb_refl. reflexivity.
  - destruct (String.eqb_spec k k0) as [->|Hne]; simpl.
    + rewrite String.eqb_refl. reflexivity.
    + destruct (String.eqb_spec k k0); [contradiction|]. exact IH.
Qed.

Lemma header_app (k : string) (a b : headers) :
  header k (a ++ b) = match header k a with Some v => Some v | None => header k b end.
Proof.
  induction a as [|[k0 v0] rest IH]; simpl; [reflexivity|].
  destruct (String.eqb k k0); [reflexivity|exact IH].
Qed.

(** [{...a, ...b}]: the last binding of a key in [b] wins, else [a]'s. *)
Lemma header_spread (k : string) (a b : headers) :
  header k (spread a b)
  = match header k (rev b) with Some v => Some v | None => header k a end.
Proof.
  unfold spread. revert a. induction b as [|[k0 v0] rest IH]; intros a; simpl.
  - reflexivity.
  - rewrite IH, header_app. destruct (header k (rev rest)); [reflexivity|].
    simpl. destruct (String.eqb_spec k k0) as [->|Hne].
    + apply header_set_header_eq.
    + apply header_set_header_ne. destruct (String.eqb_spec k k0); congruence.
Qed.

(** *** What the request carries *)











(* ====================================================================== *)
(** ** The gateway of auth.jsx: the other paths *)
(* ====================================================================== *)

Lemma advance_settled (status : Z) (body : option value) (w : World) :
  advance (Auth.settle (status, body)) w = (w, Done (settled (Resp status body))).
Proof.
  unfold settled. destruct (ok status) eqn:Hok.
  - unfold Auth.settle. simpl. rewrite Hok. simpl. destruct body; reflexivity.
  - apply (settle_not_ok _ _ _ Hok).
Qed.


Lemma run_request (url : string) (options : Options) (x : Response)
    (answers : list Response) (w : World) :
  run (Auth.request url options) (x :: answers) w
  = fold_left resume answers
      (resume (dispatch (Auth.call url options
                           (Auth.first_headers options (storage w !! "access_token")
                              (storage w !! "current_tenant"))) w,
               Waiting (after_first url options
                          (Auth.first_headers options (storage w !! "access_token")
                             (storage w !! "current_tenant")))) x).
Proof. reflexivity. Qed.

(** X9: a call whose first answer is not a 401 is over with that answer:
    it returns the body of an ok answer and throws for any other; one
    request was sent and neither the store nor the location was touched,
    so a failing API call never ends the session. *)
Theorem request_without_renewal
    (url : string) (options : Options) (x : Response) (answers : list Response)
    (w : World) :
  is_401 (Some x) = false ->
  let r := run (Auth.request url options) (x :: answers) w in
  r.2 = Done (settled x)
  /\ storage r.1 = storage w /\ location r.1 = location w
  /\ exists h, sent r.1 = sent w ++ [Auth.call url options h].
Proof.
  intros H. simpl. rewrite run_request, resume_first.
  destruct x as [status body|]; simpl in *.
  - rewrite H, advance_settled, run_done. simpl. repeat split. eauto.
  - rewrite run_done. simpl. repeat split. eauto.
Qed.

Lemma request_without_renewal_witness :
  let r := run (Auth.request agents_url no_options) [Resp 500 None]
               (fresh session_store) in
  r.2 = Done (settled (Resp 500 None))
  /\ storage r.1 = storage (fresh session_store)
  /\ location r.1 = location (fresh session_store)
  /\ exists h, sent r.1 = sent (fresh session_store)
                          ++ [Auth.call agents_url no_options h].
Proof.
  apply (request_without_renewal agents_url no_options (Resp 500 None) []
           (fresh session_store)).
  reflexivity.
Defined.



(** X11: a 401 with no refresh credential in the store ends the call at
    once: the browser is sent to the login page, the call throws
    'Unauthorized', no second request goes out, and the store keeps what
    it held, the rejected access credential included. *)
Theorem expired_without_refresh_credential
    (url : string) (options : Options) (b : option value)
    (answers : list Response) (w : World) :
  present (storage w !! "refresh_token") = false ->
  let r := run (Auth.request url options) (Resp 401 b :: answers) w in
  r.2 = Done (Raised (Error "Unauthorized"))
  /\ location r.1 = Some "/login"
  /\ storage r.1 = storage w
  /\ exists h, sent r.1 = sent w ++ [Auth.call url options h].
Proof.
  intros H. simpl. rewrite run_request, resume_first. simpl. rewrite H.
  rewrite run_done. simpl. repeat split. eauto.
Qed.

Lemma expired_without_refresh_credential_witness :
  let w := fresh (<["access_token" := "A0"]> ∅) in
  let r := run (Auth.request agents_url no_options) [Resp 401 None] w in
  r.2 = Done (Raised (Error "Unauthorized"))
  /\ location r.1 = Some "/login"
  /\ storage r.1 = storage w
  /\ exists h, sent r.1 = sent w ++ [Auth.call agents_url no_options h].
Proof.
  apply (expired_without_refresh_credential agents_url no_options None []
           (fresh (<["access_token" := "A0"]> ∅))).
  reflexivity.
Defined.

(* ====================================================================== *)
(** ** Whose headers win *)
(* ====================================================================== *)




(* ====================================================================== *)
(** ** The gateway of utils/apiClient.js *)
(* ====================================================================== *)

Lemma run_client (endpoint : string) (options : Options) (x : Response)
    (answers : list Response) (w : World) :
  present (storage w !! "access_token") = true ->
  run (ApiClient.request endpoint options) (x :: answers) w
  = fold_left resume answers
      (resume (advance (ApiClient.request endpoint options) w) x).
Proof. reflexivity. Qed.





(* ====================================================================== *)
(** ** JSON text of strings: what is written is read back *)
(* ====================================================================== *)

Lemma chr_code (c : ascii) : chr (code c) = c.
Proof. apply ascii_N_embedding. Qed.

Lemma of_codes_codes (s : string) : of_codes (codes s) = s.
Proof.
  unfold of_codes, codes. rewrite map_map.
  rewrite (map_ext _ id) by (intros c; apply chr_code).
  rewrite map_id. apply string_of_list_ascii_of_string.
Qed.

Lemma parse_str_quote_char (c : ascii) (rest : list ascii) (out : list N) :
  parse_str (quote_char (code c) ++ rest) None out
  = parse_str rest None (out ++ [code c]).
Proof.
  destruct c as [[] [] [] [] [] [] [] []]; reflexivity.
Qed.


Lemma parse_str_quoted (s : string) (rest : list ascii) (out : list N) :
  parse_str (quoted s ++ DQ :: rest) None out = Some (of_codes (out ++ codes s), rest).
Proof.
  unfold quoted, codes. revert out.
  induction (list_ascii_of_string s) as [|c cs IH]; intros out; simpl.
  - reflexivity.
  - rewrite <- app_assoc. rewrite parse_str_quote_char, IH.
    rewrite <- app_assoc. reflexivity.
Qed.

Lemma list_ascii_of_string_app (a b : string) :
  list_ascii_of_string (a +:+ b) = list_ascii_of_string a ++ list_ascii_of_string b.
Proof. induction a as [|c a IH]; simpl; [reflexivity|]. rewrite IH. reflexivity. Qed.

Lemma list_quote (s : string) :
  list_ascii_of_string (quote s) = DQ :: quoted s ++ [DQ].
Proof. unfold quote. rewrite list_ascii_of_string_of_list_ascii. reflexivity. Qed.

Lemma parse_value_string (f : nat) (s : string) (rest : list ascii) :
  parse_value (S f) (DQ :: quoted s ++ DQ :: rest) = Some (VStr s, rest).
Proof.
  simpl. rewrite parse_str_quoted. simpl. rewrite of_codes_codes. reflexivity.
Qed.

Lemma parse_member_more (f : nat) (k v : string) (rest : list ascii)
    (acc : list (string * value)) :
  parse_members (S (S f))
    (DQ :: quoted k ++ DQ :: ":"%char :: DQ :: quoted v ++ DQ :: ","%char :: rest) acc
  = parse_members (S f) rest (set_field k (VStr v) acc).
Proof.
  set (R := parse_members (S f) rest).
  simpl. rewrite parse_str_quoted. simpl. rewrite parse_str_quoted. simpl.
  rewrite !of_codes_codes. reflexivity.
Qed.

Lemma parse_member_last (f : nat) (k v : string) (rest : list ascii)
    (acc : list (string * value)) :
  parse_members (S (S f))
    (DQ :: quoted k ++ DQ :: ":"%char :: DQ :: quoted v ++ DQ :: "}"%char :: rest) acc
  = Some (VObj (set_field k (VStr v) acc), rest).
Proof.
  simpl. rewrite parse_str_quoted. simpl. rewrite parse_str_quoted. simpl.
  rewrite !of_codes_codes. reflexivity.
Qed.

(** The text of an object of two string properties. *)
Lemma list_stringify_pair (k1 k2 a b : string) :
  list_ascii_of_string
    (default "undefined" (JSON_stringify (VObj [(k1, VStr a); (k2, VStr b)])))
  = "{"%char :: DQ :: quoted k1 ++ DQ :: ":"%char :: DQ :: quoted a ++ DQ :: ","%char
      :: DQ :: quoted k2 ++ DQ :: ":"%char :: DQ :: quoted b ++ DQ :: ["}"%char].
Proof.
  cbn -[quote String.append].
  rewrite !list_ascii_of_string_app, !list_quote. simpl.
  repeat (rewrite <- app_assoc; simpl). reflexivity.
Qed.

(** [JSON.parse(JSON.stringify({k1: a, k2: b}))] for strings [a], [b]. *)
Lemma parse_stringify_pair (k1 k2 a b : string) :
  JSON_parse (default "undefined" (JSON_stringify (VObj [(k1, VStr a); (k2, VStr b)])))
  = Some (VObj (set_field k2 (VStr b) [(k1, VStr a)])).
Proof.
  unfold JSON_parse. rewrite list_stringify_pair.
  set (r := DQ :: quoted k1 ++ _).
  replace (2 * List.length ("{"%char :: r) + 2)%nat
    with (S (S (S (S (2 * List.length r)))))%nat by (simpl; lia).
  assert (Hr : skip_ws r = r) by reflexivity.
  change (parse_value (S (S (S (S (2 * List.length r))))) ("{"%char :: r))
    with (match skip_ws r with
          | "}"%char :: r' => Some (VObj [], r')
          | r' => parse_members (S (S (S (2 * List.length r)))) r' []
          end).
  rewrite Hr. subst r. cbv iota beta.
  rewrite parse_member_more, parse_member_last. reflexivity.
Qed.

(* ====================================================================== *)
(** ** The tenant binding, from the store to the request *)
(* ====================================================================== *)







(* ====================================================================== *)
(** ** Base64: what [btoa] writes, [atob] reads back *)
(* ====================================================================== *)

Lemma b64_val_chr (n : N) : (n < 64)%N -> b64_val (b64_chr n) = Some n.
Proof.
  intros H. destruct n as [|p]; [reflexivity|].
  do 6 (destruct p as [p|p|]; try reflexivity); exfalso; lia.
Qed.

Lemma b64_chr_not_space (n : N) : (n < 64)%N -> is_b64_space (b64_chr n) = false.
Proof.
  intros H. destruct n as [|p]; [reflexivity|].
  do 6 (destruct p as [p|p|]; try reflexivity); exfalso; lia.
Qed.

Lemma b64_chr_not_pad (n : N) : (n < 64)%N -> Ascii.eqb (b64_chr n) "=" = false.
Proof.
  intros H. destruct n as [|p]; [reflexivity|].
  do 6 (destruct p as [p|p|]; try reflexivity); exfalso; lia.
Qed.

Lemma sextet_bounds (a b : N) :
  (a < 256 -> b < 256 ->
   a / 4 < 64 /\ a mod 4 * 16 < 64 /\ a mod 4 * 16 + b / 16 < 64
   /\ b mod 16 * 4 < 64 /\ b mod 16 * 4 + a / 64 < 64 /\ a mod 64 < 64)%N.
Proof.
  intros Ha Hb.
  zify. Z.to_euclidean_division_equations. lia.
Qed.

Lemma div_add_small (k r q : N) : (0 < k -> q < k -> (r * k + q) / k = r)%N.
Proof.
  intros Hk Hq. rewrite N.div_add_l by lia. rewrite N.div_small by exact Hq. lia.
Qed.

Lemma mod_add_small (k r q : N) : (0 < k -> q < k -> (r * k + q) mod k = q)%N.
Proof.
  intros Hk Hq. rewrite N.add_comm, N.Div0.mod_add. apply N.mod_small. exact Hq.
Qed.

Lemma group1 (a : N) : (a < 256 -> (a / 4 * 4 + a mod 4 * 16 / 16) mod 256 = a)%N.
Proof.
  intros Ha. rewrite N.div_mul by discriminate.
  pose proof (N.div_mod' a 4). rewrite N.mod_small; lia.
Qed.

Lemma group2 (a b : N) :
  (a < 256 -> b < 256 ->
   (a / 4 * 4 + (a mod 4 * 16 + b / 16) / 16) mod 256 = a
   /\ ((a mod 4 * 16 + b / 16) * 16 + b mod 16 * 4 / 4) mod 256 = b)%N.
Proof.
  intros Ha Hb.
  assert (H16 : (b / 16 < 16)%N) by (apply N.Div0.div_lt_upper_bound; lia).
  pose proof (N.div_mod' a 4). pose proof (N.div_mod' b 16).
  pose proof (N.mod_upper_bound b 16 ltac:(discriminate)).
  rewrite (div_add_small 16) by lia. rewrite N.div_mul by discriminate.
  split.
  - rewrite N.mod_small; lia.
  - replace ((a mod 4 * 16 + b / 16) * 16 + b mod 16)%N
      with (a mod 4 * 256 + b)%N by lia.
    apply mod_add_small; lia.
Qed.

Lemma group3 (a b c : N) :
  (a < 256 -> b < 256 -> c < 256 ->
   (a / 4 * 4 + (a mod 4 * 16 + b / 16) / 16) mod 256 = a
   /\ ((a mod 4 * 16 + b / 16) * 16 + (b mod 16 * 4 + c / 64) / 4) mod 256 = b
   /\ ((b mod 16 * 4 + c / 64) * 64 + c mod 64) mod 256 = c)%N.
Proof.
  intros Ha Hb Hc.
  assert (H16 : (b / 16 < 16)%N) by (apply N.Div0.div_lt_upper_bound; lia).
  assert (H64 : (c / 64 < 4)%N) by (apply N.Div0.div_lt_upper_bound; lia).
  pose proof (N.div_mod' a 4). pose proof (N.div_mod' b 16).
  pose proof (N.div_mod' c 64).
  rewrite (div_add_small 16) by lia. rewrite (div_add_small 4) by lia.
  split; [|split].
  - rewrite N.mod_small; lia.
  - replace ((a mod 4 * 16 + b / 16) * 16 + b mod 16)%N
      with (a mod 4 * 256 + b)%N by lia.
    apply mod_add_small; lia.
  - replace ((b mod 16 * 4 + c / 64) * 64 + c mod 64)%N
      with (b mod 16 * 256 + c)%N by lia.
    apply mod_add_small; lia.
Qed.

Lemma list_ind3 {A} (P : list A -> Prop) :
  P [] -> (forall a, P [a]) -> (forall a b, P [a; b]) ->
  (forall a b c rest, P rest -> P (a :: b :: c :: rest)) ->
  forall l, P l.
Proof.
  intros H0 H1 H2 H3.
  assert (H : forall l, P l /\ (forall a, P (a :: l)) /\ (forall a b, P (a :: b :: l))).
  { induction l as [|x l (IH0 & IH1 & IH2)].
    - auto.
    - split; [apply IH1|]. split; [intros a; apply IH2|].
      intros a b. apply H3. exact IH0. }
  intros l. apply H.
Qed.

Lemma sextets_bounded (bs : list N) :
  octets bs -> Forall (fun v => (v < 64)%N) (b64_sextets bs).
Proof.
  unfold octets. induction bs as [| a | a b | a b c rest IH] using list_ind3; intros H.
  - constructor.
  - inversion H as [|? ? Ha _]; subst.
    destruct (sextet_bounds a a Ha Ha) as (? & ? & ? & ? & ? & ?).
    simpl. repeat constructor; assumption.
  - inversion H as [|? ? Ha H']; subst. inversion H' as [|? ? Hb _]; subst.
    destruct (sextet_bounds a b Ha Hb) as (? & ? & ? & ? & ? & ?).
    simpl. repeat constructor; assumption.
  - inversion H as [|? ? Ha H']; subst. inversion H' as [|? ? Hb H'']; subst.
    inversion H'' as [|? ? Hc Hr]; subst.
    destruct (sextet_bounds a b Ha Hb) as (? & ? & ? & ? & ? & ?).
    destruct (sextet_bounds c b Hc Hb) as (? & ? & ? & ? & ? & ?).
    simpl. repeat (constructor; [assumption|]). apply IH. exact Hr.
Qed.

Lemma groups_sextets (bs : list N) :
  octets bs -> b64_groups (b64_sextets bs) = Some bs.
Proof.
  unfold octets. induction bs as [| a | a b | a b c rest IH] using list_ind3; intros H.
  - reflexivity.
  - inversion H as [|? ? Ha _]; subst. simpl. rewrite (group1 a Ha). reflexivity.
  - inversion H as [|? ? Ha H']; subst. inversion H' as [|? ? Hb _]; subst.
    destruct (group2 a b Ha Hb) as (E1 & E2). simpl. rewrite E1, E2. reflexivity.
  - inversion H as [|? ? Ha H']; subst. inversion H' as [|? ? Hb H'']; subst.
    inversion H'' as [|? ? Hc Hr]; subst.
    destruct (group3 a b c Ha Hb Hc) as (E1 & E2 & E3).
    change (b64_sextets (a :: b :: c :: rest))
      with (a / 4 :: a mod 4 * 16 + b / 16 :: b mod 16 * 4 + c / 64 :: c mod 64
              :: b64_sextets rest)%N.
    cbn [b64_groups]. rewrite (IH Hr), E1, E2, E3. reflexivity.
Qed.

Lemma mapM_val_chr (vs : list N) :
  Forall (fun v => (v < 64)%N) vs -> mapM b64_val (map b64_chr vs) = Some vs.
Proof.
  induction 1 as [|v vs Hv _ IH]; [reflexivity|].
  simpl. rewrite (b64_val_chr v Hv). simpl. rewrite IH. reflexivity.
Qed.

Lemma encode_split (bs : list N) :
  b64_encode bs = map b64_chr (b64_sextets bs) ++ b64_pad bs.
Proof.
  induction bs as [| a | a b | a b c rest IH] using list_ind3; try reflexivity.
  change (b64_encode (a :: b :: c :: rest))
    with (b64_chr (a / 4) :: b64_chr (a mod 4 * 16 + b / 16)
            :: b64_chr (b mod 16 * 4 + c / 64) :: b64_chr (c mod 64)
            :: b64_encode rest)%N.
  rewrite IH. reflexivity.
Qed.

Lemma encode_length (bs : list N) : (List.length (b64_encode bs) mod 4 = 0)%nat.
Proof.
  induction bs as [| a | a b | a b c rest IH] using list_ind3; try reflexivity.
  change (b64_encode (a :: b :: c :: rest))
    with ([b64_chr (a / 4); b64_chr (a mod 4 * 16 + b / 16);
           b64_chr (b mod 16 * 4 + c / 64); b64_chr (c mod 64)]
            ++ b64_encode rest)%N.
  rewrite length_app.
  change (List.length [b64_chr (a / 4); b64_chr (a mod 4 * 16 + b / 16);
                       b64_chr (b mod 16 * 4 + c / 64); b64_chr (c mod 64)]%N)
    with (1 * 4)%nat.
  rewrite Nat.add_comm, Nat.Div0.mod_add. exact IH.
Qed.

Lemma pad_cases (bs : list N) :
  b64_pad bs = [] \/ b64_pad bs = ["="%char] \/ b64_pad bs = ["="%char; "="%char].
Proof.
  induction bs as [| a | a b | a b c rest IH] using list_ind3; simpl; auto.
Qed.

(** [strip_padding] by comparisons rather than by patterns. *)
Lemma strip_padding_spec (cs : list ascii) :
  strip_padding cs
  = if (List.length cs mod 4 =? 0)%nat then
      match rev cs with
      | x :: rv =>
          if Ascii.eqb x "=" then
            match rv with
            | y :: r => if Ascii.eqb y "=" then rev r else rev rv
            | [] => []
            end
          else cs
      | [] => cs
      end
    else cs.
Proof.
  unfold strip_padding. destruct (_ =? _)%nat; [|reflexivity].
  destruct (rev cs) as [|x rv]; [reflexivity|].
  destruct x as [[] [] [] [] [] [] [] []]; try reflexivity.
  destruct rv as [|y r]; [reflexivity|].
  destruct y as [[] [] [] [] [] [] [] []]; reflexivity.
Qed.

Lemma strip_encode (bs : list N) :
  octets bs -> strip_padding (b64_encode bs) = map b64_chr (b64_sextets bs).
Proof.
  intros H. rewrite strip_padding_spec, encode_length. simpl.
  pose proof (sextets_bounded bs H) as Hb.
  assert (Hne : Forall (fun c => Ascii.eqb c "=" = false)
                  (rev (map b64_chr (b64_sextets bs)))).
  { apply Forall_rev. apply Forall_map.
    eapply Forall_impl; [exact Hb|]. intros v Hv. apply b64_chr_not_pad. exact Hv. }
  rewrite encode_split, rev_app_distr.
  set (body := map b64_chr (b64_sextets bs)) in *.
  destruct (pad_cases bs) as [-> | [-> | ->]]; simpl.
  - rewrite app_nil_r. destruct (rev body) as [|x rv]; [reflexivity|].
    inversion Hne as [|? ? Hx _]; subst. rewrite Hx. reflexivity.
  - destruct (rev body) as [|y r] eqn:E.
    + apply (f_equal (@rev ascii)) in E. rewrite rev_involutive in E.
      rewrite E. reflexivity.
    + inversion Hne as [|? ? Hy _]; subst. rewrite Hy.
      rewrite <- E. apply rev_involutive.
  - apply rev_involutive.
Qed.

Lemma filter_id {A} (f : A -> bool) (l : list A) :
  Forall (fun x => f x = true) l -> List.filter f l = l.
Proof.
  induction 1 as [|x l Hx _ IH]; simpl; [reflexivity|]. rewrite Hx, IH. reflexivity.
Qed.

Lemma encode_no_space (bs : list N) :
  octets bs ->
  List.filter (fun c => negb (is_b64_space c)) (b64_encode bs) = b64_encode bs.
Proof.
  intros H. apply filter_id. rewrite encode_split. apply Forall_app. split.
  - apply Forall_map. eapply Forall_impl; [exact (sextets_bounded bs H)|].
    intros v Hv. simpl. rewrite (b64_chr_not_space v Hv). reflexivity.
  - destruct (pad_cases bs) as [-> | [-> | ->]]; repeat constructor.
Qed.

(** [atob(btoa(s))]: decoding what was encoded gives the char codes
    back. *)
Lemma atob_encode (bs : list N) :
  octets bs -> atob (string_of_list_ascii (b64_encode bs)) = Some bs.
Proof.
  intros H. unfold atob.
  rewrite list_ascii_of_string_of_list_ascii, (encode_no_space bs H),
    (strip_encode bs H), (mapM_val_chr _ (sextets_bounded bs H)).
  apply (groups_sextets bs H).
Qed.

(* ====================================================================== *)
(** ** The invitation handshake: the state that is sent is the state
       that is read *)
(* ====================================================================== *)

Lemma to_latin1_ascii (l : list N) :
  forallb (fun n => (n <? 128)%N) l = true -> to_latin1 l = Some l.
Proof.
  induction l as [|b l IH]; simpl; [reflexivity|].
  intros H. apply andb_true_iff in H as [Hb Hl].
  rewrite Hb, (IH Hl). reflexivity.
Qed.

Lemma of_latin1_ascii (l : list N) :
  forallb (fun n => (n <? 128)%N) l = true -> of_latin1 l = of_codes l.
Proof.
  unfold of_latin1. intros H. f_equal.
  induction l as [|b l IH]; simpl; [reflexivity|].
  simpl in H. apply andb_true_iff in H as [Hb Hl].
  unfold utf8_encode at 1. rewrite Hb, (IH Hl). reflexivity.
Qed.

Lemma ascii_octets (l : list N) :
  forallb (fun n => (n <? 128)%N) l = true -> octets l.
Proof.
  intros H. apply List.Forall_forall. intros n Hn.
  rewrite forallb_forall in H. specialize (H n Hn).
  apply N.ltb_lt in H. lia.
Qed.

Lemma quote_char_ascii (n : N) :
  (n <? 128)%N = true ->
  forallb (fun n => (n <? 128)%N) (map code (quote_char n)) = true.
Proof.
  intros H. apply N.ltb_lt in H. destruct n as [|p]; [reflexivity|].
  do 7 (destruct p as [p|p|]; try reflexivity); exfalso; lia.
Qed.

Lemma quoted_ascii (s : string) :
  ascii_only s = true ->
  forallb (fun n => (n <? 128)%N) (map code (quoted s)) = true.
Proof.
  unfold ascii_only, quoted. induction (codes s) as [|n l IH]; simpl; [reflexivity|].
  intros H. apply andb_true_iff in H as [Hn Hl].
  rewrite map_app, forallb_app, (quote_char_ascii n Hn), (IH Hl). reflexivity.
Qed.

(** The JSON text of an object of two ASCII strings under ASCII keys is
    ASCII. *)
Lemma stringify_pair_ascii (k1 k2 a b : string) :
  ascii_only k1 = true -> ascii_only k2 = true ->
  ascii_only a = true -> ascii_only b = true ->
  ascii_only (default "undefined"
                (JSON_stringify (VObj [(k1, VStr a); (k2, VStr b)]))) = true.
Proof.
  intros H1 H2 Ha Hb.
  change (forallb (fun n => (n <? 128)%N)
            (map code (list_ascii_of_string
                         (default "undefined"
                            (JSON_stringify (VObj [(k1, VStr a); (k2, VStr b)])))))
          = true).
  rewrite list_stringify_pair.
  repeat (cbn [map forallb app]; rewrite ?map_app, ?forallb_app).
  rewrite (quoted_ascii k1 H1), (quoted_ascii k2 H2),
    (quoted_ascii a Ha), (quoted_ascii b Hb).
  reflexivity.
Qed.

Lemma encode_not_empty (bs : list N) :
  bs <> [] -> String.eqb (string_of_list_ascii (b64_encode bs)) "" = false.
Proof.
  destruct bs as [|a [|b [|c rest]]]; [congruence|reflexivity..].
Qed.

(** [JSON.parse(atob(btoa(JSON.stringify({k1: a, k2: b}))))], all
    ASCII. *)
Lemma decode_encoded_pair (k1 k2 a b : string) :
  ascii_only k1 = true -> ascii_only k2 = true ->
  ascii_only a = true -> ascii_only b = true ->
  let text := default "undefined"
                (JSON_stringify (VObj [(k1, VStr a); (k2, VStr b)])) in
  exists s,
    btoa text = Some s
    /\ String.eqb s "" = false
    /\ atob s = Some (codes text)
    /\ JSON_parse (of_latin1 (codes text))
       = Some (VObj (set_field k2 (VStr b) [(k1, VStr a)])).
Proof.
  intros H1 H2 Ha Hb text.
  pose proof (stringify_pair_ascii k1 k2 a b H1 H2 Ha Hb) as Ht.
  fold text in Ht. unfold ascii_only in Ht.
  exists (string_of_list_ascii (b64_encode (codes text))).
  split; [|split; [|split]].
  - unfold btoa. rewrite (to_latin1_ascii _ Ht). reflexivity.
  - apply encode_not_empty. unfold codes, text.
    rewrite list_stringify_pair. discriminate.
  - apply atob_encode, ascii_octets, Ht.
  - rewrite (of_latin1_ascii _ Ht), of_codes_codes. apply parse_stringify_pair.
Qed.

(** X17: the state handleSsoLogin sends is the state handleCallback
    reads.  For an invitation token and an origin of ASCII characters,
    building the state does not throw, and decoding it in the callback
    gives the invitation token back; when the token is not empty the
    backend is called with exactly that token. *)
Theorem invitation_state_round_trip (t origin code : string) :
  ascii_only t = true -> ascii_only origin = true ->
  exists s,
    AcceptInvitationPage.build_state (VStr t) origin = Returned s
    /\ SSOCallbackPage.invitation_token_of (Some s) = VStr t
    /\ (t <> "" ->
        SSOCallbackPage.callbackUrl code (SSOCallbackPage.invitation_token_of (Some s))
        = "/api/v1/auth/sso/callback?code=" +:+ encodeURIComponent code
            +:+ "&invitation_token=" +:+ encodeURIComponent t).
Proof.
  intros Ht Ho.
  destruct (decode_encoded_pair "invitation_token" "return_url" t origin
              eq_refl eq_refl Ht Ho) as (s & Hb & Hs & Ha & Hp).
  assert (Hi : SSOCallbackPage.invitation_token_of (Some s) = VStr t).
  { unfold SSOCallbackPage.invitation_token_of, present.
    rewrite Hs, Ha. cbn [negb or_raise rbind]. rewrite Hp. reflexivity. }
  exists s. split; [|split].
  - unfold AcceptInvitationPage.build_state. rewrite Hb. reflexivity.
  - exact Hi.
  - intros Hne. rewrite Hi. unfold SSOCallbackPage.callbackUrl. simpl.
    destruct (String.eqb_spec t ""); [contradiction|reflexivity].
Qed.

Lemma invitation_state_round_trip_witness :
  exists s,
    AcceptInvitationPage.build_state (VStr "T1") "http://localhost:3000" = Returned s
    /\ SSOCallbackPage.invitation_token_of (Some s) = VStr "T1"
    /\ ("T1" <> "" ->
        SSOCallbackPage.callbackUrl "c1" (SSOCallbackPage.invitation_token_of (Some s))
        = "/api/v1/auth/sso/callback?code=" +:+ encodeURIComponent "c1"
            +:+ "&invitation_token=" +:+ encodeURIComponent "T1").
Proof.
  apply (invitation_state_round_trip "T1" "http://localhost:3000" "c1"); reflexivity.
Defined.

(* ====================================================================== *)
(** ** The earlier handshake: a state the callback cannot read *)
(* ====================================================================== *)

Lemma strip_padding_cases (cs : list ascii) :
  strip_padding cs = cs
  \/ cs = strip_padding cs ++ ["="%char]
  \/ cs = strip_padding cs ++ ["="%char; "="%char].
Proof.
  rewrite strip_padding_spec. destruct (_ =? _)%nat; [|auto].
  destruct (rev cs) as [|x rv] eqn:E; [auto|].
  apply (f_equal (@rev ascii)) in E. rewrite rev_involutive in E. simpl in E.
  destruct (Ascii.eqb_spec x "=") as [->|_]; [|auto].
  destruct rv as [|y r]; [right; left; exact E|].
  destruct (Ascii.eqb_spec y "=") as [->|_].
  - right. right. rewrite E. simpl. rewrite <- app_assoc. reflexivity.
  - right. left. exact E.
Qed.

(** A string whose first character is outside the base64 alphabet is
    refused by [atob]. *)
Lemma atob_invalid_head (c : ascii) (s : string) :
  b64_val c = None -> is_b64_space c = false -> Ascii.eqb c "=" = false ->
  atob (String c s) = None.
Proof.
  intros Hv Hs Hp. unfold atob. simpl. rewrite Hs. simpl.
  set (l := List.filter _ _).
  assert (H : exists l', strip_padding (c :: l) = c :: l').
  { destruct (strip_padding_cases (c :: l)) as [E | [E | E]].
    - rewrite E. eauto.
    - destruct (strip_padding (c :: l)) as [|c' l'].
      + simpl in E. injection E as E _. rewrite E in Hp. discriminate.
      + simpl in E. injection E as E _. subst c'. eauto.
    - destruct (strip_padding (c :: l)) as [|c' l'].
      + simpl in E. injection E as E _. rewrite E in Hp. discriminate.
      + simpl in E. injection E as E _. subst c'. eauto. }
  destruct H as (l' & ->). simpl. rewrite Hv. reflexivity.
Qed.

Lemma state_text_head (invitationToken : value) :
  exists rest, AcceptInvitationPage_first.state_text invitationToken = String "{" rest.
Proof. unfold AcceptInvitationPage_first.state_text. simpl. eauto. Qed.

Lemma string_app_assoc (a b c : string) : (a +:+ b) +:+ c = a +:+ (b +:+ c).
Proof.
  induction a as [|x a IH]; [reflexivity|].
  change (String x ((a +:+ b) +:+ c) = String x (a +:+ (b +:+ c))).
  rewrite IH. reflexivity.
Qed.

Lemma string_app_nil_r (a : string) : a +:+ "" = a.
Proof.
  induction a as [|x a IH]; [reflexivity|].
  change (String x (a +:+ "") = String x a). rewrite IH. reflexivity.
Qed.

(** X18: the two revisions of the handshake do not fit together.  For an
    invitation token as the page reads it from its URL ([null] or
    well-formed text), an origin and a code that are well-formed text,
    and a provider whose alias, if it has one, is a boolean or a string:
    the earlier handleSsoLogin puts percent-encoded JSON text, not
    base64, into the [state] parameter of the URL it navigates to;
    handleCallback never decodes it: whether the state comes back as the
    JSON text or still percent-encoded, the callback finds no invitation
    token in it and calls the backend with the code alone. *)
Theorem first_revision_state_is_dropped
    (invitationToken provider : value) (origin code : string) (w : World) :
  token_param invitationToken = true ->
  encodable origin = true ->
  encodable code = true ->
  plain_alias provider = true ->
  let text := AcceptInvitationPage_first.state_text invitationToken in
  (exists pre suf,
      location (advance (AcceptInvitationPage_first.handleSsoLogin
                           invitationToken origin provider) w).1
      = Some (pre +:+ "state=" +:+ encodeURIComponent text +:+ suf))
  /\ SSOCallbackPage.invitation_token_of (Some text) = VNull
  /\ SSOCallbackPage.invitation_token_of (Some (encodeURIComponent text)) = VNull
  /\ SSOCallbackPage.callbackUrl code (SSOCallbackPage.invitation_token_of (Some text))
     = "/api/v1/auth/sso/callback?code=" +:+ encodeURIComponent code.
Proof.
  intros _ _ _ _. cbv zeta. split.
  { exists ("http://localhost:8080/realms/agentic/protocol/openid-connect/auth?"
            +:+ "client_id=agentic-api&" +:+ "redirect_uri="
            +:+ encodeURIComponent (origin +:+ "/auth/callback") +:+ "&"
            +:+ "response_type=code&" +:+ "scope=openid email profile&").
    unfold AcceptInvitationPage_first.handleSsoLogin.
    destruct (truthy provider && truthy (opt_get provider "alias")).
    - exists ("&kc_idp_hint=" +:+ to_string (opt_get provider "alias")).
      cbn [advance act apply location fst]. f_equal.
      rewrite !string_app_assoc. reflexivity.
    - exists "". cbn [advance act apply location fst]. f_equal.
      rewrite string_app_nil_r, !string_app_assoc. reflexivity. }
  destruct (state_text_head invitationToken) as (rest & ->).
  assert (H1 : SSOCallbackPage.invitation_token_of (Some (String "{" rest)) = VNull).
  { unfold SSOCallbackPage.invitation_token_of.
    rewrite atob_invalid_head by reflexivity. reflexivity. }
  split; [exact H1|]. split; [|rewrite H1; reflexivity].
  unfold SSOCallbackPage.invitation_token_of.
  change (encodeURIComponent (String "{" rest))
    with (String "%" (String "7" (String "B" (encodeURIComponent rest)))).
  rewrite atob_invalid_head by reflexivity. reflexivity.
Qed.

Lemma first_revision_state_is_dropped_witness :
  let provider := VObj [("alias", VStr "google")] in
  let w := fresh ∅ in
  let text := AcceptInvitationPage_first.state_text (VStr "inv-123") in
  (exists pre suf,
      location (advance (AcceptInvitationPage_first.handleSsoLogin
                           (VStr "inv-123") "http://localhost:3000" provider) w).1
      = Some (pre +:+ "state=" +:+ encodeURIComponent text +:+ suf))
  /\ SSOCallbackPage.invitation_token_of (Some text) = VNull
  /\ SSOCallbackPage.invitation_token_of (Some (encodeURIComponent text)) = VNull
  /\ SSOCallbackPage.callbackUrl "c1" (SSOCallbackPage.invitation_token_of (Some text))
     = "/api/v1/auth/sso/callback?code=" +:+ encodeURIComponent "c1".
Proof.
  apply (first_revision_state_is_dropped (VStr "inv-123")
           (VObj [("alias", VStr "google")]) "http://localhost:3000" "c1" (fresh ∅));
    reflexivity.
Defined.

(* ====================================================================== *)
(** ** Roles and the route guard *)
(* ====================================================================== *)

Lemma some_existsb (f : string -> Result bool) (g : string -> bool) (roles : list string) :
  (forall role, f role = Returned (g role)) -> some f roles = Returned (existsb g roles).
Proof.
  intros H. induction roles as [|r rest IH]; simpl; [reflexivity|].
  rewrite H. simpl. destruct (g r); [reflexivity|exact IH].
Qed.

Lemma includes_array (xs : list value) (role : string) :
  existsb (fun x => match x with
                    | VStr s => String.eqb s role
                    | _ => false
                    end) xs = true
  <-> In (VStr role) xs.
Proof.
  rewrite existsb_exists. split.
  - intros (x & Hx & E). destruct x; try discriminate.
    apply String.eqb_eq in E. subst. exact Hx.
  - intros H. exists (VStr role). split; [exact H|]. apply String.eqb_refl.
Qed.

Lemma isAdmin_array (user : value) (roles : list value) :
  opt_get user "roles" = VArr roles ->
  exists b, isAdmin user = Returned b
            /\ (b = true <-> exists r, In r adminRoles /\ In (VStr r) roles).
Proof.
  intros H. unfold isAdmin.
  rewrite (some_existsb _
             (fun role => existsb (fun x => match x with
                                            | VStr s => String.eqb s role
                                            | _ => false
                                            end) roles)).
  - eexists. split; [reflexivity|]. rewrite existsb_exists. split.
    + intros (r & Hr & E). exists r. split; [exact Hr|].
      apply includes_array. exact E.
    + intros (r & Hr & Hin). exists r. split; [exact Hr|].
      apply includes_array. exact Hin.
  - intros role. unfold hasRole. rewrite H. reflexivity.
Qed.

(** X19: the route guard, for a user whose roles are an array of
    strings (or booleans or nulls).  ProtectedRoute never throws; an
    admin route shows its children exactly when loading is over, there is
    a user, and one of the five admin role names is, as that exact
    string, among the roles; a route that does not require admin shows
    them to any user. *)
Theorem admin_route_guard (user : value) (roles : list value) (loading : bool) :
  opt_get user "roles" = VArr roles ->
  forallb plain roles = true ->
  (forall requireAdmin, exists v, ProtectedRoute user loading requireAdmin = Returned v)
  /\ (ProtectedRoute user loading true = Returned Children
      <-> loading = false /\ truthy user = true
          /\ exists r, In r adminRoles /\ In (VStr r) roles)
  /\ (ProtectedRoute user loading false = Returned Children
      <-> loading = false /\ truthy user = true).
Proof.
  intros H _. destruct (isAdmin_array user roles H) as (b & Hb & Hiff).
  assert (Hl : exists line, roles_line user = Returned line).
  { unfold roles_line. rewrite H. eauto. }
  destruct Hl as (line & Hl).
  split; [|split].
  - intros requireAdmin. unfold ProtectedRoute.
    destruct loading; [eauto|]. destruct (truthy user); simpl; [|eauto].
    destruct requireAdmin; [|eauto]. rewrite Hb. simpl.
    destruct b; [eauto|]. rewrite Hl. simpl. eauto.
  - unfold ProtectedRoute. destruct loading; simpl.
    { split; [discriminate|intros [? _]; discriminate]. }
    destruct (truthy user); simpl.
    2: { split; [discriminate|intros (_ & ? & _); discriminate]. }
    rewrite Hb. simpl. destruct b.
    + split; [intros _; repeat split; apply Hiff; reflexivity|reflexivity].
    + rewrite Hl. simpl. split; [discriminate|].
      intros (_ & _ & Hex). apply Hiff in Hex. discriminate.
  - unfold ProtectedRoute. destruct loading; simpl.
    { split; [discriminate|intros [? _]; discriminate]. }
    destruct (truthy user); simpl.
    + split; [auto|reflexivity].
    + split; [discriminate|intros [_ ?]; discriminate].
Qed.

Lemma admin_route_guard_witness :
  let user := VObj [("roles", VArr [VStr "USER"; VStr "admin"])] in
  (forall requireAdmin, exists v, ProtectedRoute user false requireAdmin = Returned v)
  /\ (ProtectedRoute user false true = Returned Children
      <-> false = false /\ truthy user = true
          /\ exists r, In r adminRoles /\ In (VStr r) [VStr "USER"; VStr "admin"])
  /\ (ProtectedRoute user false false = Returned Children
      <-> false = false /\ truthy user = true).
Proof.
  apply (admin_route_guard (VObj [("roles", VArr [VStr "USER"; VStr "admin"])])
           [VStr "USER"; VStr "admin"] false); reflexivity.
Defined.

(** X20: roles that are a string, not an array.  [includes] then tests
    containment, so an admin route opens as soon as one of the admin
    role names occurs somewhere in that string, and otherwise the Access
    Denied card throws while rendering its roles line. *)
Theorem string_roles_claim (user : value) (s : string) :
  opt_get user "roles" = VStr s -> s <> "" -> truthy user = true ->
  ProtectedRoute user false true
  = if existsb (fun role => includes_str role s) adminRoles
    then Returned Children
    else Raised (Native TypeError).
Proof.
  intros H Hs Hu. unfold ProtectedRoute, isAdmin. rewrite Hu. simpl negb. cbv iota.
  rewrite (some_existsb _ (fun role => includes_str role s)).
  - cbn [rbind]. destruct (existsb (fun role => includes_str role s) adminRoles);
      [reflexivity|].
    unfold roles_line. rewrite H. reflexivity.
  - intros role. unfold hasRole. rewrite H. unfold or_else. simpl truthy.
    destruct (String.eqb_spec s ""); [contradiction|]. reflexivity.
Qed.

Lemma string_roles_claim_witness :
  ProtectedRoute (VObj [("roles", VStr "not-an-admin")]) false true
  = if existsb (fun role => includes_str role "not-an-admin") adminRoles
    then Returned Children
    else Raised (Native TypeError).
Proof.
  apply (string_roles_claim (VObj [("roles", VStr "not-an-admin")]) "not-an-admin").
  - reflexivity.
  - discriminate.
  - reflexivity.
Defined.

(* ====================================================================== *)
(** ** The axios client of agentBuilderAPI.js *)
(* ====================================================================== *)

Lemma tenantInfo_present (T N : string) :
  present (Some (AuthProvider.tenantInfo (VStr T) (VStr N))) = true.
Proof. reflexivity. Qed.

(** X21: the interceptor of agentBuilderAPI.js reads the tenant entry the
    session code writes: with [JSON.stringify({ slug, name })] of two
    strings under [current_tenant], it sets [X-Tenant-ID] to the slug,
    whatever the other three keys it consults hold. *)
Theorem interceptor_reads_tenant_entry
    (local session : gmap string string) (T N : string) :
  local !! "current_tenant" = Some (AuthProvider.tenantInfo (VStr T) (VStr N)) ->
  exists authorization,
    agentBuilderAPI.interceptor local session = Returned (authorization, Some (VStr T)).
Proof.
  intros H.
  pose proof (parse_stringify_pair "slug" "name" T N) as Hp.
  fold (AuthProvider.tenantInfo (VStr T) (VStr N)) in Hp.
  pose proof (tenantInfo_present T N) as Hpr.
  unfold agentBuilderAPI.interceptor, agentBuilderAPI.first_of.
  rewrite H. remember (AuthProvider.tenantInfo (VStr T) (VStr N)) as e eqn:E.
  repeat (rewrite Hpr; cbn [default from_option id]). rewrite Hp.
  eexists. reflexivity.
Qed.

Lemma interceptor_reads_tenant_entry_witness :
  exists authorization,
    agentBuilderAPI.interceptor
      (<["current_tenant" := AuthProvider.tenantInfo (VStr "acme") (VStr "Acme")]>
         session_store) ∅
    = Returned (authorization, Some (VStr "acme")).
Proof.
  apply (interceptor_reads_tenant_entry
           (<["current_tenant" := AuthProvider.tenantInfo (VStr "acme") (VStr "Acme")]>
              session_store) ∅ "acme" "Acme").
  reflexivity.
Defined.

(** X22: a tenant entry that is not JSON.  The two gateways take such an
    entry as no tenant and send their request without a tenant header of
    their own; the interceptor of agentBuilderAPI.js parses it outside
    any [try] and throws, so no request of that client goes out. *)
Theorem unparsable_tenant_entry
    (local session : gmap string string) (t : string) (options : Options) :
  local !! "current_tenant" = Some t -> t <> "" -> JSON_parse t = None ->
  agentBuilderAPI.interceptor local session = Raised (Native SyntaxError)
  /\ header "X-Tenant-ID" (Auth.first_headers options (local !! "access_token") (Some t))
     = header "X-Tenant-ID" (rev (opt_headers options))
  /\ header "X-Tenant-ID" (client_headers options (local !! "access_token") (Some t))
     = header "X-Tenant-ID" (rev (opt_headers options)).
Proof.
  intros H Hne Hp.
  assert (Hpr : present (Some t) = true).
  { simpl. destruct (String.eqb_spec t ""); [contradiction|reflexivity]. }
  assert (Hst : Auth.stored_tenant (Some t) = VNull).
  { unfold Auth.stored_tenant. rewrite Hp. simpl.
    destruct (_ && _); reflexivity. }
  split; [|split].
  - unfold agentBuilderAPI.interceptor, agentBuilderAPI.first_of.
    rewrite H. repeat (rewrite Hpr; cbn [default from_option id]).
    rewrite Hp. reflexivity.
  - unfold Auth.first_headers. rewrite Hst. cbn [opt_get truthy].
    destruct (present (local !! "access_token")).
    + rewrite header_set_header_ne by reflexivity. rewrite header_spread.
      destruct (header "X-Tenant-ID" (rev (opt_headers options))); reflexivity.
    + rewrite header_spread.
      destruct (header "X-Tenant-ID" (rev (opt_headers options))); reflexivity.
  - unfold client_headers. rewrite Hst. cbn [opt_get truthy].
    rewrite header_spread.
    destruct (header "X-Tenant-ID" (rev (opt_headers options))); reflexivity.
Qed.

Lemma unparsable_tenant_entry_witness :
  let local := <["current_tenant" := "acme"]> session_store in
  agentBuilderAPI.interceptor local ∅ = Raised (Native SyntaxError)
  /\ header "X-Tenant-ID"
       (Auth.first_headers no_options (local !! "access_token") (Some "acme"))
     = header "X-Tenant-ID" (rev (opt_headers no_options))
  /\ header "X-Tenant-ID"
       (client_headers no_options (local !! "access_token") (Some "acme"))
     = header "X-Tenant-ID" (rev (opt_headers no_options)).
Proof.
  apply (unparsable_tenant_entry (<["current_tenant" := "acme"]> session_store) ∅
           "acme" no_options).
  - reflexivity.
  - discriminate.
  - reflexivity.
Defined.

(* ====================================================================== *)
(** ** Calls complete, and send a bounded number of requests *)
(* ====================================================================== *)

Lemma within_mono {A} (n m : nat) (p : Proc A) :
  within n p -> (n <= m)%nat -> within m p.
Proof.
  revert n m. induction p as [v|e|k c IH|a q IH|r c IH]; intros n m H Hm; simpl in *;
    auto.
  - intros x. apply (IH x n); auto.
  - apply (IH n); auto.
  - destruct n as [|n]; [contradiction|]. destruct m as [|m]; [lia|].
    intros x. apply (IH x n); [apply H|lia].
Qed.

Lemma quietly_mono {A} (n m : nat) (p : Proc A) :
  quietly n p -> (n <= m)%nat -> quietly m p.
Proof.
  revert n m. induction p as [v|e|k c IH|a q IH|r c IH]; intros n m H Hm; simpl in *;
    auto.
  - intros x. apply (IH x n); auto.
  - apply (IH n); auto.
  - destruct n as [|n]; [contradiction|]. destruct m as [|m]; [lia|].
    intros x. apply (IH x n); [apply H|lia].
Qed.

Lemma quietly_within {A} (n : nat) (p : Proc A) : quietly n p -> within n p.
Proof.
  revert n. induction p as [v|e|k c IH|a q IH|r c IH]; intros n H; simpl in *; auto.
  destruct n as [|n]; [contradiction|]. intros x. apply IH, H.
Qed.

Lemma within_bind {A B} (n m : nat) (p : Proc A) (f : A -> Proc B) :
  within n p -> (forall v, within m (f v)) -> within (n + m) (bind p f).
Proof.
  revert n. induction p as [v|e|k c IH|a q IH|r c IH]; intros n H Hf; simpl in *.
  - apply (within_mono m); [apply Hf|lia].
  - exact I.
  - intros x. apply IH; auto.
  - apply IH; auto.
  - destruct n as [|n]; [contradiction|]. simpl. intros x. apply IH; auto.
Qed.

Lemma quietly_bind {A B} (n m : nat) (p : Proc A) (f : A -> Proc B) :
  quietly n p -> (forall v, quietly m (f v)) -> quietly (n + m) (bind p f).
Proof.
  revert n. induction p as [v|e|k c IH|a q IH|r c IH]; intros n H Hf; simpl in *.
  - apply (quietly_mono m); [apply Hf|lia].
  - contradiction.
  - intros x. apply IH; auto.
  - apply IH; auto.
  - destruct n as [|n]; [contradiction|]. simpl. intros x. apply IH; auto.
Qed.

(** [try { p } catch { h }] with a handler that does not throw. *)
Lemma quietly_caught {A} (n m : nat) (p : Proc A) (h : exn -> Proc A) :
  within n p -> (forall e, quietly m (h e)) -> quietly (n + m) (try_catch p h).
Proof.
  revert n. induction p as [v|e|k c IH|a q IH|r c IH]; intros n H Hh; simpl in *.
  - exact I.
  - apply (quietly_mono m); [apply Hh|lia].
  - intros x. apply IH; auto.
  - apply IH; auto.
  - destruct n as [|n]; [contradiction|]. simpl. intros x. apply IH; auto.
Qed.

(** A handler around code that does not throw never runs. *)
Lemma quietly_try_catch {A} (n : nat) (p : Proc A) (h : exn -> Proc A) :
  quietly n p -> quietly n (try_catch p h).
Proof.
  revert n. induction p as [v|e|k c IH|a q IH|r c IH]; intros n H; simpl in *; auto.
  - contradiction.
  - destruct n as [|n]; [contradiction|]. intros x. apply IH, H.
Qed.

Lemma quietly_finally {A} (n m : nat) (p : Proc A) (fin : Proc unit) :
  quietly n p -> quietly m fin -> quietly (n + m) (finally p fin).
Proof.
  revert n. induction p as [v|e|k c IH|a q IH|r c IH]; intros n H Hf; simpl in *.
  - apply (quietly_mono (m + 0)); [|lia].
    apply quietly_bind; [exact Hf|]. intros _. exact I.
  - contradiction.
  - intros x. apply IH; auto.
  - apply IH; auto.
  - destruct n as [|n]; [contradiction|]. simpl. intros x. apply IH; auto.
Qed.

Lemma within_bounded {A} (n : nat) (p : Proc A) : within n p -> bounded n p.
Proof.
  revert n. induction p as [v|e|k c IH|a q IH|r c IH]; intros n H answers w;
    simpl in H.
  - unfold run. simpl. rewrite run_done. simpl. split; [eauto|lia].
  - unfold run. simpl. rewrite run_done. simpl. split; [eauto|lia].
  - apply (IH (storage w !! k) n (H _) answers w).
  - destruct (IH n H answers (apply a w)) as [H1 H2]. split; [exact H1|].
    unfold run in *. simpl. destruct a; simpl in *; exact H2.
  - destruct n as [|n]; [contradiction|]. destruct answers as [|x xs].
    + unfold run. simpl. split; [intros Hl; simpl in Hl; lia|].
      rewrite length_app. simpl. lia.
    + destruct (IH x n (H x) xs (dispatch r w)) as [H1 H2].
      rewrite run_cons. simpl. split.
      * intros Hl. apply H1. simpl in Hl. lia.
      * rewrite sent_dispatch, length_app in H2. simpl in H2. lia.
Qed.

Lemma quietly_returns {A} (n : nat) (p : Proc A) (answers : list Response)
    (w : World) (r : Result A) :
  quietly n p -> (run p answers w).2 = Done r -> exists v, r = Returned v.
Proof.
  revert n answers w. induction p as [v|e|k c IH|a q IH|q c IH];
    intros n answers w H E; simpl in H.
  - unfold run in E. simpl in E. rewrite run_done in E. simpl in E.
    exists v. congruence.
  - contradiction.
  - apply (IH (storage w !! k) n answers w (H _)). exact E.
  - apply (IH n answers (apply a w) H). exact E.
  - destruct n as [|n]; [contradiction|]. destruct answers as [|x xs].
    + unfold run in E. simpl in E. discriminate.
    + apply (IH x n xs (dispatch q w) (H x)). rewrite run_cons in E. exact E.
Qed.

Lemma logout_quietly : quietly 1 AuthProvider.logout.
Proof.
  unfold AuthProvider.logout.
  apply (quietly_finally 1 0); [|simpl; exact I].
  apply (quietly_caught 1 0); [|intros _; exact I].
  simpl. intros x. destruct (present x); simpl; auto.
  intros [status body|]; exact I.
Qed.

Lemma use_decoded_quietly (accessToken : value) :
  quietly 1 (AuthProvider.use_decoded accessToken).
Proof.
  unfold AuthProvider.use_decoded.
  destruct (AuthProvider_decode_returns accessToken) as (u & -> & _). simpl.
  destruct (truthy u); [exact I|apply logout_quietly].
Qed.

Lemma refreshAccessToken_quietly : quietly 2 AuthProvider.refreshAccessToken.
Proof.
  unfold AuthProvider.refreshAccessToken, getItem. cbn [bind quietly].
  intros x. destruct (negb (present x)).
  - apply (quietly_mono (1 + 0)); [|lia].
    apply quietly_bind; [apply logout_quietly|]. intros _. exact I.
  - apply (quietly_caught 1 1).
    + simpl. intros [status body|]; simpl; [|exact I].
      destruct (negb (ok status)); simpl; [exact I|].
      destruct body as [data|]; simpl; [|exact I].
      unfold prop. destruct (get data "access_token") as [a|]; simpl; [|exact I].
      destruct (get data "refresh_token") as [b|]; simpl; [|exact I].
      destruct (AuthProvider_decode_returns a) as (u & -> & _). simpl.
      destruct (truthy u); simpl; [|exact I].
      destruct (truthy (opt_get u "tenant")); simpl; exact I.
    + intros _. apply (quietly_mono (1 + 0)); [|lia].
      apply quietly_bind; [apply logout_quietly|]. intros _. exact I.
Qed.

Lemma fetchUserProfile_quietly (accessToken : value) :
  match accessToken with
  | VStr _ | VUndefined | VNull => True
  | _ => False
  end ->
  quietly 3 (AuthProvider.fetchUserProfile accessToken).
Proof.
  intros Hs.
  assert (Hu : quietly 2 (AuthProvider.use_decoded accessToken))
    by (apply (quietly_mono 1); [apply use_decoded_quietly|lia]).
  assert (H : quietly 3
                (finally
                   (try_catch
                      (bind (fetch (mkRequest (API_BASE_URL +:+ "/api/v1/users/me") None
                                      [("Authorization",
                                        "Bearer " +:+ to_string accessToken);
                                       ("Content-Type", "application/json")] None))
                         (fun response =>
                            if ok response.1 then
                              bind (json response.2) (fun userData => act (SetUser userData))
                            else if response.1 =? 401 then
                              bind AuthProvider.refreshAccessToken (fun _ => Ret tt)
                            else AuthProvider.use_decoded accessToken))
                      (fun _ => AuthProvider.use_decoded accessToken))
                   (act (SetLoading false)))).
  { apply (quietly_finally 3 0); [|exact I].
    cbn [fetch bind try_catch quietly]. intros [status body|].
    - cbn [answer bind fst snd]. destruct (ok status).
      + destruct body as [userData|]; cbn [json bind try_catch act quietly];
          [exact I|exact Hu].
      + destruct (status =? 401).
        * apply quietly_try_catch. apply (quietly_bind 2 0);
            [apply refreshAccessToken_quietly|intros _; exact I].
        * apply quietly_try_catch. exact Hu.
    - cbn [answer bind try_catch]. exact Hu. }
  destruct accessToken; try contradiction; exact H.
Qed.

(** [fetchUserProfile(access_token).catch(...)], whatever the credential
    is. *)
Lemma profile_started_quietly (accessToken : value) :
  quietly 3 (try_catch (AuthProvider.fetchUserProfile accessToken) (fun _ => Ret tt)).
Proof.
  destruct accessToken; try exact I;
    apply quietly_try_catch, fetchUserProfile_quietly; exact I.
Qed.

Lemma login_quietly (email password : string) :
  quietly 4 (AuthProvider.login email password).
Proof.
  unfold AuthProvider.login.
  apply (quietly_caught 4 0); [|intros e; exact I].
  cbn [fetch bind within]. intros [status body|]; [|exact I].
  cbn [answer bind fst snd]. destruct (negb (ok status)).
  - destruct body as [error|]; cbn [json bind]; [|exact I].
    unfold prop. destruct (get error "error_description"); exact I.
  - destruct body as [data|]; cbn [json bind]; [|exact I].
    unfold prop. destruct (get data "access_token") as [a|]; cbn [or_raise lift bind];
      [|exact I].
    cbn [setItem act bind within].
    destruct (get data "refresh_token") as [b|]; cbn [or_raise lift bind]; [|exact I].
    cbn [setItem act bind within].
    destruct (AuthProvider_decode_returns a) as (u & -> & _). cbn [lift bind].
    apply (within_bind 0 3).
    + destruct (truthy u); [|exact I]. cbn [act bind within].
      destruct (truthy (opt_get u "tenant")); exact I.
    + intros _. apply (within_mono (3 + 0)); [|lia]. apply within_bind.
      * apply quietly_within, profile_started_quietly.
      * intros _. exact I.
Qed.

Lemma handleCallback_quietly (q : SSOCallbackPage.Params) :
  quietly 1 (SSOCallbackPage.handleCallback q).
Proof.
  unfold SSOCallbackPage.handleCallback.
  apply (quietly_caught 1 0); [|intros e; exact I].
  destruct (present (SSOCallbackPage.p_error q)); [exact I|].
  destruct (negb (present (SSOCallbackPage.p_code q))); [exact I|].
  cbn [act fetch bind within]. intros [status body|]; [|exact I].
  cbn [answer bind]. unfold SSOCallbackPage.complete. cbn [fst snd].
  destruct (negb (ok status)).
  - destruct body as [errorData|]; cbn [json try_catch bind]; unfold prop.
    + destruct (get errorData "detail"); exact I.
    + exact I.
  - destruct body as [data|]; cbn [json bind]; [|exact I].
    cbn [act bind within]. unfold prop.
    destruct (get data "access_token") as [a|]; cbn [or_raise lift bind]; [|exact I].
    cbn [setItem act bind within].
    repeat match goal with
           | |- context [if ?c then _ else _] => destruct c
           end; exact I.
Qed.

(** X23: the session functions complete, and their traffic is bounded.
    login is over once four answers have arrived and never has more than
    four requests out (token, profile, renewal, logout), and four are
    reached; logout needs one, refreshAccessToken two, fetchUserProfile
    three, handleCallback one. *)
Theorem session_calls_complete :
  (forall email password, bounded 4 (AuthProvider.login email password))
  /\ bounded 1 AuthProvider.logout
  /\ bounded 2 AuthProvider.refreshAccessToken
  /\ (forall s, bounded 3 (AuthProvider.fetchUserProfile (VStr s)))
  /\ (forall q, bounded 1 (SSOCallbackPage.handleCallback q))
  /\ List.length
       (sent (run (AuthProvider.login "alice" "secret")
                [granted; Resp 401 None; invalid_grant] (fresh ∅)).1) = 4%nat.
Proof.
  split; [|split; [|split; [|split; [|split]]]]; [| | | | |vm_compute; reflexivity].
  - intros email password. apply within_bounded, quietly_within, login_quietly.
  - apply within_bounded, quietly_within, logout_quietly.
  - apply within_bounded, quietly_within, refreshAccessToken_quietly.
  - intros s. apply within_bounded, quietly_within, fetchUserProfile_quietly. exact I.
  - intros q. apply within_bounded, quietly_within, handleCallback_quietly.
Qed.

(* ====================================================================== *)
(** ** LoginPage: what the form shows after a submit *)
(* ====================================================================== *)

Lemma advance_login_try (email password : string) (w : World) :
  exists k,
    advance (LoginPage.login_try email password) w
    = (dispatch (login_request email password) w, Waiting k)
    /\ (forall x w', grants x = false ->
          advance (k x) w' = (w', Done (Raised (Error (login_failure x))))
          \/ exists e, advance (k x) w' = (w', Done (Raised e))
                       /\ message e = login_failure x)
    /\ (forall status data a w',
          ok status = true -> get data "access_token" = Some a ->
          exists w1,
            advance (k (Resp status (Some data))) w' = (w1, Done (Returned a))
            /\ storage w1 !! "access_token" = Some (to_string a)
            /\ storage w1 !! "refresh_token"
               = Some (to_string (opt_get data "refresh_token"))
            /\ location w1 = location w' /\ sent w1 = sent w').
Proof.
  unfold LoginPage.login_try. simpl. eexists. split; [reflexivity|]. split.
  - intros x w' G. destruct x as [status body|]; simpl.
    + destruct (ok status) eqn:Hok; simpl.
      * destruct body as [data|]; simpl.
        -- simpl in G. rewrite Hok in G. simpl in G. unfold prop.
           destruct (get data "access_token") eqn:Hacc; [discriminate|].
           right. eexists. split; [reflexivity|]. simpl.
           destruct (get data "error_description") eqn:Hd; [|reflexivity].
           rewrite (get_some_all _ _ _ "access_token" Hd) in Hacc. discriminate.
        -- right. eexists. split; reflexivity.
      * destruct body as [error|]; simpl.
        -- unfold prop. destruct (get error "error_description"); simpl.
           ++ left. reflexivity.
           ++ right. eexists. split; reflexivity.
        -- right. eexists. split; reflexivity.
    + right. eexists. split; reflexivity.
  - intros status data a w' Hok Ha. simpl. rewrite Hok. simpl. unfold prop.
    rewrite Ha, (get_some_all _ _ _ "refresh_token" Ha). simpl.
    destruct (AuthProvider_decode_returns a) as (u & -> & _). simpl.
    destruct (truthy u); simpl;
      [destruct (truthy (opt_get u "tenant")); simpl|];
      eexists; (split; [reflexivity|]); simpl;
      repeat split;
      repeat (rewrite lookup_insert_ne by discriminate);
      apply lookup_insert_eq.
Qed.

(** The world login returns in is the world of [AuthProvider.login] once
    the answer to its request is in. *)
Lemma awaited_login_world (email password : string) (x : Response) (w : World) :
  (LoginPage.awaited_login email password x w).1.1
  = (run (AuthProvider.login email password) [x] w).1.
Proof.
  unfold LoginPage.awaited_login, LoginPage.login_try, AuthProvider.login, run,
    resume, start_call.
  simpl. destruct x as [status body|]; simpl; [|reflexivity].
  destruct (ok status); simpl.
  - destruct body as [data|]; simpl; [|reflexivity].
    unfold prop. destruct (get data "access_token") as [a|] eqn:Ha; simpl;
      [|reflexivity].
    rewrite (get_some_all _ _ _ "refresh_token" Ha). simpl.
    destruct (AuthProvider_decode_returns a) as (u & -> & _). simpl.
    destruct (truthy u); simpl;
      [destruct (truthy (opt_get u "tenant")); simpl|];
      destruct a; reflexivity.
  - destruct body as [error|]; simpl; [|reflexivity].
    unfold prop. destruct (get error "error_description"); reflexivity.
Qed.

(** X24: what LoginPage shows after a submit, for an email and a
    password that are well-formed text and an answer of the provider
    whose credentials the store can take as they are (each absent, null,
    a boolean or a string) and whose error description, if any, is a
    boolean or a string.  When the provider does not grant
    credentials the form ends with loading off and an error that is never
    empty, one request was sent, nothing was started and the browser
    stays where it was; when it does, the access credential is stored,
    the form shows no error and the browser is at [/] as soon as login
    has returned, which it does without waiting for the profile call it
    has started. *)
Theorem login_page_outcome
    (email password : string) (x : Response) (w : World) :
  encodable email = true -> encodable password = true ->
  plain_login_answer x = true ->
  let r := LoginPage.handleSubmit email password x w in
  if grants x then
    r.1.2 = LoginPage.mkForm (VStr "") true
    /\ location r.1.1 = Some "/"
    /\ storage r.1.1 !! "access_token"
       = Some (to_string (opt_get (body_of x) "access_token"))
    /\ exists profile, r.2 = Some profile
  else
    r = (dispatch (login_request email password) w,
         LoginPage.mkForm
           (VStr (if String.eqb (login_failure x) "" then "Login failed"
                  else login_failure x))
           false,
         None).
Proof.
  intros _ _ _. cbv zeta. unfold LoginPage.handleSubmit, LoginPage.awaited_login.
  destruct (advance_login_try email password w) as (k & Ha & Hf & Hs).
  rewrite Ha. unfold resume. cbn [fst snd].
  destruct (grants x) eqn:Hg.
  - destruct (grants_inv x Hg) as (status & data & a & -> & Hok & Hacc).
    destruct (Hs status data a (dispatch (login_request email password) w) Hok Hacc)
      as (w1 & -> & Hst & _ & _ & _).
    cbn [fst snd body_of]. rewrite (get_opt_get _ _ _ Hacc).
    assert (Hk : storage (start_call
                            (try_catch (AuthProvider.fetchUserProfile a)
                               (fun _ => Ret tt)) w1).1 = storage w1).
    { unfold start_call, AuthProvider.fetchUserProfile.
      destruct a; reflexivity. }
    simpl. rewrite Hk. repeat split; [exact Hst|eauto].
  - destruct (Hf x (dispatch (login_request email password) w) Hg)
      as [-> | (e & -> & He)].
    + simpl. unfold or_else. simpl.
      destruct (String.eqb (login_failure x) ""); reflexivity.
    + simpl. rewrite He. unfold or_else. simpl.
      destruct (String.eqb (login_failure x) ""); reflexivity.
Qed.

Lemma login_page_outcome_witness :
  let r := LoginPage.handleSubmit "alice" "secret" granted (fresh ∅) in
  r.1.2 = LoginPage.mkForm (VStr "") true
  /\ location r.1.1 = Some "/"
  /\ storage r.1.1 !! "access_token"
     = Some (to_string (opt_get (body_of granted) "access_token"))
  /\ exists profile, r.2 = Some profile.
Proof.
  apply (login_page_outcome "alice" "secret" granted (fresh ∅)); reflexivity.
Defined.

(* ====================================================================== *)
(** ** AcceptInvitationPage: loading the invitation *)
(* ====================================================================== *)

(** X25: fetchInvitationDetails sends one request and is over with its
    answer, whatever that is: it never throws and never leaves the page
    loading.  An ok answer with a body sets the invitation and leaves an
    earlier error in place; any other answer leaves the invitation as it
    was and shows a message that is not empty (404 and 410 have their
    own). *)
Theorem invitation_details_outcome
    (invitationToken : string) (pg : InvitationDetails.Page) (x : Response)
    (answers : list Response) (w : World) :
  exists pg',
    run (InvitationDetails.fetchInvitationDetails invitationToken pg) (x :: answers) w
    = (dispatch (InvitationDetails.details_request invitationToken) w,
       Done (Returned pg'))
    /\ InvitationDetails.pg_loading pg' = false
    /\ match x with
       | Resp status (Some data) =>
           if ok status
           then pg' = InvitationDetails.mkPage false data (InvitationDetails.pg_error pg)
           else pg' = InvitationDetails.mkPage false (InvitationDetails.pg_invitation pg)
                        (VStr (InvitationDetails.refusal x))
       | _ => pg' = InvitationDetails.mkPage false (InvitationDetails.pg_invitation pg)
                      (VStr (InvitationDetails.refusal x))
       end
    /\ InvitationDetails.refusal x <> "".
Proof.
  assert (Hr : InvitationDetails.refusal x <> "").
  { destruct x as [status body|]; simpl; [|discriminate].
    destruct (ok status); [discriminate|].
    destruct (status =? 404); [discriminate|].
    destruct (status =? 410); discriminate. }
  rewrite run_cons. unfold InvitationDetails.fetchInvitationDetails. simpl.
  unfold run. destruct x as [status body|]; simpl.
  - destruct (ok status) eqn:Hok; simpl.
    + destruct body as [data|]; simpl; eexists; rewrite run_done;
        (split; [reflexivity|]); (split; [reflexivity|]); (split; [reflexivity|first [exact Hr|discriminate]]).
    + destruct (status =? 404) eqn:H4; [|destruct (status =? 410) eqn:H5]; simpl;
        eexists; rewrite run_done; (split; [reflexivity|]);
        (split; [reflexivity|]); (split; [|first [exact Hr|discriminate]]);
        destruct body; reflexivity.
  - eexists. rewrite run_done. split; [reflexivity|]. split; [reflexivity|].
    split; [reflexivity|exact Hr].
Qed.

(* ====================================================================== *)
(** ** AuthProvider on mount *)
(* ====================================================================== *)

Lemma go_on_run {A} (p : Proc A) (answers : list Response) (w : World) :
  go_on answers (start_call p w) = run p answers w.
Proof. reflexivity. Qed.

(** X26: the effect AuthProvider runs on mount.  Unless both credentials
    are in the store it sends nothing, starts nothing and touches nothing
    but the loading flag, which it turns off: an access credential stored
    without a refresh credential is neither used nor removed.  With both
    it returns at once with loading as it was and the store untouched,
    having started fetchUserProfile with the stored access credential:
    that call's request is out, the call is over once three answers have
    arrived, never throws, and ends with loading off. *)
Theorem mount_restores_or_stops (w : World) :
  (present (storage w !! "access_token") && present (storage w !! "refresh_token")
   = false ->
   mount w = (apply (SetLoading false) w, None))
  /\ (present (storage w !! "access_token") && present (storage w !! "refresh_token")
      = true ->
      exists profile,
        (mount w).2 = Some profile
        /\ loading (mount w).1 = loading w
        /\ storage (mount w).1 = storage w
        /\ location (mount w).1 = location w
        /\ sent (mount w).1
           = sent w ++ [profile_request
                          (VStr (default "" (storage w !! "access_token")))]
        /\ (forall answers, (3 <= List.length answers)%nat ->
              exists r, (go_on answers ((mount w).1, profile)).2 = Done r)
        /\ (forall answers w' r,
              go_on answers ((mount w).1, profile) = (w', Done r) ->
              r = Returned tt /\ loading w' = false)).
Proof.
  unfold mount. split; intros H; rewrite H; [reflexivity|].
  set (tok := VStr (default "" (storage w !! "access_token"))).
  set (w0 := apply (SetRefreshToken _) _).
  eexists. split; [reflexivity|]. cbn [fst snd].
  split; [reflexivity|]. split; [reflexivity|]. split; [reflexivity|].
  split; [reflexivity|].
  assert (Hq : quietly 3 (AuthProvider.fetchUserProfile tok)).
  { apply fetchUserProfile_quietly. exact I. }
  rewrite <- surjective_pairing.
  split.
  - intros answers Hl. rewrite go_on_run.
    apply (within_bounded 3 _ (quietly_within 3 _ Hq) answers w0). exact Hl.
  - intros answers w' r E. rewrite go_on_run in E. split.
    + destruct (quietly_returns 3 _ answers w0 r Hq) as ([] & Hr);
        [rewrite E; reflexivity|exact Hr].
    + apply (fetchUserProfile_ends_loading_run _ answers _ w' r E).
Qed.
